(** * News analysis pipeline: fetching, analysis stage, validation stage,
      combined results and statistics

    A shallow embedding of [news_fetcher.py], [llm_analyzer.py],
    [llm_validator.py] and of [_combine_results] and
    [_calculate_statistics] of [main.py], together with the parts of the
    Python runtime they rely on (string methods, [json.loads], truthiness,
    subscripting, [time.sleep]).  The report and the files [main.py] writes
    are outside the model.

    Conventions.
    - A Python [str] is a [list ascii]; [py "..."] writes a literal.  The
      character operations ([lower], [isspace]) are those of the ASCII
      repertoire; characters above 127 have no case and are not spaces.
      Glyphs of the source's literals are kept as their UTF-8 bytes.
    - A Python exception is a value of [exn]; code that may raise returns
      [res A], sequenced with [let* x := e in k].
    - The two language models, [requests.post] and [time.sleep] act on an
      explicit [world]: the number of requests issued so far and the log of
      events.  What a model answers is given by an oracle that receives the
      index of the request and the request itself.
    - Durations are whole seconds in [Z]; only their sign and value are used.
    - The news service, the reading and writing of dates and the clock are
      parameters of the fetcher; [fetch_articles] returns the requests it
      sent beside its result.
    - Interpreter limits (recursion depth, integer digit limit, memory) are
      outside the model, as are [KeyboardInterrupt] and [SystemExit]. *)

From Stdlib Require Import ZArith Ascii String Lia.
From stdpp Require Import gmap strings list pretty.

Local Open Scope Z_scope.
Set Warnings "-register-all".

(* ------------------------------------------------------------------ *)
(** ** Python strings *)

Module Text.

Definition str := list ascii.

Definition py (s : string) : str := list_ascii_of_string s.
Arguments py : simpl never.

Definition code (c : ascii) : N := N_of_ascii c.

Definition nl : ascii := "010"%char.
Definition quote : ascii := "034"%char.
Definition backslash : ascii := "\"%char.
Definition tick : ascii := "`"%char.

(** [str.isspace] on one character. *)
Definition is_space (c : ascii) : bool :=
  let n := code c in
  ((9 <=? n) && (n <=? 13) || (28 <=? n) && (n <=? 32))%N.

(** [str.lower] on one character. *)
Definition lower_char (c : ascii) : ascii :=
  let n := code c in
  if ((65 <=? n) && (n <=? 90))%N then ascii_of_N (n + 32) else c.

Definition lower (s : str) : str := map lower_char s.

Fixpoint lstrip (s : str) : str :=
  match s with
  | c :: s' => if is_space c then lstrip s' else s
  | [] => []
  end.

Definition rstrip (s : str) : str := rev (lstrip (rev s)).

(** [s.strip()] *)
Definition strip (s : str) : str := rstrip (lstrip s).

(** [s.startswith(p)] *)
Fixpoint startswith (p s : str) : bool :=
  match p, s with
  | [], _ => true
  | a :: p', b :: s' => bool_decide (a = b) && startswith p' s'
  | _ :: _, [] => false
  end.

(** [p in s] for two strings *)
Fixpoint contains (p s : str) : bool :=
  startswith p s || match s with [] => false | _ :: s' => contains p s' end.

(** [s.split('\n')] *)
Fixpoint split_nl (s : str) : list str :=
  match s with
  | [] => [[]]
  | c :: s' =>
      if bool_decide (c = nl) then [] :: split_nl s'
      else match split_nl s' with
           | l :: ls => (c :: l) :: ls
           | [] => [[c]]
           end
  end.

(** ['\n'.join(ls)] *)
Fixpoint join_nl (ls : list str) : str :=
  match ls with
  | [] => []
  | [l] => l
  | l :: ls' => l ++ nl :: join_nl ls'
  end.

(** [s[:n]] for [n >= 0] *)
Definition prefix (n : nat) (s : str) : str := take n s.

(** [lines[1:-1]] *)
Definition inner {A} (l : list A) : list A := removelast (tail l).

(** [str(z)] for an [int] *)
Definition str_of_Z (z : Z) : str := py (pretty z).

Definition fence : str := py "```".

End Text.

Export Text.

(* ------------------------------------------------------------------ *)
(** ** JSON values and [json.loads] *)

Module Json.

(** A JSON number as Python holds it: an [int], or a [float] kept as the
    text it was read from (which also covers [NaN] and the infinities). *)
Inductive pynum :=
| PyInt (z : Z)
| PyFloat (lexeme : str).

(** The values [json.loads] produces.  A [dict] keeps its keys in insertion
    order, each key once. *)
Inductive json :=
| JNull
| JBool (b : bool)
| JNum (n : pynum)
| JStr (s : str)
| JArr (l : list json)
| JObj (d : list (str * json)).

Definition is_digit (c : ascii) : bool := ((48 <=? code c) && (code c <=? 57))%N.

(** The whitespace of the JSON grammar: space, tab, line feed, return. *)
Definition is_json_ws (c : ascii) : bool :=
  let n := code c in ((n =? 32) || (n =? 9) || (n =? 10) || (n =? 13))%N.

Fixpoint skip_ws (s : str) : str :=
  match s with
  | c :: s' => if is_json_ws c then skip_ws s' else s
  | [] => []
  end.

Fixpoint digits (s : str) : str * str :=
  match s with
  | c :: s' => if is_digit c then let '(ds, r) := digits s' in (c :: ds, r) else ([], s)
  | [] => ([], [])
  end.

Definition digit_val (c : ascii) : Z := Z.of_N (code c) - 48.

Definition Z_of_digits (ds : str) : Z :=
  fold_left (fun acc c => 10 * acc + digit_val c) ds 0.

(** [d[k] = v] on a dict *)
Fixpoint dict_set (d : list (str * json)) (k : str) (v : json) : list (str * json) :=
  match d with
  | [] => [(k, v)]
  | (k', v') :: d' => if bool_decide (k' = k) then (k, v) :: d' else (k', v') :: dict_set d' k v
  end.

(** [d.get(k)] *)
Fixpoint dict_get (d : list (str * json)) (k : str) : option json :=
  match d with
  | [] => None
  | (k', v) :: d' => if bool_decide (k' = k) then Some v else dict_get d' k
  end.

(** [dict(pairs)] *)
Definition dict_of_pairs (ps : list (str * json)) : list (str * json) :=
  fold_left (fun d kv => dict_set d kv.1 kv.2) ps [].

Definition hex_val (c : ascii) : option N :=
  let n := code c in
  if ((48 <=? n) && (n <=? 57))%N then Some (n - 48)%N
  else if ((65 <=? n) && (n <=? 70))%N then Some (n - 55)%N
  else if ((97 <=? n) && (n <=? 102))%N then Some (n - 87)%N
  else None.

Definition hex4 (a b c d : ascii) : option N :=
  match hex_val a, hex_val b, hex_val c, hex_val d with
  | Some x, Some y, Some z, Some w => Some (((x * 16 + y) * 16 + z) * 16 + w)%N
  | _, _, _, _ => None
  end.

(** The bytes of one code point. *)
Definition utf8 (u : N) : str :=
  let b (n : N) := ascii_of_N n in
  (if u <? 128 then [b u]
   else if u <? 2048 then [b (192 + u / 64); b (128 + u mod 64)]
   else if u <? 65536 then
     [b (224 + u / 4096); b (128 + (u / 64) mod 64); b (128 + u mod 64)]
   else [b (240 + u / 262144); b (128 + (u / 4096) mod 64);
         b (128 + (u / 64) mod 64); b (128 + u mod 64)])%N.

Definition unescape (c : ascii) : option ascii :=
  if bool_decide (c = quote) then Some quote
  else if bool_decide (c = backslash) then Some backslash
  else if bool_decide (c = "/"%char) then Some "/"%char
  else if bool_decide (c = "b"%char) then Some "008"%char
  else if bool_decide (c = "f"%char) then Some "012"%char
  else if bool_decide (c = "n"%char) then Some "010"%char
  else if bool_decide (c = "r"%char) then Some "013"%char
  else if bool_decide (c = "t"%char) then Some "009"%char
  else None.

Definition is_high (u : N) : bool := ((55296 <=? u) && (u <=? 56319))%N.
Definition is_low (u : N) : bool := ((56320 <=? u) && (u <=? 57343))%N.
Definition pair_up (u u2 : N) : N := (65536 + ((u - 55296) * 1024 + (u2 - 56320)))%N.

(** What a string literal is made of: a character, or the 16-bit unit of a
    [\u] escape. *)
Inductive item :=
| Raw (c : ascii)
| Unit16 (u : N).

(** The body of a string literal, after its opening quote ([scanstring],
    strict mode): its items (gathered in [acc], last first) and what
    follows the closing quote. *)
Fixpoint scan_items (s : str) (acc : list item) : option (list item * str) :=
  match s with
  | [] => None
  | c :: s1 =>
      if bool_decide (c = quote) then Some (rev acc, s1)
      else if bool_decide (c = backslash) then
        match s1 with
        | [] => None
        | e :: s2 =>
            if bool_decide (e = "u"%char) then
              match s2 with
              | h1 :: h2 :: h3 :: h4 :: s3 =>
                  match hex4 h1 h2 h3 h4 with
                  | Some u => scan_items s3 (Unit16 u :: acc)
                  | None => None
                  end
              | _ => None
              end
            else
              match unescape e with
              | Some ch => scan_items s2 (Raw ch :: acc)
              | None => None
              end
        end
      else if (code c <? 32)%N then None
      else scan_items s1 (Raw c :: acc)
  end.

(** The text of the items: a high surrogate that is followed by a low one
    forms one code point with it. *)
Fixpoint decode (its : list item) : str :=
  match its with
  | [] => []
  | Raw c :: rest => c :: decode rest
  | Unit16 u :: rest =>
      match rest with
      | Unit16 v :: rest' =>
          if is_high u && is_low v then utf8 (pair_up u v) ++ decode rest'
          else utf8 u ++ decode rest
      | _ => utf8 u ++ decode rest
      end
  end.

Definition scan_string (s : str) : option (str * str) :=
  match scan_items s [] with
  | Some (its, r) => Some (decode its, r)
  | None => None
  end.

(** A number: an optional minus sign, then 0 or a digit string without
    leading zero; optionally a point and digits; optionally e or E, a sign
    and digits. *)
Definition lex_int (s : str) : option (str * str) :=
  let '(sign, s1) :=
    match s with
    | c :: t => if bool_decide (c = "-"%char) then ([c], t) else ([], s)
    | [] => ([], s)
    end in
  match s1 with
  | c :: t =>
      if bool_decide (c = "0"%char) then Some (sign ++ [c], t)
      else if is_digit c then let '(ds, r) := digits s1 in Some (sign ++ ds, r)
      else None
  | [] => None
  end.

Definition lex_frac (s : str) : option (str * str) :=
  match s with
  | c :: t =>
      if bool_decide (c = "."%char) then
        match digits t with
        | ([], _) => None
        | (ds, r) => Some (c :: ds, r)
        end
      else None
  | [] => None
  end.

Definition lex_exp (s : str) : option (str * str) :=
  match s with
  | e :: t =>
      if bool_decide (e = "e"%char) || bool_decide (e = "E"%char) then
        let '(sg, t') :=
          match t with
          | c :: t' =>
              if bool_decide (c = "-"%char) || bool_decide (c = "+"%char)
              then ([c], t') else ([], t)
          | [] => ([], t)
          end in
        match digits t' with
        | ([], _) => None
        | (ds, r) => Some (e :: sg ++ ds, r)
        end
      else None
  | [] => None
  end.

Definition int_of_lexeme (l : str) : Z :=
  match l with
  | c :: t => if bool_decide (c = "-"%char) then - Z_of_digits t else Z_of_digits l
  | [] => 0
  end.

Definition lex_number (s : str) : option (pynum * str) :=
  match lex_int s with
  | None => None
  | Some (i, r1) =>
      let '(f, r2) := match lex_frac r1 with Some (f, r) => (f, r) | None => ([], r1) end in
      let '(e, r3) := match lex_exp r2 with Some (e, r) => (e, r) | None => ([], r2) end in
      match f, e with
      | [], [] => Some (PyInt (int_of_lexeme i), r3)
      | _, _ => Some (PyFloat (i ++ f ++ e), r3)
      end
  end.

(** A literal [w] at the head of [s]. *)
Definition literal (w : string) (v : json) (s : str) : option (json * str) :=
  if startswith (py w) s then Some (v, drop (length (py w)) s) else None.

(** [scan_once] on a value that is neither an object nor an array: a
    string, one of the three literals, a number, or one of the three
    names of special floats. *)
Definition parse_scalar (s : str) : option (json * str) :=
  match s with
  | [] => None
  | c :: s1 =>
      if bool_decide (c = quote) then
        match scan_string s1 with
        | Some (t, r) => Some (JStr t, r)
        | None => None
        end
      else if startswith (py "null") s then literal "null" JNull s
      else if startswith (py "true") s then literal "true" (JBool true) s
      else if startswith (py "false") s then literal "false" (JBool false) s
      else
        match lex_number s with
        | Some (x, r) => Some (JNum x, r)
        | None =>
            if startswith (py "NaN") s then literal "NaN" (JNum (PyFloat (py "NaN"))) s
            else if startswith (py "Infinity") s
            then literal "Infinity" (JNum (PyFloat (py "Infinity"))) s
            else if startswith (py "-Infinity") s
            then literal "-Infinity" (JNum (PyFloat (py "-Infinity"))) s
            else None
        end
  end.

(** [scan_once], with the array and object loops as mutual companions.
    [parse_elems] starts at an element and [parse_members] just after the
    opening quote of a key, the whitespace before them already skipped.
    Every call uses up one unit of [fuel]; [fuel_for] gives enough. *)
Fixpoint parse_value (fuel : nat) (s : str) : option (json * str) :=
  match fuel with
  | O => None
  | S n =>
      match s with
      | [] => None
      | c :: s1 =>
          if bool_decide (c = "{"%char) then
            match skip_ws s1 with
            | c2 :: s2 =>
                if bool_decide (c2 = "}"%char) then Some (JObj [], s2)
                else if bool_decide (c2 = quote) then
                  match parse_members n s2 [] with
                  | Some (ps, r) => Some (JObj (dict_of_pairs ps), r)
                  | None => None
                  end
                else None
            | [] => None
            end
          else if bool_decide (c = "["%char) then
            match skip_ws s1 with
            | c2 :: s2 =>
                if bool_decide (c2 = "]"%char) then Some (JArr [], s2)
                else
                  match parse_elems n (c2 :: s2) [] with
                  | Some (vs, r) => Some (JArr vs, r)
                  | None => None
                  end
            | [] => None
            end
          else parse_scalar s
      end
  end
with parse_elems (fuel : nat) (s : str) (acc : list json) : option (list json * str) :=
  match fuel with
  | O => None
  | S n =>
      match parse_value n s with
      | None => None
      | Some (v, r) =>
          match skip_ws r with
          | c :: r1 =>
              if bool_decide (c = "]"%char) then Some (rev (v :: acc), r1)
              else if bool_decide (c = ","%char) then parse_elems n (skip_ws r1) (v :: acc)
              else None
          | [] => None
          end
      end
  end
with parse_members (fuel : nat) (s : str) (acc : list (str * json))
  : option (list (str * json) * str) :=
  match fuel with
  | O => None
  | S n =>
      match scan_string s with
      | None => None
      | Some (k, r) =>
          match skip_ws r with
          | c :: r1 =>
              if bool_decide (c = ":"%char) then
                match parse_value n (skip_ws r1) with
                | None => None
                | Some (v, r2) =>
                    match skip_ws r2 with
                    | c2 :: r3 =>
                        if bool_decide (c2 = "}"%char) then Some (rev ((k, v) :: acc), r3)
                        else if bool_decide (c2 = ","%char) then
                          match skip_ws r3 with
                          | c3 :: r4 =>
                              if bool_decide (c3 = quote)
                              then parse_members n r4 ((k, v) :: acc)
                              else None
                          | [] => None
                          end
                        else None
                    | [] => None
                    end
                end
              else None
          | [] => None
          end
      end
  end.

Definition fuel_for (s : str) : nat := S (2 * length s).

(** [json.loads(s)]: [None] stands for [JSONDecodeError]. *)
Definition json_loads (s : str) : option json :=
  match parse_value (fuel_for s) (skip_ws s) with
  | Some (v, r) => match skip_ws r with [] => Some v | _ :: _ => None end
  | None => None
  end.

End Json.

Export Json.

(* ------------------------------------------------------------------ *)
(** ** Exceptions and the Python operations used on parsed values *)

Module Py.

(** The exception classes that occur.  [Timeout] is a subclass of
    [RequestException]; all are subclasses of [Exception].  Each carries
    the text [str(e)] yields. *)
Inductive exn :=
| ValueError (msg : str)
| TypeError (msg : str)
| AttributeError (msg : str)
| KeyError (msg : str)
| IndexError (msg : str)
| JSONDecodeError (msg : str)
| Timeout (msg : str)
| RequestException (msg : str)
| LLMAnalyzerError (msg : str)
| LLMValidatorError (msg : str)
| OtherError (msg : str).

(** [str(e)] *)
Definition exn_str (e : exn) : str :=
  match e with
  | ValueError m | TypeError m | AttributeError m | KeyError m | IndexError m
  | JSONDecodeError m | Timeout m | RequestException m
  | LLMAnalyzerError m | LLMValidatorError m | OtherError m => m
  end.

(** [isinstance(e, requests.exceptions.Timeout)] *)
Definition is_timeout (e : exn) : bool :=
  match e with Timeout _ => true | _ => false end.

(** [isinstance(e, requests.exceptions.RequestException)] *)
Definition is_request_exception (e : exn) : bool :=
  match e with Timeout _ | RequestException _ => true | _ => false end.

(** [isinstance(e, json.JSONDecodeError)] *)
Definition is_json_decode_error (e : exn) : bool :=
  match e with JSONDecodeError _ => true | _ => false end.

Inductive res (A : Type) :=
| Ok (a : A)
| Raise (e : exn).
Arguments Ok {A} a.
Arguments Raise {A} e.

Definition bind {A B} (x : res A) (k : A -> res B) : res B :=
  match x with
  | Ok a => k a
  | Raise e => Raise e
  end.

Notation "'let*' x := e 'in' k" := (bind e (fun x => k))
  (at level 10, x name, e at level 100, k at level 200).

(** The text of the decoder's diagnostic is not modelled; this stands for it. *)
Definition decode_error_text : str := py "Expecting value".

(** [json.loads] as a call that may raise. *)
Definition loads (s : str) : res json :=
  match json_loads s with
  | Some v => Ok v
  | None => Raise (JSONDecodeError decode_error_text)
  end.

(** [type(v).__name__] *)
Definition type_name (v : json) : str :=
  match v with
  | JNull => py "NoneType"
  | JBool _ => py "bool"
  | JNum (PyInt _) => py "int"
  | JNum (PyFloat _) => py "float"
  | JStr _ => py "str"
  | JArr _ => py "list"
  | JObj _ => py "dict"
  end.

Definition exponent_of (e : str) : Z :=
  match e with
  | _ :: c :: t =>
      if bool_decide (c = "-"%char) then - Z_of_digits t
      else if bool_decide (c = "+"%char) then Z_of_digits t
      else Z_of_digits (c :: t)
  | _ => 0
  end.

(** Whether the float read from a number text is [0.0]: its digits are all
    zero, or its magnitude is at most [2^-1075] and rounds to zero. *)
Definition float_is_zero (l : str) : bool :=
  match lex_int l with
  | None => false
  | Some (i, r1) =>
      let '(f, r2) :=
        match lex_frac r1 with Some (f, r) => (tail f, r) | None => ([], r1) end in
      let e := match lex_exp r2 with Some (e, _) => exponent_of e | None => 0 end in
      let m := Z.abs (int_of_lexeme (i ++ f)) in
      let k := e - Z.of_nat (length f) in
      (m =? 0) || ((k <? 0) && (m * 2 ^ 1075 <=? 10 ^ (- k)))
  end.

(** [bool(v)] *)
Definition truthy (v : json) : bool :=
  match v with
  | JNull => false
  | JBool b => b
  | JNum (PyInt z) => negb (z =? 0)
  | JNum (PyFloat l) => negb (float_is_zero l)
  | JStr s => negb (bool_decide (s = []))
  | JArr l => match l with [] => false | _ => true end
  | JObj d => match d with [] => false | _ => true end
  end.

Definition is_str (k : str) (v : json) : bool :=
  match v with JStr s => bool_decide (s = k) | _ => false end.

(** [k in v] for a string [k] *)
Definition py_in (k : str) (v : json) : res bool :=
  match v with
  | JObj d => Ok (bool_decide (is_Some (dict_get d k)))
  | JArr l => Ok (existsb (is_str k) l)
  | JStr s => Ok (contains k s)
  | _ => Raise (TypeError (py "argument of type '" ++ type_name v ++ py "' is not iterable"))
  end.

Definition not_subscriptable (v : json) : exn :=
  TypeError (py "'" ++ type_name v ++ py "' object is not subscriptable").

(** [v[k]] for a string [k] *)
Definition getitem (v : json) (k : str) : res json :=
  match v with
  | JObj d =>
      match dict_get d k with
      | Some x => Ok x
      | None => Raise (KeyError (py "'" ++ k ++ py "'"))
      end
  | JArr _ => Raise (TypeError (py "list indices must be integers or slices, not str"))
  | JStr _ => Raise (TypeError (py "string indices must be integers, not 'str'"))
  | _ => Raise (not_subscriptable v)
  end.

(** [v[0]] *)
Definition getitem0 (v : json) : res json :=
  match v with
  | JArr (x :: _) => Ok x
  | JArr [] => Raise (IndexError (py "list index out of range"))
  | JStr (c :: _) => Ok (JStr [c])
  | JStr [] => Raise (IndexError (py "string index out of range"))
  | JObj _ => Raise (KeyError (py "0"))
  | _ => Raise (not_subscriptable v)
  end.

(** [v[k] = x] for a string [k] *)
Definition setitem (v : json) (k : str) (x : json) : res json :=
  match v with
  | JObj d => Ok (JObj (dict_set d k x))
  | JArr _ => Raise (TypeError (py "list indices must be integers or slices, not str"))
  | _ => Raise (TypeError (py "'" ++ type_name v ++ py "' object does not support item assignment"))
  end.

(** [len(v)] *)
Definition py_len (v : json) : res nat :=
  match v with
  | JArr l => Ok (length l)
  | JStr s => Ok (length s)
  | JObj d => Ok (length d)
  | _ => Raise (TypeError (py "object of type '" ++ type_name v ++ py "' has no len()"))
  end.

Definition no_attribute (v : json) (name : string) : exn :=
  AttributeError (py "'" ++ type_name v ++ py "' object has no attribute '" ++ py name ++ py "'").

(** [v.lower()], [v.strip()] and [v.get(k, default)] on a parsed value *)
Definition py_lower (v : json) : res str :=
  match v with JStr s => Ok (lower s) | _ => Raise (no_attribute v "lower") end.

Definition py_strip (v : json) : res str :=
  match v with JStr s => Ok (strip s) | _ => Raise (no_attribute v "strip") end.

Definition py_get (v : json) (k : str) (default : json) : res json :=
  match v with
  | JObj d => Ok (match dict_get d k with Some x => x | None => default end)
  | _ => Raise (no_attribute v "get")
  end.

(** An article identifier: the [int] given at ingestion, or the text
    ['unknown'] that stands in for a missing one. *)
Inductive pyid :=
| IdInt (z : Z)
| IdStr (s : str).

Definition str_of_id (i : pyid) : str :=
  match i with IdInt z => str_of_Z z | IdStr s => s end.

(** An article [dict]; a key that is absent is [None]. *)
Record article := {
  art_id : option Z;
  art_title : option str;
  art_full_text : option str
}.

(** [d.get(k, default)] on a field *)
Definition get {A} (field : option A) (default : A) : A :=
  match field with Some x => x | None => default end.

(** [article.get('id', 'unknown')] *)
Definition id_or (a : article) (default : pyid) : pyid :=
  match art_id a with Some z => IdInt z | None => default end.

(** [not article]: the dict is empty *)
Definition article_empty (a : article) : bool :=
  match art_id a, art_title a, art_full_text a with
  | None, None, None => true
  | _, _, _ => false
  end.

End Py.

Export Py.

(* ------------------------------------------------------------------ *)
(** ** The outside world *)

Module World.

(** What is sent to model #1 and to model #2.  A prompt is represented by
    the values its template is filled with. *)
Record analysis_prompt := {
  ap_title : str;
  ap_text : str
}.

Record validation_prompt := {
  vp_title : str;
  vp_content : str;
  vp_gist : str;
  vp_sentiment : str;
  vp_tone : str
}.

Inductive event :=
| Generate (p : analysis_prompt)
| Post (p : validation_prompt)
| Sleep (seconds : Z).

Record world := {
  calls : nat;
  log : list event
}.

Definition start : world := {| calls := 0; log := [] |}.

Definition record (ev : event) (w : world) : world :=
  {| calls := match ev with Sleep _ => calls w | _ => S (calls w) end;
     log := log w ++ [ev] |}.

(** [time.sleep(d)]: a negative duration is refused. *)
Definition time_sleep (d : Z) (w : world) : res unit * world :=
  if d <? 0 then (Raise (ValueError (py "sleep length must be non-negative")), w)
  else (Ok tt, record (Sleep d) w).

(** The answer of model #1: [generate_content] raises (or reading
    [response.text] does), or there is a text. *)
Inductive generated :=
| GenRaises (e : exn)
| GenText (t : str).

(** The answer to [requests.post]. *)
Record response := {
  status_code : Z;
  text : str;
  json_body : res json
}.

Inductive posted :=
| PostRaises (e : exn)
| PostResponse (r : response).

End World.

Export World.

(* ------------------------------------------------------------------ *)
(** ** [llm_analyzer.py] *)

Module LLMAnalyzer.

(** The [dict] an analysis is; a key that is absent is [None]. *)
Record analysis := {
  article_id : option pyid;
  title : option str;
  gist : option str;
  sentiment : option str;
  tone : option str;
  model_used : option str;
  raw_response : option str;
  error : option str
}.

(** [not analysis] *)
Definition analysis_empty (a : analysis) : bool :=
  match article_id a, title a, gist a, sentiment a, tone a,
        model_used a, raw_response a, error a with
  | None, None, None, None, None, None, None, None => true
  | _, _, _, _, _, _, _, _ => false
  end.

(** What [_parse_response] returns. *)
Record parsed := {
  p_gist : str;
  p_sentiment : str;
  p_tone : str
}.

Definition valid_sentiments : list str := [py "positive"; py "negative"; py "neutral"].

Definition valid_tones : list str :=
  [py "urgent"; py "analytical"; py "satirical"; py "balanced"; py "critical";
   py "celebratory"; py "alarming"; py "informative"].

Definition required_fields : list str := [py "gist"; py "sentiment"; py "tone"].

Fixpoint check_required (analysis : json) (fields : list str) : res unit :=
  match fields with
  | [] => Ok tt
  | field :: rest =>
      let* present := py_in field analysis in
      if present then check_required analysis rest
      else Raise (LLMAnalyzerError (py "Missing required field: " ++ field))
  end.

(** The cleaning at the head of [_parse_response]: trim, then drop the
    first and the last line when the text starts with a fence. *)
Definition clean (response_text : str) : str :=
  let response_text := strip response_text in
  if startswith fence response_text
  then join_nl (inner (split_nl response_text))
  else response_text.

(** The [try] block of [_parse_response]. *)
Definition parse_response_body (response_text : str) : res parsed :=
  let response_text := clean response_text in
  let* analysis := loads response_text in
  let* _ := check_required analysis required_fields in
  let* s := getitem analysis (py "sentiment") in
  let* s := py_lower s in
  let sentiment := strip s in
  let sentiment :=
    if bool_decide (sentiment ∈ valid_sentiments) then sentiment else py "neutral" in
  let* t := getitem analysis (py "tone") in
  let* t := py_lower t in
  let tone := strip t in
  let tone := if bool_decide (tone ∈ valid_tones) then tone else py "informative" in
  let* g := getitem analysis (py "gist") in
  let* g := py_strip g in
  Ok {| p_gist := g; p_sentiment := sentiment; p_tone := tone |}.

Definition _parse_response (response_text : str) (article_id : pyid) : res parsed :=
  match parse_response_body response_text with
  | Ok r => Ok r
  | Raise e =>
      if is_json_decode_error e
      then Raise (LLMAnalyzerError (py "Invalid JSON response: " ++ exn_str e))
      else Raise (LLMAnalyzerError (py "Failed to parse response: " ++ exn_str e))
  end.

Definition _build_analysis_prompt (title text : str) : analysis_prompt :=
  {| ap_title := title; ap_text := text |}.

Definition failed_after (article_id : pyid) (retry_count : Z) (e : exn) : exn :=
  LLMAnalyzerError
    (py "Failed to analyze article " ++ str_of_id article_id ++ py " after "
     ++ str_of_Z retry_count ++ py " attempts: " ++ exn_str e).

Section Client.

(** Model #1 and its name. *)
Variable model : nat -> analysis_prompt -> generated.
Variable model_name : str.

Definition generate_content (p : analysis_prompt) (w : world) : generated * world :=
  (model (calls w) p, record (Generate p) w).

(** The [except Exception] clause of the retry loop: sleep and go on, or
    raise the final error. *)
Definition on_exception (article_id : pyid) (retry_count attempt : Z) (e : exn)
    (w : world) : res unit * world :=
  if attempt <? retry_count - 1 then time_sleep (2 ^ attempt) w
  else (Raise (failed_after article_id retry_count e), w).

(** The loop [for attempt in range(retry_count)], with [todo] iterations
    left.  [Ok None] is the loop running out: the function ends without a
    [return]. *)
Fixpoint attempts (article_id : pyid) (title : str) (prompt : analysis_prompt)
    (retry_count : Z) (todo : nat) (attempt : Z) (w : world)
  : res (option analysis) * world :=
  match todo with
  | O => (Ok None, w)
  | S todo' =>
      let next := attempts article_id title prompt retry_count todo' (attempt + 1) in
      let handle (e : exn) (w : world) :=
        match on_exception article_id retry_count attempt e w with
        | (Ok _, w') => next w'
        | (Raise e', w') => (Raise e', w')
        end in
      match generate_content prompt w with
      | (GenRaises e, w1) => handle e w1
      | (GenText t, w1) =>
          if bool_decide (t = []) then
            if attempt <? retry_count - 1 then
              match time_sleep 1 w1 with
              | (Ok _, w2) => next w2
              | (Raise e, w2) => handle e w2
              end
            else handle (LLMAnalyzerError (py "Response was empty or blocked")) w1
          else
            match _parse_response t article_id with
            | Raise e => handle e w1
            | Ok a =>
                (Ok (Some {| article_id := Some article_id;
                             title := Some title;
                             gist := Some (p_gist a);
                             sentiment := Some (p_sentiment a);
                             tone := Some (p_tone a);
                             model_used := Some model_name;
                             raw_response := Some t;
                             error := None |}), w1)
            end
      end
  end.

Definition analyze_article (a : article) (retry_count : Z) (w : world)
  : res (option analysis) * world :=
  if article_empty a || negb (bool_decide (is_Some (art_full_text a))) then
    (Raise (ValueError (py "Article must contain 'full_text' field")), w)
  else
    let article_id := id_or a (IdStr (py "unknown")) in
    let title := get (art_title a) (py "No title") in
    let text := get (art_full_text a) [] in
    if (length (strip text) <? 30)%nat then
      (Raise (ValueError (py "Article " ++ str_of_id article_id
                          ++ py " text too short for analysis")), w)
    else
      attempts article_id title (_build_analysis_prompt title text)
        retry_count (Z.to_nat retry_count) 0 w.

(** The record appended when an article fails. *)
Definition failed (a : article) (e : exn) : analysis :=
  {| article_id := Some (id_or a (IdStr (py "unknown")));
     title := Some (get (art_title a) (py "Unknown"));
     gist := Some (py "Analysis failed");
     sentiment := Some (py "neutral");
     tone := Some (py "informative");
     model_used := None;
     raw_response := None;
     error := Some (exn_str e) |}.

(** The loop of [analyze_batch] over the articles from position [idx] on;
    [n] is [len(articles)].  An entry [None] is a result that is Python's
    [None]. *)
Fixpoint batch_loop (delay : Z) (n : Z) (idx : Z) (todo : list article)
    (results : list (option analysis)) (w : world)
  : list (option analysis) * world :=
  match todo with
  | [] => (results, w)
  | a :: rest =>
      let next := batch_loop delay n (idx + 1) rest in
      match analyze_article a 3 w with
      | (Ok result, w1) =>
          let results1 := results ++ [result] in
          if idx <? n - 1 then
            match time_sleep delay w1 with
            | (Ok _, w2) => next results1 w2
            | (Raise e, w2) => next (results1 ++ [Some (failed a e)]) w2
            end
          else next results1 w1
      | (Raise e, w1) => next (results ++ [Some (failed a e)]) w1
      end
  end.

Definition analyze_batch (articles : list article) (delay : Z) (w : world)
  : list (option analysis) * world :=
  batch_loop delay (Z.of_nat (length articles)) 0 articles [] w.

End Client.

End LLMAnalyzer.

(* ------------------------------------------------------------------ *)
(** ** [llm_validator.py] *)

Module LLMValidator.

(** The [dict] a validation is.  The fields taken from the validator's
    reply are whatever JSON value it gave. *)
Record validation := {
  article_id : pyid;
  title : str;
  is_valid : json;
  validation_result : json;
  reasoning : json;
  corrections : json;
  validator_model : option str;
  raw_validation : option json;
  error : option str
}.

Definition correct_label : str := py "✓ Correct".
Definition issues_label : str := py "✗ Issues Found".
Definition failed_label : str := py "⚠ Validation Failed".

Definition label (ok : bool) : str := if ok then correct_label else issues_label.

(** The cleaning at the head of [_parse_validation]: trim, then drop every
    line that starts with a fence when the text itself starts with one. *)
Definition clean (validation_text : str) : str :=
  let validation_text := strip validation_text in
  if startswith fence validation_text
  then join_nl (List.filter (fun l => negb (startswith fence l)) (split_nl validation_text))
  else validation_text.

(** The [except json.JSONDecodeError] clause, on the cleaned text. *)
Definition keyword_fallback (validation_text : str) : json :=
  let validation_text_lower := lower validation_text in
  let is_valid :=
    contains (py "correct") validation_text_lower
    || contains (py "accurate") validation_text_lower in
  JObj [(py "is_valid", JBool is_valid);
        (py "result", JStr (label is_valid));
        (py "reasoning", JStr (prefix 200 validation_text));
        (py "corrections", JObj [])].

(** The four [if ... not in validation] statements. *)
Definition fill_defaults (validation : json) : res json :=
  let* has := py_in (py "is_valid") validation in
  let* validation :=
    if has then Ok validation else setitem validation (py "is_valid") (JBool true) in
  let* has := py_in (py "result") validation in
  let* validation :=
    if has then Ok validation
    else let* v := getitem validation (py "is_valid") in
         setitem validation (py "result") (JStr (label (truthy v))) in
  let* has := py_in (py "reasoning") validation in
  let* validation :=
    if has then Ok validation
    else setitem validation (py "reasoning") (JStr (py "Validation completed")) in
  let* has := py_in (py "corrections") validation in
  if has then Ok validation else setitem validation (py "corrections") (JObj []).

Definition parse_failure (e : exn) : exn :=
  LLMValidatorError (py "Failed to parse validation: " ++ exn_str e).

(** [_parse_validation] once its argument is known to be a string. *)
Definition parse_validation_text (validation_text : str) : res json :=
  let validation_text := clean validation_text in
  match json_loads validation_text with
  | None => Ok (keyword_fallback validation_text)
  | Some validation =>
      match fill_defaults validation with
      | Ok v => Ok v
      | Raise e => Raise (parse_failure e)
      end
  end.

Definition _parse_validation (validation_text : json) (article_id : pyid) : res json :=
  match validation_text with
  | JStr s => parse_validation_text s
  | _ => Raise (parse_failure (no_attribute validation_text "strip"))
  end.

Definition _build_validation_prompt (a : article) (an : LLMAnalyzer.analysis)
  : validation_prompt :=
  {| vp_title := get (art_title a) (py "N/A");
     vp_content := prefix 1000 (get (art_full_text a) (py "N/A"));
     vp_gist := get (LLMAnalyzer.gist an) (py "N/A");
     vp_sentiment := get (LLMAnalyzer.sentiment an) (py "N/A");
     vp_tone := get (LLMAnalyzer.tone an) (py "N/A") |}.

(** The final errors of the three [except] clauses. *)
Definition final_error (retry_count : Z) (e : exn) : exn :=
  if is_timeout e then LLMValidatorError (py "Request timeout after retries")
  else if is_request_exception e then LLMValidatorError (py "Network error: " ++ exn_str e)
  else LLMValidatorError (py "Validation failed after " ++ str_of_Z retry_count
                          ++ py " attempts: " ++ exn_str e).

Section Client.

(** Model #2 behind its endpoint, and its name. *)
Variable endpoint : nat -> validation_prompt -> posted.
Variable model : str.

Definition post (p : validation_prompt) (w : world) : posted * world :=
  (endpoint (calls w) p, record (Post p) w).

(** From [response.json()] to the returned dict. *)
Definition read_response (r : response) (article_id : pyid) (title : str)
  : res validation :=
  let* response_data := json_body r in
  let* has := py_in (py "choices") response_data in
  let* empty :=
    if negb has then Ok true
    else let* c := getitem response_data (py "choices") in
         let* n := py_len c in
         Ok (n =? 0)%nat in
  if empty : bool then Raise (LLMValidatorError (py "Empty response from API"))
  else
    let* c := getitem response_data (py "choices") in
    let* c0 := getitem0 c in
    let* m := getitem c0 (py "message") in
    let* validation_text := getitem m (py "content") in
    let* validation := _parse_validation validation_text article_id in
    let* iv := getitem validation (py "is_valid") in
    let* vr := getitem validation (py "result") in
    let* rs := getitem validation (py "reasoning") in
    let* co := py_get validation (py "corrections") (JObj []) in
    Ok {| article_id := article_id;
          title := title;
          is_valid := iv;
          validation_result := vr;
          reasoning := rs;
          corrections := co;
          validator_model := Some model;
          raw_validation := Some validation_text;
          error := None |}.

(** The three [except] clauses: sleep two seconds and go on, or raise the
    clause's final error. *)
Definition on_exception (retry_count attempt : Z) (e : exn) (w : world)
  : res unit * world :=
  if attempt <? retry_count - 1 then time_sleep 2 w
  else (Raise (final_error retry_count e), w).

Fixpoint attempts (article_id : pyid) (title : str) (prompt : validation_prompt)
    (retry_count : Z) (todo : nat) (attempt : Z) (w : world)
  : res (option validation) * world :=
  match todo with
  | O => (Ok None, w)
  | S todo' =>
      let next := attempts article_id title prompt retry_count todo' (attempt + 1) in
      let handle (e : exn) (w : world) :=
        match on_exception retry_count attempt e w with
        | (Ok _, w') => next w'
        | (Raise e', w') => (Raise e', w')
        end in
      let retry_after (d : Z) (e : exn) (w : world) :=
        if attempt <? retry_count - 1 then
          match time_sleep d w with
          | (Ok _, w') => next w'
          | (Raise e', w') => handle e' w'
          end
        else handle e w in
      match post prompt w with
      | (PostRaises e, w1) => handle e w1
      | (PostResponse r, w1) =>
          if status_code r =? 429 then
            retry_after (2 ^ attempt) (LLMValidatorError (py "Rate limit exceeded")) w1
          else if negb (status_code r =? 200) then
            retry_after 1
              (LLMValidatorError (py "API error: " ++ str_of_Z (status_code r)
                                  ++ py " - " ++ text r)) w1
          else
            match read_response r article_id title with
            | Raise e => handle e w1
            | Ok v => (Ok (Some v), w1)
            end
      end
  end.

Definition validate_analysis (a : article) (an : LLMAnalyzer.analysis)
    (retry_count : Z) (w : world) : res (option validation) * world :=
  if article_empty a || negb (bool_decide (is_Some (art_full_text a))) then
    (Raise (ValueError (py "Article must contain 'full_text' field")), w)
  else if LLMAnalyzer.analysis_empty an
          || negb (bool_decide (is_Some (LLMAnalyzer.gist an)))
          || negb (bool_decide (is_Some (LLMAnalyzer.sentiment an))) then
    (Raise (ValueError (py "Analysis must contain 'gist', 'sentiment', 'tone'")), w)
  else
    let article_id := id_or a (get (LLMAnalyzer.article_id an) (IdStr (py "unknown"))) in
    let title := get (art_title a) (py "No title") in
    attempts article_id title (_build_validation_prompt a an)
      retry_count (Z.to_nat retry_count) 0 w.

(** The record appended when a pair fails. *)
Definition failed (a : article) (e : exn) : validation :=
  {| article_id := id_or a (IdStr (py "unknown"));
     title := get (art_title a) (py "Unknown");
     is_valid := JBool true;
     validation_result := JStr failed_label;
     reasoning := JStr (py "Error: " ++ exn_str e);
     corrections := JObj [];
     validator_model := None;
     raw_validation := None;
     error := Some (exn_str e) |}.

Fixpoint batch_loop (delay : Z) (n : Z) (idx : Z)
    (todo : list (article * LLMAnalyzer.analysis))
    (results : list (option validation)) (w : world)
  : list (option validation) * world :=
  match todo with
  | [] => (results, w)
  | (a, an) :: rest =>
      let next := batch_loop delay n (idx + 1) rest in
      match validate_analysis a an 3 w with
      | (Ok result, w1) =>
          let results1 := results ++ [result] in
          if idx <? n - 1 then
            match time_sleep delay w1 with
            | (Ok _, w2) => next results1 w2
            | (Raise e, w2) => next (results1 ++ [Some (failed a e)]) w2
            end
          else next results1 w1
      | (Raise e, w1) => next (results ++ [Some (failed a e)]) w1
      end
  end.

Definition validate_batch (articles : list article)
    (analyses : list LLMAnalyzer.analysis) (delay : Z) (w : world)
  : res (list (option validation)) * world :=
  if negb (length articles =? length analyses)%nat then
    (Raise (ValueError (py "Articles and analyses lists must have same length")), w)
  else
    let '(results, w') :=
      batch_loop delay (Z.of_nat (length articles)) 0 (zip articles analyses) [] w in
    (Ok results, w').

End Client.

End LLMValidator.

(* ------------------------------------------------------------------ *)
(** ** [main.py]: the statistics of a batch *)

Module Pipeline.

(** A combined result, as far as [_calculate_statistics] reads it. *)
Record combined_analysis := {
  gist : str;
  sentiment : str;
  tone : str;
  model : str
}.

Record combined_validation := {
  is_valid : json;
  result : json;
  reasoning : json;
  corrections : json;
  validator_model : str
}.

Record combined := {
  analysis : combined_analysis;
  validation : combined_validation
}.

Record statistics (D : Type) := {
  total_articles : nat;
  duration : D;
  sentiment_distribution : gmap str nat;
  tone_distribution : gmap str nat;
  validation_stats : gmap str nat
}.
Arguments total_articles {D} _.
Arguments duration {D} _.
Arguments sentiment_distribution {D} _.
Arguments tone_distribution {D} _.
Arguments validation_stats {D} _.

(** [d[k] += 1] *)
Definition increment (k : str) (d : gmap str nat) : res (gmap str nat) :=
  match d !! k with
  | Some n => Ok (<[k := (n + 1)%nat]> d)
  | None => Raise (KeyError (py "'" ++ k ++ py "'"))
  end.

(** The three counters after one more result. *)
Definition count_one (r : combined)
    (acc : gmap str nat * gmap str nat * gmap str nat)
  : res (gmap str nat * gmap str nat * gmap str nat) :=
  let '(sentiment_counts, tone_counts, validation_counts) := acc in
  let sentiment := sentiment (analysis r) in
  let* sentiment_counts :=
    if bool_decide (is_Some (sentiment_counts !! sentiment))
    then increment sentiment sentiment_counts
    else Ok sentiment_counts in
  let tone := tone (analysis r) in
  let tone_counts := <[tone := (default 0%nat (tone_counts !! tone) + 1)%nat]> tone_counts in
  let* validation_counts :=
    if truthy (is_valid (validation r))
    then increment (py "valid") validation_counts
    else increment (py "invalid") validation_counts in
  Ok (sentiment_counts, tone_counts, validation_counts).

Fixpoint count_all (results : list combined)
    (acc : gmap str nat * gmap str nat * gmap str nat)
  : res (gmap str nat * gmap str nat * gmap str nat) :=
  match results with
  | [] => Ok acc
  | r :: rest => let* acc := count_one r acc in count_all rest acc
  end.

Definition _calculate_statistics {D} (results : list combined) (duration : D)
  : res (statistics D) :=
  let sentiment_counts : gmap str nat :=
    <[py "neutral" := 0%nat]> (<[py "negative" := 0%nat]> (<[py "positive" := 0%nat]> ∅)) in
  let tone_counts : gmap str nat := ∅ in
  let validation_counts : gmap str nat :=
    <[py "invalid" := 0%nat]> (<[py "valid" := 0%nat]> ∅) in
  let* acc := count_all results (sentiment_counts, tone_counts, validation_counts) in
  Ok {| total_articles := length results;
        duration := duration;
        sentiment_distribution := acc.1.1;
        tone_distribution := acc.1.2;
        validation_stats := acc.2 |}.

End Pipeline.

(* ------------------------------------------------------------------ *)
(** ** [news_fetcher.py] *)

Module NewsFetcher.

(** [s.endswith(p)] *)
Definition endswith (p s : str) : bool := startswith (rev p) (rev s).

(** [s.split(sep)[0]] for a [sep] that is not empty: the part of [s] before
    the first occurrence of [sep], or [s] when there is none. *)
Fixpoint before (sep s : str) {struct s} : str :=
  if startswith sep s then []
  else match s with
       | [] => []
       | c :: s' => c :: before sep s'
       end.

(** [s.replace('Z', '+00:00')] *)
Definition replace_Z (s : str) : str :=
  flat_map (fun c => if bool_decide (c = "Z"%char) then py "+00:00" else [c]) s.

(** [v or default] *)
Definition or_else (v default : json) : json := if truthy v then v else default.

(** The [dict] [_normalize_article] returns.  The fields copied from the
    raw article are whatever JSON value the service gave. *)
Record normalized := {
  n_id : Z;
  n_title : str;
  n_description : str;
  n_content : str;
  n_full_text : str;
  n_source : json;
  n_author : json;
  n_url : json;
  n_published_at : json;
  n_fetched_at : str
}.

(** The article as the two stages read it, and as a [dict]. *)
Definition as_article (n : normalized) : article :=
  {| art_id := Some (n_id n);
     art_title := Some (n_title n);
     art_full_text := Some (n_full_text n) |}.

Definition as_dict (n : normalized) : json :=
  JObj [(py "id", JNum (PyInt (n_id n)));
        (py "title", JStr (n_title n));
        (py "description", JStr (n_description n));
        (py "content", JStr (n_content n));
        (py "full_text", JStr (n_full_text n));
        (py "source", n_source n);
        (py "author", n_author n);
        (py "url", n_url n);
        (py "published_at", n_published_at n);
        (py "fetched_at", JStr (n_fetched_at n))].

(** The keyword arguments of [get_everything]. *)
Record request := {
  q : str;
  language : str;
  sort_by : str;
  page_size : Z
}.

(** What can be raised inside [fetch_articles]: the client library's
    [NewsAPIException], the module's own [NewsAPIError], or an exception of
    the classes of [exn]. *)
Inductive raised :=
| NewsAPIException (msg : str)
| NewsAPIError (msg : str)
| Builtin (e : exn).

Inductive outcome (A : Type) :=
| Returns (a : A)
| Raises (e : raised).
Arguments Returns {A} a.
Arguments Raises {A} e.

(** The answer of the client library. *)
Inductive answer :=
| Fails (e : raised)
| Responds (response : json).

(** [articles[:n]] for [n >= 0], as the list the loop runs over. *)
Definition slice_to (articles : json) (n : Z) : res (list json) :=
  match articles with
  | JArr l => Ok (take (Z.to_nat n) l)
  | JStr s => Ok (map (fun c => JStr [c]) (take (Z.to_nat n) s))
  | JObj _ => Raise (TypeError (py "unhashable type: 'slice'"))
  | _ => Raise (not_subscriptable articles)
  end.

(** The three [except] clauses of [fetch_articles]: the message of the
    [NewsAPIError] that replaces the exception. *)
Definition wrapped (e : raised) : str :=
  match e with
  | NewsAPIException m => py "Failed to fetch articles: " ++ m
  | Builtin e =>
      if is_request_exception e
      then py "Network error while fetching articles: " ++ exn_str e
      else py "Unexpected error: " ++ exn_str e
  | NewsAPIError m => py "Unexpected error: " ++ m
  end.

Section Client.

(** The service behind the client library; the date
    [datetime.fromisoformat] reads, as [strftime] writes it with the
    format of the source, [None] when the text is no ISO date; the clock as
    [strftime] writes it while the article at an index is normalized;
    [str] on a parsed value. *)
Variable client : request -> answer.
Variable strftime_iso : str -> option str.
Variable now : Z -> str.
Variable str_of : json -> str.

Definition _normalize_article (article : json) (index : Z) : res (option normalized) :=
  let* t := py_get article (py "title") (JStr []) in
  let* title := py_strip t in
  let* d := py_get article (py "description") JNull in
  let* description := py_strip (or_else d (JStr [])) in
  let* c := py_get article (py "content") JNull in
  let* content := py_strip (or_else c (JStr [])) in
  if bool_decide (title = [])
     || (bool_decide (description = []) && bool_decide (content = []))
  then Ok None
  else
    let full_text := strip (description ++ " "%char :: content) in
    let full_text :=
      if endswith (py "[+") full_text
      then strip (take (length full_text - 2) full_text) else full_text in
    let full_text :=
      if contains (py " chars]") full_text
      then strip (before (py " chars]") full_text) else full_text in
    if (length full_text <? 50)%nat then Ok None
    else
      let* published_at := py_get article (py "publishedAt") (JStr []) in
      let published_str :=
        match published_at with
        | JStr s =>
            match strftime_iso (replace_Z s) with
            | Some date => JStr date
            | None => published_at
            end
        | _ => published_at
        end in
      let* source := py_get article (py "source") (JObj []) in
      let* name := py_get source (py "name") JNull in
      let* author := py_get article (py "author") JNull in
      let* url := py_get article (py "url") (JStr []) in
      Ok (Some {| n_id := index + 1;
                  n_title := title;
                  n_description := description;
                  n_content := content;
                  n_full_text := full_text;
                  n_source := or_else name (JStr (py "Unknown"));
                  n_author := or_else author (JStr (py "Unknown"));
                  n_url := url;
                  n_published_at := published_str;
                  n_fetched_at := now index |}).

(** The loop over the sliced list, from position [idx] on: an article
    that is refused or that raises is passed over. *)
Fixpoint normalize_all (idx : Z) (articles : list json)
    (normalized_articles : list normalized) : list normalized :=
  match articles with
  | [] => normalized_articles
  | article :: rest =>
      match _normalize_article article idx with
      | Ok (Some n) => normalize_all (idx + 1) rest (normalized_articles ++ [n])
      | Ok None | Raise _ => normalize_all (idx + 1) rest normalized_articles
      end
  end.

(** The [try] block after the client answered. *)
Definition read_answer (response : json) (max_articles : Z) : outcome (list normalized) :=
  match py_get response (py "status") JNull with
  | Raise e => Raises (Builtin e)
  | Ok status =>
      if negb (is_str (py "ok") status)
      then Raises (NewsAPIError (py "API returned status: " ++ str_of status))
      else
        match py_get response (py "articles") (JArr []) with
        | Raise e => Raises (Builtin e)
        | Ok articles =>
            if negb (truthy articles) then Returns []
            else
              match slice_to articles max_articles with
              | Raise e => Raises (Builtin e)
              | Ok items => Returns (normalize_all 0 items [])
              end
        end
  end.

(** [fetch_articles], with the requests it sent. *)
Definition fetch_articles (query language : str) (max_articles : Z) (sort_by : str)
  : outcome (list normalized) * list request :=
  if bool_decide (query = []) || (length (strip query) =? 0)%nat then
    (Raises (Builtin (ValueError (py "Query cannot be empty"))), [])
  else if (max_articles <? 1) || (100 <? max_articles) then
    (Raises (Builtin (ValueError (py "max_articles must be between 1 and 100"))), [])
  else
    let rq := {| q := query; language := language; sort_by := sort_by;
                 page_size := Z.min max_articles 100 |} in
    let body :=
      match client rq with
      | Fails e => Raises e
      | Responds response => read_answer response max_articles
      end in
    (match body with
     | Returns articles => Returns articles
     | Raises e => Raises (NewsAPIError (wrapped e))
     end, [rq]).

End Client.

End NewsFetcher.

(* ------------------------------------------------------------------ *)
(** ** [main.py]: combining the three lists *)

Module Results.

(** The ['article'] part of a combined result. *)
Record combined_article := {
  id : json;
  title : json;
  source : json;
  author : json;
  url : json;
  published_at : json;
  content : json
}.

Record combined_result := {
  article : combined_article;
  analysis : Pipeline.combined_analysis;
  validation : Pipeline.combined_validation
}.

(** The part of a combined result that [_calculate_statistics] reads. *)
Definition for_statistics (r : combined_result) : Pipeline.combined :=
  {| Pipeline.analysis := analysis r; Pipeline.validation := validation r |}.

(** [x.get] when [x] may be [None] *)
Definition dict_of {A} (x : option A) : res A :=
  match x with
  | Some d => Ok d
  | None => Raise (AttributeError (py "'NoneType' object has no attribute 'get'"))
  end.

(** The [dict] built in one turn of the loop of [_combine_results]. *)
Definition combine_one (article : json) (analysis : option LLMAnalyzer.analysis)
    (validation : option LLMValidator.validation) : res combined_result :=
  let* id := getitem article (py "id") in
  let* title := getitem article (py "title") in
  let* source := getitem article (py "source") in
  let* author := getitem article (py "author") in
  let* url := getitem article (py "url") in
  let* published_at := getitem article (py "published_at") in
  let* content := getitem article (py "full_text") in
  let* analysis := dict_of analysis in
  let* validation := dict_of validation in
  Ok {| article :=
          {| id := id; title := title; source := source; author := author;
             url := url; published_at := published_at; content := content |};
        analysis :=
          {| Pipeline.gist := get (LLMAnalyzer.gist analysis) (py "N/A");
             Pipeline.sentiment := get (LLMAnalyzer.sentiment analysis) (py "neutral");
             Pipeline.tone := get (LLMAnalyzer.tone analysis) (py "informative");
             Pipeline.model := get (LLMAnalyzer.model_used analysis) (py "unknown") |};
        validation :=
          {| Pipeline.is_valid := LLMValidator.is_valid validation;
             Pipeline.result := LLMValidator.validation_result validation;
             Pipeline.reasoning := LLMValidator.reasoning validation;
             Pipeline.corrections := LLMValidator.corrections validation;
             Pipeline.validator_model :=
               get (LLMValidator.validator_model validation) (py "unknown") |} |}.

(** The loop over [zip(articles, analyses, validations)]. *)
Fixpoint combine_loop
    (todo : list (json * option LLMAnalyzer.analysis * option LLMValidator.validation))
    (combined : list combined_result) : res (list combined_result) :=
  match todo with
  | [] => Ok combined
  | (article, analysis, validation) :: rest =>
      let* r := combine_one article analysis validation in
      combine_loop rest (combined ++ [r])
  end.

Definition _combine_results (articles : list json)
    (analyses : list (option LLMAnalyzer.analysis))
    (validations : list (option LLMValidator.validation)) : res (list combined_result) :=
  combine_loop (zip (zip articles analyses) validations) [].

End Results.

(* ------------------------------------------------------------------ *)
(** ** Vocabulary for the statements about the retry loops and batches *)

Module Retry.

(** The log of [n] failed attempts, each followed by its pause, and of one
    more attempt. *)
Definition schedule (request : event) (pause : nat -> Z) (n : nat) : list event :=
  flat_map (fun i => [request; Sleep (pause i)]) (seq 0 n) ++ [request].

(** How an attempt of [analyze_article] fails, read off the model's answer:
    the exception that reaches the [except] clause and the pause taken when
    a retry remains.  [None] when the attempt does not fail. *)
Definition analysis_failure (article_id : pyid) (attempt : Z) (g : generated)
  : option (exn * Z) :=
  match g with
  | GenRaises e => Some (e, 2 ^ attempt)
  | GenText t =>
      if bool_decide (t = []) then
        Some (LLMAnalyzerError (py "Response was empty or blocked"), 1)
      else
        match LLMAnalyzer._parse_response t article_id with
        | Raise e => Some (e, 2 ^ attempt)
        | Ok _ => None
        end
  end.

(** The record a successful attempt of [analyze_article] returns. *)
Definition analysis_success (model_name : str) (article_id : pyid) (title : str)
    (g : generated) : option LLMAnalyzer.analysis :=
  match g with
  | GenRaises _ => None
  | GenText t =>
      if bool_decide (t = []) then None
      else
        match LLMAnalyzer._parse_response t article_id with
        | Raise _ => None
        | Ok a =>
            Some {| LLMAnalyzer.article_id := Some article_id;
                    LLMAnalyzer.title := Some title;
                    LLMAnalyzer.gist := Some (LLMAnalyzer.p_gist a);
                    LLMAnalyzer.sentiment := Some (LLMAnalyzer.p_sentiment a);
                    LLMAnalyzer.tone := Some (LLMAnalyzer.p_tone a);
                    LLMAnalyzer.model_used := Some model_name;
                    LLMAnalyzer.raw_response := Some t;
                    LLMAnalyzer.error := None |}
        end
  end.

(** The same for an attempt of [validate_analysis]. *)
Definition validation_failure (model : str) (article_id : pyid) (title : str)
    (attempt : Z) (r : posted) : option (exn * Z) :=
  match r with
  | PostRaises e => Some (e, 2)
  | PostResponse r =>
      if status_code r =? 429 then
        Some (LLMValidatorError (py "Rate limit exceeded"), 2 ^ attempt)
      else if negb (status_code r =? 200) then
        Some (LLMValidatorError (py "API error: " ++ str_of_Z (status_code r)
                                 ++ py " - " ++ text r), 1)
      else
        match LLMValidator.read_response model r article_id title with
        | Raise e => Some (e, 2)
        | Ok _ => None
        end
  end.

Definition validation_success (model : str) (article_id : pyid) (title : str)
    (r : posted) : option LLMValidator.validation :=
  match r with
  | PostRaises _ => None
  | PostResponse r =>
      if status_code r =? 429 then None
      else if negb (status_code r =? 200) then None
      else
        match LLMValidator.read_response model r article_id title with
        | Raise _ => None
        | Ok v => Some v
        end
  end.


(** What a batch returns, entry by entry.  The call for an article is made
    in the world the earlier articles left behind; its entry is the record
    the call returned, or the failure record built from the exception it
    raised.  [n] is [len(articles)], [idx] the position of the next one. *)
Section Batches.

Variable model : nat -> analysis_prompt -> generated.
Variable model_name : str.
Variable endpoint : nat -> validation_prompt -> posted.
Variable validator_model : str.
Variable delay n : Z.

Definition rested (idx : Z) (w : world) : world :=
  if idx <? n - 1 then record (Sleep delay) w else w.

Inductive analysis_entries
  : world -> Z -> list article -> list (option LLMAnalyzer.analysis) -> Prop :=
| analysis_entries_nil w idx : analysis_entries w idx [] []
| analysis_entries_answer w idx a rest r w1 out :
    LLMAnalyzer.analyze_article model model_name a 3 w = (Ok (Some r), w1) ->
    analysis_entries (rested idx w1) (idx + 1) rest out ->
    analysis_entries w idx (a :: rest) (Some r :: out)
| analysis_entries_failed w idx a rest e w1 out :
    LLMAnalyzer.analyze_article model model_name a 3 w = (Raise e, w1) ->
    analysis_entries w1 (idx + 1) rest out ->
    analysis_entries w idx (a :: rest) (Some (LLMAnalyzer.failed a e) :: out).

Inductive validation_entries
  : world -> Z -> list (article * LLMAnalyzer.analysis)
    -> list (option LLMValidator.validation) -> Prop :=
| validation_entries_nil w idx : validation_entries w idx [] []
| validation_entries_answer w idx a an rest r w1 out :
    LLMValidator.validate_analysis endpoint validator_model a an 3 w = (Ok (Some r), w1) ->
    validation_entries (rested idx w1) (idx + 1) rest out ->
    validation_entries w idx ((a, an) :: rest) (Some r :: out)
| validation_entries_failed w idx a an rest e w1 out :
    LLMValidator.validate_analysis endpoint validator_model a an 3 w = (Raise e, w1) ->
    validation_entries w1 (idx + 1) rest out ->
    validation_entries w idx ((a, an) :: rest) (Some (LLMValidator.failed a e) :: out).

End Batches.

End Retry.

(* ------------------------------------------------------------------ *)
(** ** Vocabulary for the statement about the statistics *)

Module Counting.

Import Pipeline.

(** How many results satisfy [f]. *)
Definition tally (f : combined -> bool) (results : list combined) : nat :=
  length (List.filter f results).

Definition has_sentiment (s : str) (r : combined) : bool :=
  bool_decide (sentiment (analysis r) = s).

Definition has_tone (t : str) (r : combined) : bool :=
  bool_decide (tone (analysis r) = t).

Definition judged_valid (r : combined) : bool := truthy (is_valid (validation r)).

Definition judged_invalid (r : combined) : bool := negb (truthy (is_valid (validation r))).

End Counting.

(* ------------------------------------------------------------------ *)
(** ** Vocabulary for the shape of JSON texts *)

Module Grammar.

(** No fence can start a line of [s]: no backtick stands at the head of a
    line, where [at_line_start] tells whether [s] itself begins a line. *)
Fixpoint tame_from (at_line_start : bool) (s : str) : bool :=
  match s with
  | [] => true
  | c :: s' =>
      negb (at_line_start && bool_decide (c = tick)) && tame_from (bool_decide (c = nl)) s'
  end.

Definition tame (s : str) : Prop := tame_from true s = true.

(** A text with a first and a last character, neither of them a space. *)
Definition firm (p : str) : Prop :=
  (exists c, head p = Some c /\ is_space c = false)
  /\ (exists c, last p = Some c /\ is_space c = false).

(** A character that ends a value inside an array or an object. *)
Definition delim (c : ascii) : bool :=
  is_json_ws c || bool_decide (c = ","%char) || bool_decide (c = "]"%char)
  || bool_decide (c = "}"%char).

Definition boundary (t : str) : Prop :=
  match t with
  | [] => True
  | c :: _ => delim c = true
  end.

(** A continuation that cannot prolong a number. *)
Definition stop (t : str) : Prop :=
  match t with [] => True | c :: _ => is_digit c = false end
  /\ lex_frac t = None /\ lex_exp t = None.

(** The characters a number is written with. *)
Definition numchar (c : ascii) : bool :=
  is_digit c || bool_decide (c = "-"%char) || bool_decide (c = "+"%char)
  || bool_decide (c = "."%char) || bool_decide (c = "e"%char) || bool_decide (c = "E"%char).

(** What a successful run of a parser with fuel [n] tells: the text it
    consumed, [p], is tame (and, for a value, firm), and the parser consumes
    it alike before another continuation and with any fuel from twice its
    length on. *)
Definition value_ok (n : nat) : Prop :=
  forall s v r,
    parse_value n s = Some (v, r) ->
    exists p,
      s = p ++ r /\ tame p /\ firm p
      /\ forall m t, (2 * length p <= m)%nat -> t = r \/ boundary t ->
           parse_value m (p ++ t) = Some (v, t).

Definition elems_ok (n : nat) : Prop :=
  forall s acc vs r,
    parse_elems n s acc = Some (vs, r) ->
    exists p,
      s = p ++ r /\ tame p /\ last p = Some "]"%char
      /\ forall m t, (2 * length p + 1 <= m)%nat ->
           parse_elems m (p ++ t) acc = Some (vs, t).

Definition members_ok (n : nat) : Prop :=
  forall s acc ps r,
    parse_members n s acc = Some (ps, r) ->
    exists p,
      s = p ++ r /\ tame (quote :: p) /\ last p = Some "}"%char
      /\ forall m t, (2 * length p + 1 <= m)%nat ->
           parse_members m (p ++ t) acc = Some (ps, t).

(** The document [d] between an opening fence line, with its language
    tag, and a closing fence line. *)
Definition fenced (lang d : str) : str := fence ++ lang ++ nl :: d ++ nl :: fence.

(** A continuation that starts with no digit. *)
Definition undigit (t : str) : Prop :=
  match t with [] => True | c :: _ => is_digit c = false end.

End Grammar.

(* ------------------------------------------------------------------ *)
(** ** Vocabulary for the statements about parsing *)

Module Parsing.





(** Lower-cased and trimmed, then replaced by [fallback] when outside
    [vocabulary]. *)
Definition normalized (vocabulary : list str) (fallback : str) (s : str) : str :=
  if bool_decide (strip (lower s) ∈ vocabulary) then strip (lower s) else fallback.

End Parsing.

(* ------------------------------------------------------------------ *)
(** ** Sample data *)

Module Samples.

Definition quoted (s : str) : str := quote :: s ++ [quote].

(** The text of a JSON object with string values. *)
Fixpoint members (fields : list (str * str)) : str :=
  match fields with
  | [] => []
  | [(k, v)] => quoted k ++ py ": " ++ quoted v
  | (k, v) :: rest => quoted k ++ py ": " ++ quoted v ++ py ", " ++ members rest
  end.

Definition object (fields : list (str * str)) : str :=
  py "{" ++ members fields ++ py "}".

Definition gemini : str := py "gemini-2.5-flash".
Definition mistral : str := py "mistralai/mistral-7b-instruct".

Definition news : article :=
  {| art_id := Some 1;
     art_title := Some (py "Budget session opens");
     art_full_text :=
       Some (py "Parliament opened its budget session on Monday with a long debate.") |}.

Definition stub : article :=
  {| art_id := Some 2;
     art_title := Some (py "Test");
     art_full_text := Some (py "Too short") |}.

Definition news_prompt : analysis_prompt :=
  {| ap_title := py "Budget session opens";
     ap_text := py "Parliament opened its budget session on Monday with a long debate." |}.

Definition reply : str :=
  object [(py "gist", py "Parliament opened its budget session.");
          (py "sentiment", py "Positive ");
          (py "tone", py "formal")].

Definition verdict : LLMAnalyzer.analysis :=
  {| LLMAnalyzer.article_id := Some (IdInt 1);
     LLMAnalyzer.title := Some (py "Budget session opens");
     LLMAnalyzer.gist := Some (py "Parliament opened its budget session.");
     LLMAnalyzer.sentiment := Some (py "positive");
     LLMAnalyzer.tone := Some (py "informative");
     LLMAnalyzer.model_used := Some gemini;
     LLMAnalyzer.raw_response := Some reply;
     LLMAnalyzer.error := None |}.

Definition verdict_prompt : validation_prompt :=
  {| vp_title := py "Budget session opens";
     vp_content := py "Parliament opened its budget session on Monday with a long debate.";
     vp_gist := py "Parliament opened its budget session.";
     vp_sentiment := py "positive";
     vp_tone := py "informative" |}.

(** Model #1 out of service, answering with nothing, and answering on the
    third request only. *)
Definition unavailable (i : nat) (p : analysis_prompt) : generated :=
  GenRaises (OtherError (py "503 unavailable")).

Definition blocked (i : nat) (p : analysis_prompt) : generated := GenText [].

Definition third_time (i : nat) (p : analysis_prompt) : generated :=
  if (i <? 2)%nat then GenRaises (OtherError (py "503 unavailable")) else GenText reply.

(** Model #2 timing out, and answering a plain sentence after one 429. *)
Definition timing_out (i : nat) (p : validation_prompt) : posted :=
  PostRaises (Timeout (py "read timed out")).

Definition chat (content : json) : json :=
  JObj [(py "choices", JArr [JObj [(py "message", JObj [(py "content", content)])]])].

Definition throttled_once (i : nat) (p : validation_prompt) : posted :=
  if (i <? 1)%nat
  then PostResponse {| status_code := 429; text := []; json_body := Ok JNull |}
  else PostResponse {| status_code := 200; text := [];
                       json_body := Ok (chat (JStr (py "The gist is accurate."))) |}.



End Samples.

(* ------------------------------------------------------------------ *)
(** ** Vocabulary for the statements about outcomes *)

Module Shape.

(** An analysis record whose three judgements are present, with the
    sentiment and the tone inside their vocabularies. *)
Definition in_vocabulary (r : LLMAnalyzer.analysis) : Prop :=
  exists g s t,
    LLMAnalyzer.gist r = Some g /\ LLMAnalyzer.sentiment r = Some s
    /\ LLMAnalyzer.tone r = Some t
    /\ s ∈ LLMAnalyzer.valid_sentiments /\ t ∈ LLMAnalyzer.valid_tones.

(** The two guards of [analyze_article], read on the article. *)
Definition too_short (a : article) : Prop :=
  art_full_text a = None
  \/ exists t, art_full_text a = Some t /\ (length (strip t) < 30)%nat.

(** The guards of [validate_analysis], read on the article and the analysis. *)
Definition incomplete (a : article) (an : LLMAnalyzer.analysis) : Prop :=
  art_full_text a = None \/ LLMAnalyzer.gist an = None \/ LLMAnalyzer.sentiment an = None.

(** A validation record as a batch holds it: the record of a call that
    answered, or the record written for a call that raised, which is
    marked valid. *)
Definition settled (model : str) (v : LLMValidator.validation) : Prop :=
  (LLMValidator.error v = None /\ LLMValidator.validator_model v = Some model)
  \/ ((exists e, LLMValidator.error v = Some e
                 /\ LLMValidator.reasoning v = JStr (py "Error: " ++ e))
      /\ LLMValidator.is_valid v = JBool true
      /\ LLMValidator.validation_result v = JStr LLMValidator.failed_label
      /\ LLMValidator.corrections v = JObj []
      /\ LLMValidator.validator_model v = None).

(** The document [d] after an opening fence line that nothing closes. *)
Definition opened (lang d : str) : str := fence ++ lang ++ nl :: d.


End Shape.

Module Summing.

(** The sum of the counts of a distribution. *)
Definition total (m : gmap str nat) : nat :=
  map_fold (fun _ n acc => (n + acc)%nat) 0%nat m.

End Summing.

(* ------------------------------------------------------------------ *)
(** ** Sample data for the fetcher *)

Module Feed.

Import NewsFetcher.

Definition story : json :=
  JObj [(py "title", JStr (py " Budget session opens "));
        (py "description",
         JStr (py "Parliament opened its budget session on Monday with a long debate."));
        (py "content",
         JStr (py "Members discussed the finance bill for hours. [+1234 chars]"));
        (py "source", JObj [(py "name", JStr (py "The Daily"))]);
        (py "author", JNull);
        (py "url", JStr (py "https://example.com/budget"));
        (py "publishedAt", JStr (py "2026-01-17T10:00:00Z"))].

Definition brief : json :=
  JObj [(py "title", JStr (py "Short"));
        (py "description", JStr (py "Too short"));
        (py "content", JStr (py "Short"));
        (py "source", JObj [(py "name", JStr (py "Test"))]);
        (py "url", JStr (py "https://example.com"))].

(** A service that answers every request with the same three articles,
    and one that reports an error. *)
Definition service (rq : request) : answer :=
  Responds (JObj [(py "status", JStr (py "ok"));
                  (py "totalResults", JNum (PyInt 3));
                  (py "articles", JArr [story; brief; story])]).

Definition refusing (rq : request) : answer :=
  Responds (JObj [(py "status", JStr (py "error"));
                  (py "code", JStr (py "apiKeyInvalid"))]).

Definition no_date (s : str) : option str := None.

Definition clock (index : Z) : str := py "2026-01-17 10:00:00".

Definition plain (v : json) : str :=
  match v with JStr s => s | _ => py "None" end.

(** An article as the fetcher returns it. *)
Definition fetched : normalized :=
  {| n_id := 1;
     n_title := py "Budget session opens";
     n_description := py "Parliament opened its budget session on Monday.";
     n_content := py "Members discussed the finance bill for hours.";
     n_full_text :=
       py "Parliament opened its budget session on Monday with a long debate.";
     n_source := JStr (py "The Daily");
     n_author := JStr (py "Unknown");
     n_url := JStr (py "https://example.com/budget");
     n_published_at := JStr (py "2026-01-17 10:00:00 UTC");
     n_fetched_at := py "2026-01-17 12:00:00" |}.

Definition india : request :=
  {| q := py "India politics"; language := py "en"; sort_by := py "publishedAt";
     page_size := 12 |}.

End Feed.

(* ================================================================== *)
(** * Properties *)

(** ** The world *)

Section WorldFacts.

Lemma time_sleep_ok d w : 0 <= d -> time_sleep d w = (Ok tt, record (Sleep d) w).
Proof.
  intros Hd. unfold time_sleep. destruct (Z.ltb_spec d 0); [lia | done].
Qed.

Lemma pow2_nonneg a : 0 <= 2 ^ a.
Proof. apply Z.pow_nonneg. lia. Qed.

Lemma schedule_S request pause n :
  Retry.schedule request pause (S n)
  = request :: Sleep (pause O) :: Retry.schedule request (fun i => pause (S i)) n.
Proof.
  unfold Retry.schedule. cbn [seq flat_map app]. do 2 f_equal. f_equal.
  rewrite <- seq_shift, flat_map_concat_map, map_map, <- flat_map_concat_map.
  done.
Qed.

End WorldFacts.

(** ** The analysis stage: retry loop and batch *)

Section AnalyzerFacts.

Import LLMAnalyzer.

Variable model : nat -> analysis_prompt -> generated.
Variable model_name : str.

Abbreviation attempts := (attempts model model_name).
Abbreviation analyze_article := (analyze_article model model_name).
Abbreviation batch_loop := (batch_loop model model_name).

(** One turn of the loop, in terms of how the attempt ends. *)
Lemma attempts_step aid ttl p rc todo attempt w :
  0 <= attempt ->
  attempts aid ttl p rc (S todo) attempt w =
    let w1 := record (Generate p) w in
    match Retry.analysis_success model_name aid ttl (model (calls w) p),
          Retry.analysis_failure aid attempt (model (calls w) p) with
    | Some r, _ => (Ok (Some r), w1)
    | None, Some (e, d) =>
        if attempt <? rc - 1
        then attempts aid ttl p rc todo (attempt + 1) (record (Sleep d) w1)
        else (Raise (failed_after aid rc e), w1)
    | None, None => (Ok None, w1)
    end.
Proof.
  intros Ha. cbn [LLMAnalyzer.attempts].
  unfold generate_content, on_exception, Retry.analysis_success, Retry.analysis_failure.
  destruct (model (calls w) p) as [e|t]; cbn zeta.
  - destruct (attempt <? rc - 1); [|done].
    by rewrite time_sleep_ok by apply pow2_nonneg.
  - destruct (bool_decide (t = [])).
    + destruct (attempt <? rc - 1); [|done].
      by rewrite time_sleep_ok by lia.
    + destruct (_parse_response t aid); [done|].
      destruct (attempt <? rc - 1); [|done].
      by rewrite time_sleep_ok by apply pow2_nonneg.
Qed.

Lemma analysis_success_or_failure aid ttl attempt g :
  is_Some (Retry.analysis_success model_name aid ttl g)
  <-> Retry.analysis_failure aid attempt g = None.
Proof.
  unfold Retry.analysis_success, Retry.analysis_failure.
  repeat case_match; split; intros Hx; try done; try (by destruct Hx); by eexists.
Qed.

Lemma analysis_success_fields aid ttl g r :
  Retry.analysis_success model_name aid ttl g = Some r ->
  article_id r = Some aid /\ title r = Some ttl /\ error r = None.
Proof.
  unfold Retry.analysis_success. repeat case_match; intros; by simplify_eq.
Qed.

(** With the loop still inside its range and a turn to go, the function
    does not fall off its end; it answers for the right article, or it
    raises the final error; and it has sent a request. *)
Lemma attempts_outcome aid ttl p rc todo :
  forall attempt w,
    0 <= attempt -> attempt + Z.of_nat (S todo) = rc ->
    let '(out, w') := attempts aid ttl p rc (S todo) attempt w in
    (calls w < calls w')%nat /\
    match out with
    | Ok None => False
    | Ok (Some r) => article_id r = Some aid /\ title r = Some ttl
    | Raise e => exists cause, e = failed_after aid rc cause
    end.
Proof.
  induction todo as [|t IH]; intros attempt w Ha Hrc;
    rewrite attempts_step by done; cbn zeta;
    destruct (Retry.analysis_success _ _ _ _) as [r|] eqn:Hs.
  - cbn. split; [lia|]. apply analysis_success_fields in Hs. tauto.
  - destruct (Retry.analysis_failure _ _ _) as [[e d]|] eqn:Hf.
    + destruct (Z.ltb_spec attempt (rc - 1)); [lia|]. cbn. split; [lia|]. by eexists.
    + apply (analysis_success_or_failure aid ttl) in Hf as [? ?]. congruence.
  - cbn. split; [lia|]. apply analysis_success_fields in Hs. tauto.
  - destruct (Retry.analysis_failure _ _ _) as [[e d]|] eqn:Hf.
    + destruct (Z.ltb_spec attempt (rc - 1)); [|lia].
      specialize (IH (attempt + 1) (record (Sleep d) (record (Generate p) w))
                    ltac:(lia) ltac:(lia)).
      destruct (attempts _ _ _ _ _ _ _) as [out w']. cbn in IH.
      destruct IH as [Hc Hout]. split; [lia | done].
    + apply (analysis_success_or_failure aid ttl) in Hf as [? ?]. congruence.
Qed.

Lemma attempts_exhausted aid ttl p rc todo :
  forall attempt w cause pause,
    0 <= attempt -> attempt + Z.of_nat (S todo) = rc ->
    (forall i, (i <= todo)%nat ->
       Retry.analysis_failure aid (attempt + Z.of_nat i) (model (calls w + i)%nat p)
       = Some (cause i, pause i)) ->
    attempts aid ttl p rc (S todo) attempt w =
      (Raise (failed_after aid rc (cause todo)),
       {| calls := calls w + S todo;
          log := log w ++ Retry.schedule (Generate p) pause todo |}).
Proof.
  induction todo as [|t IH]; intros attempt w cause pause Ha Hrc Hfail;
    rewrite attempts_step by done; cbn zeta;
    pose proof (Hfail O ltac:(lia)) as H0;
    rewrite Z.add_0_r, Nat.add_0_r in H0; rewrite H0;
    (destruct (Retry.analysis_success _ _ _ _) eqn:Hs;
     [ assert (Hn : Retry.analysis_failure aid attempt (model (calls w) p) = None)
         by (apply (analysis_success_or_failure aid ttl); eauto); congruence |]).
  - destruct (Z.ltb_spec attempt (rc - 1)); [lia|].
    unfold record, Retry.schedule. cbn. do 2 f_equal. lia.
  - destruct (Z.ltb_spec attempt (rc - 1)); [|lia].
    rewrite (IH _ _ (fun i => cause (S i)) (fun i => pause (S i))); [| lia | lia |].
    + rewrite schedule_S. cbn. do 2 f_equal; [lia|].
      rewrite <- !app_assoc. done.
    + intros i Hi. cbn [calls record].
      replace (attempt + 1 + Z.of_nat i) with (attempt + Z.of_nat (S i)) by lia.
      replace (S (calls w) + i)%nat with (calls w + S i)%nat by lia.
      apply Hfail. lia.
Qed.

Lemma attempts_succeeds aid ttl p rc k :
  forall todo attempt w cause pause r,
    0 <= attempt -> attempt + Z.of_nat (S todo) = rc -> (k <= todo)%nat ->
    (forall i, (i < k)%nat ->
       Retry.analysis_failure aid (attempt + Z.of_nat i) (model (calls w + i)%nat p)
       = Some (cause i, pause i)) ->
    Retry.analysis_success model_name aid ttl (model (calls w + k)%nat p) = Some r ->
    attempts aid ttl p rc (S todo) attempt w =
      (Ok (Some r),
       {| calls := calls w + S k;
          log := log w ++ Retry.schedule (Generate p) pause k |}).
Proof.
  induction k as [|k IH]; intros todo attempt w cause pause r Ha Hrc Hk Hfail Hok.
  - rewrite attempts_step by done. cbn zeta.
    rewrite Nat.add_0_r in Hok. rewrite Hok.
    unfold record, Retry.schedule. cbn. do 2 f_equal. lia.
  - destruct todo as [|todo]; [lia|].
    rewrite attempts_step by done. cbn zeta.
    pose proof (Hfail O ltac:(lia)) as H0.
    rewrite Z.add_0_r, Nat.add_0_r in H0. rewrite H0.
    destruct (Retry.analysis_success _ _ _ (model (calls w) p)) eqn:Hs.
    { assert (Hn : Retry.analysis_failure aid attempt (model (calls w) p) = None)
        by (apply (analysis_success_or_failure aid ttl); eauto). congruence. }
    destruct (Z.ltb_spec attempt (rc - 1)); [|lia].
    rewrite (IH _ _ _ (fun i => cause (S i)) (fun i => pause (S i)) r);
      [| lia | lia | lia | |].
    + rewrite schedule_S. cbn. do 2 f_equal; [lia|].
      rewrite <- !app_assoc. done.
    + intros i Hi. cbn [calls record].
      replace (attempt + 1 + Z.of_nat i) with (attempt + Z.of_nat (S i)) by lia.
      replace (S (calls w) + i)%nat with (calls w + S i)%nat by lia.
      apply Hfail. lia.
    + cbn [calls record].
      replace (S (calls w) + k)%nat with (calls w + S k)%nat by lia. done.
Qed.

(** The two guards of [analyze_article]. *)
Lemma analyze_article_guarded a rc w :
  (art_full_text a = None
   \/ exists t, art_full_text a = Some t /\ (length (strip t) < 30)%nat) ->
  exists msg, analyze_article a rc w = (Raise (ValueError msg), w).
Proof.
  unfold LLMAnalyzer.analyze_article. intros [Hn | (t & Ht & Hlen)].
  - rewrite Hn. rewrite orb_true_r. by eexists.
  - apply Nat.ltb_lt in Hlen.
    rewrite Ht. unfold article_empty. rewrite Ht.
    destruct (art_id a), (art_title a); cbn -[Nat.ltb strip]; rewrite Hlen; by eexists.
Qed.

Lemma analyze_article_admitted a rc w t :
  art_full_text a = Some t -> (30 <= length (strip t))%nat ->
  analyze_article a rc w =
    attempts (id_or a (IdStr (py "unknown"))) (get (art_title a) (py "No title"))
      (_build_analysis_prompt (get (art_title a) (py "No title")) t)
      rc (Z.to_nat rc) 0 w.
Proof.
  intros Ht Hlen. apply Nat.ltb_ge in Hlen.
  unfold LLMAnalyzer.analyze_article, article_empty. rewrite Ht.
  destruct (art_id a), (art_title a); cbn -[Nat.ltb strip]; by rewrite Hlen.
Qed.

(** With the default budget a call answers with a record or raises. *)
Lemma analyze_article_default a w :
  let '(out, w') := analyze_article a 3 w in
  match out with
  | Ok None => False
  | Ok (Some r) => article_id r = Some (id_or a (IdStr (py "unknown")))
  | Raise _ => True
  end.
Proof.
  destruct (art_full_text a) as [t|] eqn:Ht.
  - destruct (Nat.ltb_spec (length (strip t)) 30) as [Hlt|Hge].
    + destruct (analyze_article_guarded a 3 w) as [msg ->]; [eauto | done].
    + rewrite (analyze_article_admitted a 3 w t) by done.
      change (Z.to_nat 3) with 3%nat.
      pose proof (attempts_outcome (id_or a (IdStr (py "unknown")))
        (get (art_title a) (py "No title"))
        (_build_analysis_prompt (get (art_title a) (py "No title")) t) 3 2 0 w
        ltac:(lia) ltac:(lia)) as H.
      destruct (attempts _ _ _ _ _ _ _) as [[[r|]|e] w']; tauto.
  - destruct (analyze_article_guarded a 3 w) as [msg ->]; [eauto | done].
Qed.

Lemma batch_loop_entries delay n todo :
  0 <= delay ->
  forall idx results w,
    exists out,
      (batch_loop delay n idx todo results w).1 = results ++ out
      /\ Retry.analysis_entries model model_name delay n w idx todo out.
Proof.
  intros Hd. induction todo as [|a rest IH]; intros idx results w.
  - exists []. cbn. rewrite app_nil_r. split; [done | constructor].
  - cbn [LLMAnalyzer.batch_loop].
    pose proof (analyze_article_default a w) as Hdef.
    destruct (analyze_article a 3 w) as [[[r|]|e] w1] eqn:Hcall; [| done |].
    + rewrite time_sleep_ok by done.
      destruct (IH (idx + 1) (results ++ [Some r]) (Retry.rested delay n idx w1))
        as (out & Hout & Hent).
      exists (Some r :: out). split.
      * unfold Retry.rested in Hout.
        destruct (idx <? n - 1); rewrite Hout, <- app_assoc; done.
      * by eapply Retry.analysis_entries_answer.
    + destruct (IH (idx + 1) (results ++ [Some (failed a e)]) w1) as (out & Hout & Hent).
      exists (Some (failed a e) :: out). split.
      * rewrite Hout, <- app_assoc. done.
      * by eapply Retry.analysis_entries_failed.
Qed.

Lemma analysis_entries_aligned delay n w idx todo out :
  Retry.analysis_entries model model_name delay n w idx todo out ->
  length out = length todo
  /\ forall k a, todo !! k = Some a ->
       exists r, out !! k = Some (Some r)
                 /\ article_id r = Some (id_or a (IdStr (py "unknown"))).
Proof.
  induction 1 as [| w idx a rest r w1 out Hcall _ [IHl IHk]
                  | w idx a rest e w1 out Hcall _ [IHl IHk]].
  - split; [done|]. intros k a Hk. by rewrite lookup_nil in Hk.
  - split; [cbn; lia|]. intros [|k] b Hk; cbn in *.
    + simplify_eq. exists r. split; [done|].
      pose proof (analyze_article_default b w) as Hdef. by rewrite Hcall in Hdef.
    + by apply IHk.
  - split; [cbn; lia|]. intros [|k] b Hk; cbn in *.
    + simplify_eq. by eexists.
    + by apply IHk.
Qed.

End AnalyzerFacts.

(** ** The validation stage: retry loop and batch *)

Section ValidatorFacts.

Import LLMValidator.

Variable endpoint : nat -> validation_prompt -> posted.
Variable model : str.

Abbreviation vattempts := (attempts endpoint model).
Abbreviation validate_analysis := (validate_analysis endpoint model).
Abbreviation vbatch_loop := (batch_loop endpoint model).

Lemma vattempts_step aid ttl p rc todo attempt w :
  0 <= attempt ->
  vattempts aid ttl p rc (S todo) attempt w =
    let w1 := record (Post p) w in
    match Retry.validation_success model aid ttl (endpoint (calls w) p),
          Retry.validation_failure model aid ttl attempt (endpoint (calls w) p) with
    | Some v, _ => (Ok (Some v), w1)
    | None, Some (e, d) =>
        if attempt <? rc - 1
        then vattempts aid ttl p rc todo (attempt + 1) (record (Sleep d) w1)
        else (Raise (final_error rc e), w1)
    | None, None => (Ok None, w1)
    end.
Proof.
  intros Ha. cbn [LLMValidator.attempts].
  unfold post, on_exception, Retry.validation_success, Retry.validation_failure.
  destruct (endpoint (calls w) p) as [e|r]; cbn zeta.
  - destruct (attempt <? rc - 1); [|done]. by rewrite time_sleep_ok by lia.
  - destruct (status_code r =? 429).
    { destruct (attempt <? rc - 1); [|done].
      by rewrite time_sleep_ok by apply pow2_nonneg. }
    destruct (negb (status_code r =? 200)).
    { destruct (attempt <? rc - 1); [|done]. by rewrite time_sleep_ok by lia. }
    destruct (read_response model r aid ttl); [done|].
    destruct (attempt <? rc - 1); [|done]. by rewrite time_sleep_ok by lia.
Qed.

Lemma validation_success_or_failure aid ttl attempt r :
  is_Some (Retry.validation_success model aid ttl r)
  <-> Retry.validation_failure model aid ttl attempt r = None.
Proof.
  unfold Retry.validation_success, Retry.validation_failure.
  repeat case_match; split; intros Hx; try done; try (by destruct Hx); by eexists.
Qed.

Lemma read_response_fields r aid ttl v :
  read_response model r aid ttl = Ok v ->
  article_id v = aid /\ title v = ttl /\ error v = None.
Proof.
  unfold read_response, bind. repeat case_match; intros; by simplify_eq.
Qed.

Lemma validation_success_fields aid ttl r v :
  Retry.validation_success model aid ttl r = Some v ->
  article_id v = aid /\ title v = ttl /\ error v = None.
Proof.
  unfold Retry.validation_success. repeat case_match; intros; simplify_eq.
  by eapply read_response_fields.
Qed.

Lemma vattempts_outcome aid ttl p rc todo :
  forall attempt w,
    0 <= attempt -> attempt + Z.of_nat (S todo) = rc ->
    let '(out, w') := vattempts aid ttl p rc (S todo) attempt w in
    (calls w < calls w')%nat /\
    match out with
    | Ok None => False
    | Ok (Some v) => article_id v = aid /\ title v = ttl
    | Raise e => exists cause, e = final_error rc cause
    end.
Proof.
  induction todo as [|t IH]; intros attempt w Ha Hrc;
    rewrite vattempts_step by done; cbn zeta;
    destruct (Retry.validation_success _ _ _ _) as [v|] eqn:Hs.
  - cbn. split; [lia|]. apply validation_success_fields in Hs. tauto.
  - destruct (Retry.validation_failure _ _ _ _ _) as [[e d]|] eqn:Hf.
    + destruct (Z.ltb_spec attempt (rc - 1)); [lia|]. cbn. split; [lia|]. by eexists.
    + apply validation_success_or_failure in Hf as [? ?]. congruence.
  - cbn. split; [lia|]. apply validation_success_fields in Hs. tauto.
  - destruct (Retry.validation_failure _ _ _ _ _) as [[e d]|] eqn:Hf.
    + destruct (Z.ltb_spec attempt (rc - 1)); [|lia].
      specialize (IH (attempt + 1) (record (Sleep d) (record (Post p) w))
                    ltac:(lia) ltac:(lia)).
      destruct (vattempts _ _ _ _ _ _ _) as [out w']. cbn in IH.
      destruct IH as [Hc Hout]. split; [lia | done].
    + apply validation_success_or_failure in Hf as [? ?]. congruence.
Qed.

Lemma vattempts_exhausted aid ttl p rc todo :
  forall attempt w cause pause,
    0 <= attempt -> attempt + Z.of_nat (S todo) = rc ->
    (forall i, (i <= todo)%nat ->
       Retry.validation_failure model aid ttl (attempt + Z.of_nat i)
         (endpoint (calls w + i)%nat p) = Some (cause i, pause i)) ->
    vattempts aid ttl p rc (S todo) attempt w =
      (Raise (final_error rc (cause todo)),
       {| calls := calls w + S todo;
          log := log w ++ Retry.schedule (Post p) pause todo |}).
Proof.
  induction todo as [|t IH]; intros attempt w cause pause Ha Hrc Hfail;
    rewrite vattempts_step by done; cbn zeta;
    pose proof (Hfail O ltac:(lia)) as H0;
    rewrite Z.add_0_r, Nat.add_0_r in H0; rewrite H0;
    (destruct (Retry.validation_success _ _ _ _) eqn:Hs;
     [ assert (Hn : Retry.validation_failure model aid ttl attempt
                      (endpoint (calls w) p) = None)
         by (apply validation_success_or_failure; eauto); congruence |]).
  - destruct (Z.ltb_spec attempt (rc - 1)); [lia|].
    unfold record, Retry.schedule. cbn. do 2 f_equal. lia.
  - destruct (Z.ltb_spec attempt (rc - 1)); [|lia].
    rewrite (IH _ _ (fun i => cause (S i)) (fun i => pause (S i))); [| lia | lia |].
    + rewrite schedule_S. cbn. do 2 f_equal; [lia|].
      rewrite <- !app_assoc. done.
    + intros i Hi. cbn [calls record].
      replace (attempt + 1 + Z.of_nat i) with (attempt + Z.of_nat (S i)) by lia.
      replace (S (calls w) + i)%nat with (calls w + S i)%nat by lia.
      apply Hfail. lia.
Qed.

Lemma vattempts_succeeds aid ttl p rc k :
  forall todo attempt w cause pause v,
    0 <= attempt -> attempt + Z.of_nat (S todo) = rc -> (k <= todo)%nat ->
    (forall i, (i < k)%nat ->
       Retry.validation_failure model aid ttl (attempt + Z.of_nat i)
         (endpoint (calls w + i)%nat p) = Some (cause i, pause i)) ->
    Retry.validation_success model aid ttl (endpoint (calls w + k)%nat p) = Some v ->
    vattempts aid ttl p rc (S todo) attempt w =
      (Ok (Some v),
       {| calls := calls w + S k;
          log := log w ++ Retry.schedule (Post p) pause k |}).
Proof.
  induction k as [|k IH]; intros todo attempt w cause pause v Ha Hrc Hk Hfail Hok.
  - rewrite vattempts_step by done. cbn zeta.
    rewrite Nat.add_0_r in Hok. rewrite Hok.
    unfold record, Retry.schedule. cbn. do 2 f_equal. lia.
  - destruct todo as [|todo]; [lia|].
    rewrite vattempts_step by done. cbn zeta.
    pose proof (Hfail O ltac:(lia)) as H0.
    rewrite Z.add_0_r, Nat.add_0_r in H0. rewrite H0.
    destruct (Retry.validation_success _ _ _ (endpoint (calls w) p)) eqn:Hs.
    { assert (Hn : Retry.validation_failure model aid ttl attempt
                     (endpoint (calls w) p) = None)
        by (apply validation_success_or_failure; eauto). congruence. }
    destruct (Z.ltb_spec attempt (rc - 1)); [|lia].
    rewrite (IH _ _ _ (fun i => cause (S i)) (fun i => pause (S i)) v);
      [| lia | lia | lia | |].
    + rewrite schedule_S. cbn. do 2 f_equal; [lia|].
      rewrite <- !app_assoc. done.
    + intros i Hi. cbn [calls record].
      replace (attempt + 1 + Z.of_nat i) with (attempt + Z.of_nat (S i)) by lia.
      replace (S (calls w) + i)%nat with (calls w + S i)%nat by lia.
      apply Hfail. lia.
    + cbn [calls record].
      replace (S (calls w) + k)%nat with (calls w + S k)%nat by lia. done.
Qed.

Lemma validate_analysis_admitted a an rc w t g s :
  art_full_text a = Some t ->
  LLMAnalyzer.gist an = Some g -> LLMAnalyzer.sentiment an = Some s ->
  validate_analysis a an rc w =
    vattempts (id_or a (get (LLMAnalyzer.article_id an) (IdStr (py "unknown"))))
      (get (art_title a) (py "No title")) (_build_validation_prompt a an)
      rc (Z.to_nat rc) 0 w.
Proof.
  intros Ht Hg Hs.
  unfold LLMValidator.validate_analysis, article_empty, LLMAnalyzer.analysis_empty.
  rewrite Ht, Hg, Hs.
  destruct (art_id a), (art_title a), (LLMAnalyzer.article_id an), (LLMAnalyzer.title an);
    done.
Qed.

Lemma validate_analysis_default a an w :
  let '(out, w') := validate_analysis a an 3 w in
  match out with
  | Ok None => False
  | Ok (Some v) => forall z, art_id a = Some z -> article_id v = IdInt z
  | Raise _ => True
  end.
Proof.
  unfold LLMValidator.validate_analysis.
  destruct (_ || _); [done|]. destruct (_ || _); [done|].
  change (Z.to_nat 3) with 3%nat.
  pose proof (vattempts_outcome
    (id_or a (get (LLMAnalyzer.article_id an) (IdStr (py "unknown"))))
    (get (art_title a) (py "No title")) (_build_validation_prompt a an) 3 2 0 w
    ltac:(lia) ltac:(lia)) as H.
  destruct (vattempts _ _ _ _ _ _ _) as [[[v|]|e] w']; [|tauto|done].
  destruct H as [_ [Hid _]]. intros z Hz. rewrite Hid. unfold id_or. by rewrite Hz.
Qed.

Lemma vbatch_loop_entries delay n todo :
  0 <= delay ->
  forall idx results w,
    exists out,
      (vbatch_loop delay n idx todo results w).1 = results ++ out
      /\ Retry.validation_entries endpoint model delay n w idx todo out.
Proof.
  intros Hd. induction todo as [|[a an] rest IH]; intros idx results w.
  - exists []. cbn. rewrite app_nil_r. split; [done | constructor].
  - cbn [LLMValidator.batch_loop].
    pose proof (validate_analysis_default a an w) as Hdef.
    destruct (validate_analysis a an 3 w) as [[[r|]|e] w1] eqn:Hcall; [| done |].
    + rewrite time_sleep_ok by done.
      destruct (IH (idx + 1) (results ++ [Some r]) (Retry.rested delay n idx w1))
        as (out & Hout & Hent).
      exists (Some r :: out). split.
      * unfold Retry.rested in Hout.
        destruct (idx <? n - 1); rewrite Hout, <- app_assoc; done.
      * by eapply Retry.validation_entries_answer.
    + destruct (IH (idx + 1) (results ++ [Some (failed a e)]) w1) as (out & Hout & Hent).
      exists (Some (failed a e) :: out). split.
      * rewrite Hout, <- app_assoc. done.
      * by eapply Retry.validation_entries_failed.
Qed.

Lemma validation_entries_aligned delay n w idx todo out :
  Retry.validation_entries endpoint model delay n w idx todo out ->
  length out = length todo
  /\ forall k a an, todo !! k = Some (a, an) ->
       exists r, out !! k = Some (Some r)
                 /\ forall z, art_id a = Some z -> article_id r = IdInt z.
Proof.
  induction 1 as [| w idx a an rest r w1 out Hcall _ [IHl IHk]
                  | w idx a an rest e w1 out Hcall _ [IHl IHk]].
  - split; [done|]. intros k a an Hk. by rewrite lookup_nil in Hk.
  - split; [cbn; lia|]. intros [|k] b bn Hk; cbn in *.
    + simplify_eq. exists r. split; [done|].
      pose proof (validate_analysis_default b bn w) as Hdef. by rewrite Hcall in Hdef.
    + by eapply IHk.
  - split; [cbn; lia|]. intros [|k] b bn Hk; cbn in *.
    + simplify_eq. eexists. split; [done|]. intros z Hz. cbn. unfold id_or. by rewrite Hz.
    + by eapply IHk.
Qed.

End ValidatorFacts.

(** ** Batches, guards and retry budgets *)



(** With a negative delay [time.sleep] raises inside the [try] block, after
    the result was appended, and the [except] clause appends a failure
    record for the same article. *)
Example analyze_batch_negative_delay :
  length (LLMAnalyzer.analyze_batch Samples.third_time Samples.gemini
            [Samples.news; Samples.stub; Samples.news] (-1) start).1 = 4%nat.
Proof. vm_compute. reflexivity. Qed.



(** C7.  Lists of different lengths make [validate_batch] raise
    [ValueError] in the world it was called in: no validation call was
    made and there is no partial result. *)
Theorem validate_batch_length_mismatch
    (endpoint : nat -> validation_prompt -> posted) (validator_model : str)
    (articles : list article) (analyses : list LLMAnalyzer.analysis)
    (delay : Z) (w : world) :
  length articles <> length analyses ->
  LLMValidator.validate_batch endpoint validator_model articles analyses delay w
  = (Raise (ValueError (py "Articles and analyses lists must have same length")), w).
Proof.
  intros Hne. unfold LLMValidator.validate_batch.
  by destruct (Nat.eqb_spec (length articles) (length analyses)).
Qed.

Lemma validate_batch_length_mismatch_witness :
  LLMValidator.validate_batch Samples.timing_out Samples.mistral
    [Samples.news] [Samples.verdict; Samples.verdict] 2 start
  = (Raise (ValueError (py "Articles and analyses lists must have same length")), start).
Proof. apply validate_batch_length_mismatch. cbn. lia. Defined.

(** C10.  With a budget of zero or fewer attempts, [analyze_article] and
    [validate_analysis] on inputs that pass their guards return [None]
    without raising and without sending a request.  The final error of
    either loop is raised only with a budget of at least one attempt and
    after a request was sent. *)
Theorem no_budget_returns_none
    (model : nat -> analysis_prompt -> generated) (model_name : str)
    (endpoint : nat -> validation_prompt -> posted) (validator_model : str)
    (a : article) (an : LLMAnalyzer.analysis) (retry_count : Z) (w : world)
    (t g s : str) :
  art_full_text a = Some t -> (30 <= length (strip t))%nat ->
  LLMAnalyzer.gist an = Some g -> LLMAnalyzer.sentiment an = Some s ->
  (retry_count <= 0 ->
     LLMAnalyzer.analyze_article model model_name a retry_count w = (Ok None, w)
     /\ LLMValidator.validate_analysis endpoint validator_model a an retry_count w
        = (Ok None, w))
  /\ (forall e w',
        LLMAnalyzer.analyze_article model model_name a retry_count w = (Raise e, w')
        \/ LLMValidator.validate_analysis endpoint validator_model a an retry_count w
           = (Raise e, w') ->
        1 <= retry_count /\ (calls w < calls w')%nat).
Proof.
  intros Ht Hlen Hg Hs.
  rewrite (analyze_article_admitted model model_name a retry_count w t Ht Hlen).
  rewrite (validate_analysis_admitted endpoint validator_model a an retry_count w t g s
             Ht Hg Hs).
  destruct (Z.to_nat retry_count) as [|n] eqn:Hn.
  - split; [done|]. intros e w' [H|H]; cbn in H; congruence.
  - split; [lia|]. intros e w' Hraise. split; [lia|].
    assert (Hrc : 0 + Z.of_nat (S n) = retry_count) by lia.
    destruct Hraise as [H|H].
    + pose proof (attempts_outcome model model_name
        (id_or a (IdStr (py "unknown"))) (get (art_title a) (py "No title"))
        (LLMAnalyzer._build_analysis_prompt (get (art_title a) (py "No title")) t)
        retry_count n 0 w ltac:(lia) Hrc) as Hout.
      rewrite H in Hout. tauto.
    + pose proof (vattempts_outcome endpoint validator_model
        (id_or a (get (LLMAnalyzer.article_id an) (IdStr (py "unknown"))))
        (get (art_title a) (py "No title")) (LLMValidator._build_validation_prompt a an)
        retry_count n 0 w ltac:(lia) Hrc) as Hout.
      rewrite H in Hout. tauto.
Qed.

Lemma no_budget_returns_none_witness :
  LLMAnalyzer.analyze_article Samples.unavailable Samples.gemini Samples.news 0 start
  = (Ok None, start)
  /\ LLMValidator.validate_analysis Samples.timing_out Samples.mistral
       Samples.news Samples.verdict 0 start = (Ok None, start).
Proof.
  apply (no_budget_returns_none Samples.unavailable Samples.gemini
           Samples.timing_out Samples.mistral Samples.news Samples.verdict 0 start
           (py "Parliament opened its budget session on Monday with a long debate.")
           (py "Parliament opened its budget session.") (py "positive"));
    [reflexivity | vm_compute; lia | reflexivity | reflexivity | lia].
Defined.

(** C4 as the specification words it fails: the validation stage pauses two
    seconds after a timeout at attempt 0, not [2^0], and its final error
    names neither the number of attempts nor the cause; the analysis stage
    pauses one second after an empty response at attempt 1, not [2^1]. *)
Lemma backoff_is_not_uniform :
  (LLMValidator.validate_analysis Samples.timing_out Samples.mistral
     Samples.news Samples.verdict 3 start
   = (Raise (LLMValidatorError (py "Request timeout after retries")),
      {| calls := 3;
         log := [Post Samples.verdict_prompt; Sleep 2; Post Samples.verdict_prompt;
                 Sleep 2; Post Samples.verdict_prompt] |})
   /\ [Post Samples.verdict_prompt; Sleep 2; Post Samples.verdict_prompt;
       Sleep 2; Post Samples.verdict_prompt]
      <> Retry.schedule (Post Samples.verdict_prompt) (fun i => 2 ^ Z.of_nat i) 2)
  /\ (LLMAnalyzer.analyze_article Samples.blocked Samples.gemini Samples.news 3 start
      = (Raise (LLMAnalyzerError
                  (py "Failed to analyze article 1 after 3 attempts: Response was empty or blocked")),
         {| calls := 3;
            log := [Generate Samples.news_prompt; Sleep 1; Generate Samples.news_prompt;
                    Sleep 1; Generate Samples.news_prompt] |})
      /\ [Generate Samples.news_prompt; Sleep 1; Generate Samples.news_prompt;
          Sleep 1; Generate Samples.news_prompt]
         <> Retry.schedule (Generate Samples.news_prompt) (fun i => 2 ^ Z.of_nat i) 2).
Proof.
  split; (split; [vm_compute; reflexivity | vm_compute; intros H; discriminate H]).
Qed.

(** C4, amended.  With a budget of [n + 1] attempts and inputs that pass
    the guards, each stage sends its first request at once.  When the
    attempts [0 .. n] all fail, the log is: request, pause, request, ...,
    request, with [n + 1] requests and a pause after each but the last; the
    pause after attempt [i] is [2^i] seconds when the analysis attempt
    raised or the validation request met status 429, one second after an
    empty analysis response or another status than 200, two seconds after
    any exception of a validation attempt.  The call then raises the
    stage's error for the last cause: "Failed to analyze article .. after N
    attempts: cause", or for validation "Validation failed after N
    attempts: cause", "Network error: cause" or "Request timeout after
    retries".  When attempt [k] is the first to succeed, its record is
    returned after [k + 1] requests and no later request or pause occurs. *)
Theorem retry_schedule
    (model : nat -> analysis_prompt -> generated) (model_name : str)
    (endpoint : nat -> validation_prompt -> posted) (validator_model : str)
    (a : article) (an : LLMAnalyzer.analysis) (retry_count : Z) (n : nat) (w : world)
    (t g s : str) :
  retry_count = Z.of_nat (S n) ->
  art_full_text a = Some t -> (30 <= length (strip t))%nat ->
  LLMAnalyzer.gist an = Some g -> LLMAnalyzer.sentiment an = Some s ->
  let aid := id_or a (IdStr (py "unknown")) in
  let vid := id_or a (get (LLMAnalyzer.article_id an) (IdStr (py "unknown"))) in
  let ttl := get (art_title a) (py "No title") in
  let p := LLMAnalyzer._build_analysis_prompt ttl t in
  let q := LLMValidator._build_validation_prompt a an in
  (forall cause pause,
     (forall i, (i <= n)%nat ->
        Retry.analysis_failure aid (Z.of_nat i) (model (calls w + i)%nat p)
        = Some (cause i, pause i)) ->
     LLMAnalyzer.analyze_article model model_name a retry_count w
     = (Raise (LLMAnalyzer.failed_after aid retry_count (cause n)),
        {| calls := calls w + S n;
           log := log w ++ Retry.schedule (Generate p) pause n |}))
  /\ (forall k cause pause r,
        (k <= n)%nat ->
        (forall i, (i < k)%nat ->
           Retry.analysis_failure aid (Z.of_nat i) (model (calls w + i)%nat p)
           = Some (cause i, pause i)) ->
        Retry.analysis_success model_name aid ttl (model (calls w + k)%nat p) = Some r ->
        LLMAnalyzer.analyze_article model model_name a retry_count w
        = (Ok (Some r),
           {| calls := calls w + S k;
              log := log w ++ Retry.schedule (Generate p) pause k |}))
  /\ (forall cause pause,
        (forall i, (i <= n)%nat ->
           Retry.validation_failure validator_model vid ttl (Z.of_nat i)
             (endpoint (calls w + i)%nat q) = Some (cause i, pause i)) ->
        LLMValidator.validate_analysis endpoint validator_model a an retry_count w
        = (Raise (LLMValidator.final_error retry_count (cause n)),
           {| calls := calls w + S n;
              log := log w ++ Retry.schedule (Post q) pause n |}))
  /\ (forall k cause pause v,
        (k <= n)%nat ->
        (forall i, (i < k)%nat ->
           Retry.validation_failure validator_model vid ttl (Z.of_nat i)
             (endpoint (calls w + i)%nat q) = Some (cause i, pause i)) ->
        Retry.validation_success validator_model vid ttl (endpoint (calls w + k)%nat q)
        = Some v ->
        LLMValidator.validate_analysis endpoint validator_model a an retry_count w
        = (Ok (Some v),
           {| calls := calls w + S k;
              log := log w ++ Retry.schedule (Post q) pause k |})).
Proof.
  intros Hrc Ht Hlen Hg Hs aid vid ttl p q.
  rewrite (analyze_article_admitted model model_name a retry_count w t Ht Hlen).
  rewrite (validate_analysis_admitted endpoint validator_model a an retry_count w t g s
             Ht Hg Hs).
  replace (Z.to_nat retry_count) with (S n) by lia.
  split; [|split; [|split]].
  - intros cause pause Hfail.
    apply (attempts_exhausted model model_name aid ttl p retry_count n 0 w cause pause);
      [lia | lia | done].
  - intros k cause pause r Hk Hfail Hok.
    apply (attempts_succeeds model model_name aid ttl p retry_count k n 0 w cause pause r);
      [lia | lia | done | done | done].
  - intros cause pause Hfail.
    apply (vattempts_exhausted endpoint validator_model vid ttl q retry_count n 0 w
             cause pause); [lia | lia | done].
  - intros k cause pause v Hk Hfail Hok.
    apply (vattempts_succeeds endpoint validator_model vid ttl q retry_count k n 0 w
             cause pause v); [lia | lia | done | done | done].
Qed.

Lemma retry_schedule_witness :
  LLMAnalyzer.analyze_article Samples.unavailable Samples.gemini Samples.news 3 start
  = (Raise (LLMAnalyzer.failed_after (IdInt 1) 3 (OtherError (py "503 unavailable"))),
     {| calls := 3;
        log := Retry.schedule (Generate Samples.news_prompt)
                 (fun i => 2 ^ Z.of_nat i) 2 |}).
Proof.
  refine (proj1 (retry_schedule Samples.unavailable Samples.gemini
            Samples.timing_out Samples.mistral Samples.news Samples.verdict 3 2 start
            (py "Parliament opened its budget session on Monday with a long debate.")
            (py "Parliament opened its budget session.") (py "positive")
            _ _ _ _ _)
          (fun _ => OtherError (py "503 unavailable")) (fun i => 2 ^ Z.of_nat i) _);
    [reflexivity | reflexivity | vm_compute; lia | reflexivity | reflexivity |].
  intros i Hi. reflexivity.
Defined.

(** ** The statistics *)

Section StatisticsFacts.

Import Pipeline Counting.

Lemma increment_lookup k d n :
  d !! k = Some n ->
  exists d', increment k d = Ok d'
    /\ forall j, d' !! j = if bool_decide (j = k) then Some (n + 1)%nat else d !! j.
Proof.
  intros Hk. unfold increment. rewrite Hk. eexists. split; [done|].
  intros j. case_bool_decide as Hj.
  - subst. by rewrite lookup_insert_eq.
  - by rewrite lookup_insert_ne.
Qed.

Lemma count_all_lookup results :
  forall sc tc vc v i,
    vc !! py "valid" = Some v -> vc !! py "invalid" = Some i ->
    exists sc' tc' vc',
      count_all results (sc, tc, vc) = Ok (sc', tc', vc')
      /\ (forall s, sc' !! s = (fun n => n + tally (has_sentiment s) results)%nat <$> sc !! s)
      /\ (forall t, tc' !! t =
            if (tally (has_tone t) results =? 0)%nat then tc !! t
            else Some (default 0%nat (tc !! t) + tally (has_tone t) results)%nat)
      /\ vc' !! py "valid" = Some (v + tally judged_valid results)%nat
      /\ vc' !! py "invalid" = Some (i + tally judged_invalid results)%nat
      /\ dom vc' = dom vc.
Proof.
  induction results as [|r rest IH]; intros sc tc vc v i Hv Hi.
  - exists sc, tc, vc. split; [done|]. unfold tally. cbn.
    split; [|split; [|split; [|split]]].
    + intros s. destruct (sc !! s); cbn; [f_equal; lia | done].
    + done.
    + rewrite Hv. f_equal. lia.
    + rewrite Hi. f_equal. lia.
    + done.
  - cbn [count_all]. unfold count_one.
    (* the sentiment counter *)
    assert (Hsc : exists sc1,
      (if bool_decide (is_Some (sc !! sentiment (analysis r)))
       then increment (sentiment (analysis r)) sc else Ok sc) = Ok sc1
      /\ forall s, sc1 !! s =
           (fun n => n + (if has_sentiment s r then 1 else 0))%nat <$> sc !! s).
    { case_bool_decide as Hin.
      - destruct Hin as [n Hn].
        destruct (increment_lookup _ _ _ Hn) as (sc1 & -> & Hl).
        exists sc1. split; [done|]. intros s. rewrite Hl. unfold has_sentiment.
        case_bool_decide as Hs.
        + subst s. rewrite bool_decide_eq_true_2 by done. by rewrite Hn.
        + rewrite bool_decide_eq_false_2 by done.
          destruct (sc !! s); cbn; [f_equal; lia | done].
      - exists sc. split; [done|]. intros s. unfold has_sentiment.
        case_bool_decide as Hs.
        + subst s. destruct (sc !! sentiment (analysis r)) eqn:E; [|done].
          exfalso. apply Hin. by eexists.
        + destruct (sc !! s); cbn; [f_equal; lia | done]. }
    destruct Hsc as (sc1 & -> & Hsc1). cbn [bind].
    (* the validation counter *)
    assert (Hvc : exists vc1,
      (if truthy (is_valid (validation r))
       then increment (py "valid") vc else increment (py "invalid") vc) = Ok vc1
      /\ vc1 !! py "valid" = Some (v + (if judged_valid r then 1 else 0))%nat
      /\ vc1 !! py "invalid" = Some (i + (if judged_invalid r then 1 else 0))%nat
      /\ dom vc1 = dom vc).
    { unfold judged_valid, judged_invalid.
      destruct (truthy (is_valid (validation r))); cbn [negb]; unfold increment.
      - rewrite Hv. eexists. split; [done|].
        rewrite lookup_insert_eq, lookup_insert_ne by done.
        split; [done|]. split; [rewrite Hi; f_equal; lia|].
        apply set_eq. intros x. rewrite dom_insert, elem_of_union, elem_of_singleton.
        split; [intros [->|]; [apply elem_of_dom; eauto | done] | tauto].
      - rewrite Hi. eexists. split; [done|].
        rewrite lookup_insert_eq, lookup_insert_ne by done.
        split; [rewrite Hv; f_equal; lia|]. split; [done|].
        apply set_eq. intros x. rewrite dom_insert, elem_of_union, elem_of_singleton.
        split; [intros [->|]; [apply elem_of_dom; eauto | done] | tauto]. }
    destruct Hvc as (vc1 & -> & Hv1 & Hi1 & Hd1). cbn [bind].
    destruct (IH sc1 (<[tone (analysis r) := (default 0%nat (tc !! tone (analysis r)) + 1)%nat]> tc)
                vc1 _ _ Hv1 Hi1) as (sc' & tc' & vc' & -> & Hs & Ht & Hv' & Hi' & Hd').
    exists sc', tc', vc'. split; [done|]. unfold tally in *. cbn [List.filter].
    split; [|split; [|split; [|split]]].
    + intros s. rewrite Hs, Hsc1. destruct (sc !! s); cbn; [|done].
      f_equal. destruct (has_sentiment s r); cbn; lia.
    + intros t. rewrite Ht. destruct (decide (t = tone (analysis r))) as [->|Hne].
      * assert (Hh : has_tone (tone (analysis r)) r = true)
          by (unfold has_tone; by rewrite bool_decide_eq_true_2).
        rewrite Hh. cbn [length Nat.eqb]. rewrite lookup_insert_eq. cbn [default].
        destruct (Nat.eqb_spec (length (List.filter (has_tone (tone (analysis r))) rest)) 0)
          as [E|E]; f_equal; unfold id; lia.
      * assert (Hh : has_tone t r = false)
          by (unfold has_tone; by rewrite bool_decide_eq_false_2).
        rewrite Hh. by rewrite lookup_insert_ne.
    + rewrite Hv'. f_equal. destruct (judged_valid r); cbn; lia.
    + rewrite Hi'. f_equal. destruct (judged_invalid r); cbn; lia.
    + by rewrite Hd'.
Qed.

Lemma tally_split results :
  (tally judged_valid results + tally judged_invalid results = length results)%nat.
Proof.
  unfold tally, judged_valid, judged_invalid.
  induction results as [|r rest IH]; [done|]. cbn.
  destruct (truthy _); cbn; lia.
Qed.

End StatisticsFacts.

(** C9.  [_calculate_statistics] never fails and touches no world.  It
    returns the number of results, the duration it was given, a sentiment
    distribution whose keys are exactly positive, negative and neutral,
    each with the number of results of that sentiment, a tone distribution
    whose keys are the tones that occur, each with its number of
    occurrences, and the numbers of results whose [is_valid] is true and
    false, which add up to the total. *)
Theorem statistics_are_counts {D : Type} (results : list Pipeline.combined) (d : D) :
  exists st,
    Pipeline._calculate_statistics results d = Ok st
    /\ Pipeline.total_articles st = length results
    /\ Pipeline.duration st = d
    /\ dom (Pipeline.sentiment_distribution st)
       = ({[py "positive"; py "negative"; py "neutral"]} : gset str)
    /\ (forall s, s ∈ [py "positive"; py "negative"; py "neutral"] ->
          Pipeline.sentiment_distribution st !! s
          = Some (Counting.tally (Counting.has_sentiment s) results))
    /\ (forall t,
          Pipeline.tone_distribution st !! t
          = if (Counting.tally (Counting.has_tone t) results =? 0)%nat then None
            else Some (Counting.tally (Counting.has_tone t) results))
    /\ Pipeline.validation_stats st !! py "valid"
       = Some (Counting.tally Counting.judged_valid results)
    /\ Pipeline.validation_stats st !! py "invalid"
       = Some (Counting.tally Counting.judged_invalid results)
    /\ dom (Pipeline.validation_stats st) = ({[py "valid"; py "invalid"]} : gset str)
    /\ (Counting.tally Counting.judged_valid results
        + Counting.tally Counting.judged_invalid results
        = Pipeline.total_articles st)%nat.
Proof.
  unfold Pipeline._calculate_statistics.
  set (sc := <[py "neutral" := 0%nat]> (<[py "negative" := 0%nat]>
               (<[py "positive" := 0%nat]> (∅ : gmap str nat)))).
  set (vc := <[py "invalid" := 0%nat]> (<[py "valid" := 0%nat]> (∅ : gmap str nat))).
  destruct (count_all_lookup results sc ∅ vc 0%nat 0%nat)
    as (sc' & tc' & vc' & -> & Hs & Ht & Hv & Hi & Hd); [done | done |].
  cbn [bind]. eexists. split; [done|]. cbn.
  split; [done|]. split; [done|]. split; [|split; [|split; [|split; [|split; [|split]]]]].
  - apply set_eq. intros s. rewrite elem_of_dom, Hs, fmap_is_Some, <- elem_of_dom.
    unfold sc. rewrite !dom_insert_L. set_solver.
  - intros s Hin. rewrite Hs.
    assert (Hz : sc !! s = Some 0%nat).
    { unfold sc. set_unfold. destruct Hin as [->|[->|[->|[]]]]; done. }
    by rewrite Hz.
  - intros t. rewrite Ht, lookup_empty. by destruct (_ =? _)%nat.
  - done.
  - done.
  - rewrite Hd. unfold vc. rewrite !dom_insert_L. set_solver.
  - apply tally_split.
Qed.

(** ** Parsing the replies *)

Section ParsingFacts.

Import Parsing.







End ParsingFacts.









(** ** JSON texts: characters, whitespace, fences *)

Section JsonFacts.

Import Grammar.

Lemma json_ws_cases c :
  is_json_ws c = true ->
  c = " "%char \/ c = "009"%char \/ c = "010"%char \/ c = "013"%char.
Proof.
  unfold is_json_ws, code. intros H.
  assert (Hc : c = ascii_of_N (N_of_ascii c)) by (by rewrite ascii_N_embedding).
  destruct (N.eqb_spec (N_of_ascii c) 32) as [E|_]; [rewrite E in Hc; auto|].
  destruct (N.eqb_spec (N_of_ascii c) 9) as [E|_]; [rewrite E in Hc; auto|].
  destruct (N.eqb_spec (N_of_ascii c) 10) as [E|_]; [rewrite E in Hc; auto|].
  destruct (N.eqb_spec (N_of_ascii c) 13) as [E|_]; [rewrite E in Hc; auto|].
  done.
Qed.

Lemma json_ws_space c : is_json_ws c = true -> is_space c = true.
Proof. intros H. by destruct (json_ws_cases c H) as [->|[->|[->| ->]]]. Qed.

Lemma json_ws_delim c : is_json_ws c = true -> delim c = true.
Proof. intros H. unfold delim. by rewrite H. Qed.

Lemma digit_numchar c : is_digit c = true -> numchar c = true.
Proof. intros H. unfold numchar. by rewrite H. Qed.

(** What the characters of a number, and the delimiters, are not. *)
Lemma numchar_plain c :
  numchar c = true ->
  is_space c = false /\ c <> tick /\ c <> nl /\ c <> quote
  /\ c <> "{"%char /\ c <> "["%char /\ delim c = false.
Proof.
  unfold numchar. intros H.
  assert (Hd : is_digit c = true \/ c = "-"%char \/ c = "+"%char \/ c = "."%char
               \/ c = "e"%char \/ c = "E"%char).
  { repeat (apply orb_prop in H as [H|H]); try (apply bool_decide_eq_true in H); auto 10. }
  clear H. destruct Hd as [Hd|Hd].
  - unfold is_digit, code in Hd. apply andb_prop in Hd as [H1 H2].
    apply N.leb_le in H1, H2.
    assert (Hc : forall x, (N_of_ascii x < 48 \/ 57 < N_of_ascii x)%N -> c <> x)
      by (intros x Hx ->; lia).
    assert (Hs : is_space c = false).
    { unfold is_space, code.
      destruct (N.leb_spec 9 (N_of_ascii c)), (N.leb_spec (N_of_ascii c) 13),
        (N.leb_spec 28 (N_of_ascii c)), (N.leb_spec (N_of_ascii c) 32); cbn; try done; lia. }
    assert (Hw : is_json_ws c = false).
    { destruct (is_json_ws c) eqn:E; [|done]. apply json_ws_space in E. congruence. }
    repeat split; try (apply Hc; cbn; lia); [done|].
    unfold delim. rewrite Hw. cbn.
    rewrite !bool_decide_eq_false_2; [done|..]; apply Hc; cbn; lia.
  - by destruct Hd as [->|[->|[->|[->| ->]]]].
Qed.

(** Whitespace *)

Lemma skip_ws_split s :
  exists w, s = w ++ skip_ws s /\ Forall (fun c => is_json_ws c = true) w.
Proof.
  induction s as [|c s (w & Hw & Hall)]; [by exists []|]. cbn.
  destruct (is_json_ws c) eqn:E.
  - exists (c :: w). split; [cbn; by f_equal | by constructor].
  - by exists [].
Qed.

Lemma skip_ws_head s c s' : skip_ws s = c :: s' -> is_json_ws c = false.
Proof.
  induction s as [|a s IH]; [done|]. cbn. destruct (is_json_ws a) eqn:E; [done|].
  intros [= -> _]. done.
Qed.

Lemma skip_ws_app w s :
  Forall (fun c => is_json_ws c = true) w -> skip_ws (w ++ s) = skip_ws s.
Proof. induction 1 as [|c w Hc _ IH]; [done|]. cbn. by rewrite Hc. Qed.

Lemma skip_ws_id s :
  match s with [] => True | c :: _ => is_json_ws c = false end -> skip_ws s = s.
Proof. destruct s as [|c s]; [done|]. cbn. by intros ->. Qed.

Lemma skip_ws_all s :
  skip_ws s = [] -> Forall (fun c => is_json_ws c = true) s.
Proof.
  intros H. destruct (skip_ws_split s) as (w & Hs & Hw). rewrite H, app_nil_r in Hs.
  by subst.
Qed.

Lemma skip_ws_boundary w c s :
  Forall (fun c => is_json_ws c = true) w -> delim c = true -> boundary (w ++ c :: s).
Proof. intros [|a w' Ha _] Hc; cbn; [done | by apply json_ws_delim]. Qed.

(** Tame texts *)

Lemma tame_from_weaken b s : tame_from true s = true -> tame_from b s = true.
Proof. destruct s as [|c s]; [done|]. cbn. destruct b; [done|]. by intros [_ ?]%andb_prop. Qed.

Lemma tame_from_app b a c :
  tame_from b a = true -> tame c -> tame_from b (a ++ c) = true.
Proof.
  revert b. induction a as [|x a IH]; intros b Ha Hc.
  - by apply tame_from_weaken.
  - cbn in *. apply andb_prop in Ha as [H1 H2]. rewrite H1. cbn. by apply IH.
Qed.

Lemma tame_app a c : tame a -> tame c -> tame (a ++ c).
Proof. apply tame_from_app. Qed.

Lemma tame_tickless b s : Forall (fun c => c <> tick) s -> tame_from b s = true.
Proof.
  intros H. revert b. induction H as [|c s Hc _ IH]; intros b; [done|]. cbn.
  rewrite (bool_decide_eq_false_2 _ Hc), andb_false_r. cbn. apply IH.
Qed.

Lemma tame_one_line c s :
  c <> tick -> c <> nl -> Forall (fun c => c <> nl) s -> tame (c :: s).
Proof.
  intros Hc Hn Hs. unfold tame. cbn.
  rewrite (bool_decide_eq_false_2 _ Hc), (bool_decide_eq_false_2 _ Hn). cbn.
  clear Hc Hn. induction Hs as [|x s Hx _ IH]; [done|]. cbn.
  by rewrite (bool_decide_eq_false_2 _ Hx).
Qed.

Lemma tame_ws w : Forall (fun c => is_json_ws c = true) w -> tame w.
Proof.
  intros H. apply tame_tickless. eapply Forall_impl; [done|].
  intros c Hc ->. done.
Qed.

Lemma tame_numchars p : Forall (fun c => numchar c = true) p -> tame p.
Proof.
  intros H. apply tame_tickless. eapply Forall_impl; [done|].
  intros c Hc. by apply numchar_plain in Hc as (_ & ? & _).
Qed.

End JsonFacts.


(** ** JSON texts: numbers *)

Section NumberFacts.

Import Grammar.


Lemma digits_split s ds r :
  digits s = (ds, r) ->
  s = ds ++ r /\ Forall (fun c => is_digit c = true) ds /\ undigit r.
Proof.
  revert ds r. induction s as [|c s IH]; intros ds r; cbn.
  - by intros [= <- <-].
  - destruct (is_digit c) eqn:E.
    + destruct (digits s) as [ds' r']. intros [= <- <-].
      destruct (IH ds' r' eq_refl) as (-> & Hall & Hr).
      split; [done|]. split; [by constructor | done].
    + intros [= <- <-]. by cbn.
Qed.

Lemma digits_app ds t :
  Forall (fun c => is_digit c = true) ds -> undigit t -> digits (ds ++ t) = (ds, t).
Proof.
  intros Hall Ht. induction Hall as [|c ds Hc _ IH]; cbn.
  - destruct t as [|c t]; [done|]. cbn in *. by rewrite Ht.
  - by rewrite Hc, IH.
Qed.

Lemma delim_plain c :
  delim c = true ->
  is_digit c = false /\ c <> "."%char /\ c <> "e"%char /\ c <> "E"%char /\ c <> "-"%char.
Proof.
  intros Hd.
  assert (Hn : numchar c = false).
  { destruct (numchar c) eqn:E; [|done].
    apply numchar_plain in E as (_ & _ & _ & _ & _ & _ & E). congruence. }
  unfold numchar in Hn.
  repeat (apply orb_false_elim in Hn as [Hn ?]).
  repeat match goal with H : bool_decide _ = false |- _ => apply bool_decide_eq_false in H end.
  done.
Qed.

Lemma lex_frac_head s f r : lex_frac s = Some (f, r) -> exists s', s = "."%char :: s'.
Proof.
  destruct s as [|c s]; [done|]. cbn. case_bool_decide; [|done]. subst. by eexists.
Qed.

Lemma lex_exp_head s e r :
  lex_exp s = Some (e, r) -> exists c s', s = c :: s' /\ (c = "e"%char \/ c = "E"%char).
Proof.
  destruct s as [|c s]; [done|]. cbn.
  destruct (bool_decide (c = "e"%char)) eqn:E1; [apply bool_decide_eq_true in E1; eauto|].
  destruct (bool_decide (c = "E"%char)) eqn:E2; [apply bool_decide_eq_true in E2; eauto|].
  done.
Qed.

Lemma lex_frac_none c s : c <> "."%char -> lex_frac (c :: s) = None.
Proof. intros H. cbn. by rewrite bool_decide_eq_false_2. Qed.

Lemma lex_exp_none c s : c <> "e"%char -> c <> "E"%char -> lex_exp (c :: s) = None.
Proof. intros H1 H2. cbn. by rewrite !bool_decide_eq_false_2. Qed.

Lemma boundary_stop t : boundary t -> stop t.
Proof.
  destruct t as [|c t]; [done|]. cbn. intros (? & ? & ? & ? & _)%delim_plain.
  split; [done|]. split; [by apply lex_frac_none | by apply lex_exp_none].
Qed.

Lemma stop_undigit t : stop t -> undigit t.
Proof. by intros [? _]. Qed.

(** The parts of a number: what each lexer consumed, and that it consumes
    the same before any continuation that starts with no digit. *)
Lemma lex_int_spec s i r :
  lex_int s = Some (i, r) ->
  s = i ++ r
  /\ Forall (fun c => numchar c = true) i
  /\ (exists c, last i = Some c /\ is_digit c = true)
  /\ forall t, t = r \/ undigit t -> lex_int (i ++ t) = Some (i, t).
Proof.
  unfold lex_int.
  assert (Hbody : forall sign s1,
    Forall (fun c => numchar c = true) sign ->
    match s1 with
    | [] => None
    | c :: t =>
        if bool_decide (c = "0"%char) then Some (sign ++ [c], t)
        else if is_digit c then let '(ds, r) := digits s1 in Some (sign ++ ds, r)
        else None
    end = Some (i, r) ->
    exists j, i = sign ++ j /\ s1 = j ++ r
      /\ Forall (fun c => numchar c = true) i
      /\ (exists c, last i = Some c /\ is_digit c = true)
      /\ (exists c j', j = c :: j' /\ is_digit c = true)
      /\ forall t, t = r \/ undigit t ->
           match j ++ t with
           | [] => None
           | c :: t0 =>
               if bool_decide (c = "0"%char) then Some (sign ++ [c], t0)
               else if is_digit c then let '(ds, r) := digits (j ++ t) in Some (sign ++ ds, r)
               else None
           end = Some (i, t)).
  { intros sign s1 Hsign. destruct s1 as [|c t0]; [done|].
    case_bool_decide as Hz.
    - intros [= <- <-]. subst c. exists ["0"%char]. split; [done|]. split; [done|].
      split; [apply Forall_app; split; [done | by repeat constructor]|].
      split; [exists "0"%char; by rewrite last_snoc|].
      split; [by eexists _, _|]. intros t _. done.
    - destruct (is_digit c) eqn:Hd; [|done].
      destruct (digits (c :: t0)) as [ds r'] eqn:Hds. intros [= <- <-].
      destruct (digits_split _ _ _ Hds) as (Heq & Hall & Hr).
      assert (Hne : exists ds', ds = c :: ds').
      { cbn in Hds. rewrite Hd in Hds. destruct (digits t0). injection Hds as <- _. eauto. }
      destruct Hne as [ds' ->].
      exists (c :: ds'). split; [done|]. split; [done|].
      split; [apply Forall_app; split; [done|]; eapply Forall_impl; [done|];
              apply digit_numchar|].
      split.
      { destruct (last (c :: ds')) as [x|] eqn:Hl.
        - exists x. split; [by rewrite last_app, Hl|].
          apply last_Some_elem_of in Hl. by rewrite Forall_forall in Hall; apply Hall.
        - by apply last_None in Hl. }
      split; [by eexists _, _|].
      intros t Ht. cbn [app]. rewrite bool_decide_eq_false_2 by done. rewrite Hd.
      change (c :: ds' ++ t) with ((c :: ds') ++ t).
      destruct Ht as [->|Ht]; [by rewrite <- Heq, Hds|].
      by rewrite digits_app. }
  destruct s as [|c t0]; [done|].
  case_bool_decide as Hm.
  - subst c. intros H.
    destruct (Hbody ["-"%char] t0 ltac:(by repeat constructor) H)
      as (j & -> & -> & Hall & Hlast & _ & Hext).
    split; [done|]. split; [done|]. split; [done|].
    intros t Ht. cbn [app]. rewrite bool_decide_eq_true_2 by done. by apply Hext.
  - intros H.
    destruct (Hbody [] (c :: t0) ltac:(done) H)
      as (j & -> & Hj & Hall & Hlast & (c' & j' & -> & Hd) & Hext).
    cbn [app] in *. injection Hj as <- ->.
    split; [done|]. split; [done|]. split; [done|].
    intros t Ht. rewrite bool_decide_eq_false_2 by done. by apply (Hext t).
Qed.

End NumberFacts.

Section NumberFacts2.

Import Grammar.

Lemma last_digit (ds : str) :
  Forall (fun c => is_digit c = true) ds -> ds <> [] ->
  forall pre, exists c, last (pre ++ ds) = Some c /\ is_digit c = true.
Proof.
  intros Hall Hne pre. destruct (last ds) as [x|] eqn:Hl.
  - exists x. split; [by rewrite last_app, Hl|].
    apply last_Some_elem_of in Hl. rewrite Forall_forall in Hall. by apply Hall.
  - by apply last_None in Hl.
Qed.

Lemma lex_frac_spec s f r :
  lex_frac s = Some (f, r) ->
  s = f ++ r
  /\ Forall (fun c => numchar c = true) f
  /\ (exists c, last f = Some c /\ is_digit c = true)
  /\ (exists f', f = "."%char :: f')
  /\ forall t, t = r \/ undigit t -> lex_frac (f ++ t) = Some (f, t).
Proof.
  destruct s as [|c s]; [done|]. cbn [lex_frac].
  case_bool_decide as Hc; [|done]. subst c.
  destruct (digits s) as [ds r'] eqn:Hds.
  destruct (digits_split _ _ _ Hds) as (-> & Hall & Hr).
  destruct ds as [|d ds]; [done|]. intros [= <- <-].
  split; [done|].
  split; [constructor; [done|]; eapply Forall_impl; [done|]; apply digit_numchar|].
  split; [apply (last_digit (d :: ds) Hall ltac:(done) ["."%char])|].
  split; [by eexists|].
  intros t Ht. cbn [app lex_frac]. rewrite bool_decide_eq_true_2 by done.
  change (d :: ds ++ t) with ((d :: ds) ++ t).
  destruct Ht as [->|Ht]; [by rewrite Hds|]. by rewrite digits_app.
Qed.

Lemma lex_exp_spec s e r :
  lex_exp s = Some (e, r) ->
  s = e ++ r
  /\ Forall (fun c => numchar c = true) e
  /\ (exists c, last e = Some c /\ is_digit c = true)
  /\ (exists c e', e = c :: e' /\ (c = "e"%char \/ c = "E"%char))
  /\ forall t, t = r \/ undigit t -> lex_exp (e ++ t) = Some (e, t).
Proof.
  destruct s as [|c s]; [done|]. cbn [lex_exp].
  destruct (bool_decide (c = "e"%char) || bool_decide (c = "E"%char)) eqn:Hc; [|done].
  assert (Hc' : c = "e"%char \/ c = "E"%char).
  { apply orb_prop in Hc as [Hc|Hc]; apply bool_decide_eq_true in Hc; auto. }
  assert (Hcn : numchar c = true) by (by destruct Hc' as [-> | ->]).
  assert (Hbody : forall sg t',
    Forall (fun c => numchar c = true) sg ->
    match digits t' with
    | ([], _) => None
    | (ds, r) => Some (c :: sg ++ ds, r)
    end = Some (e, r) ->
    exists ds, e = c :: sg ++ ds /\ t' = ds ++ r
      /\ Forall (fun c => is_digit c = true) ds /\ ds <> []
      /\ forall t, t = r \/ undigit t -> digits (ds ++ t) = (ds, t)).
  { intros sg t' Hsg. destruct (digits t') as [ds r'] eqn:Hds.
    destruct (digits_split _ _ _ Hds) as (-> & Hall & Hr).
    destruct ds as [|d ds]; [done|]. intros [= <- <-].
    exists (d :: ds). repeat split; try done.
    intros t [->|Ht]; [done | by apply digits_app]. }
  assert (Hfin : forall sg ds,
    Forall (fun c => numchar c = true) sg ->
    Forall (fun c => is_digit c = true) ds -> ds <> [] ->
    Forall (fun c => numchar c = true) (c :: sg ++ ds)
    /\ (exists x, last (c :: sg ++ ds) = Some x /\ is_digit x = true)
    /\ (exists x e', c :: sg ++ ds = x :: e' /\ (x = "e"%char \/ x = "E"%char))).
  { intros sg ds Hsg Hall Hne. split.
    - constructor; [done|]. apply Forall_app. split; [done|].
      eapply Forall_impl; [done|]. apply digit_numchar.
    - split; [|by eexists _, _].
      change (c :: sg ++ ds) with ((c :: sg) ++ ds). by apply last_digit. }
  destruct s as [|x s0].
  - intros H. by destruct (Hbody [] [] ltac:(done) H) as (ds & _ & Hnil & _ & Hne & _);
      destruct ds.
  - destruct (bool_decide (x = "-"%char) || bool_decide (x = "+"%char)) eqn:Hx.
    + assert (Hxn : numchar x = true).
      { apply orb_prop in Hx as [Hx|Hx]; apply bool_decide_eq_true in Hx; by subst. }
      intros H.
      destruct (Hbody [x] s0 ltac:(by repeat constructor) H)
        as (ds & -> & -> & Hall & Hne & Hext).
      split; [done|].
      destruct (Hfin [x] ds ltac:(by repeat constructor) Hall Hne) as (? & ? & ?).
      repeat split; try done.
      intros t Ht. cbn [app lex_exp]. rewrite Hc, Hx. rewrite Hext by done. by destruct ds.
    + intros H.
      destruct (Hbody [] (x :: s0) ltac:(done) H) as (ds & -> & Hs0 & Hall & Hne & Hext).
      destruct ds as [|d ds]; [done|]. cbn [app] in Hs0. injection Hs0 as <- ->.
      split; [done|].
      destruct (Hfin [] (x :: ds) ltac:(done) Hall Hne) as (? & ? & ?).
      repeat split; try done.
      intros t Ht. cbn [app lex_exp]. rewrite Hc, Hx.
      change (x :: ds ++ t) with ((x :: ds) ++ t). by rewrite Hext.
Qed.

(** A number: what [lex_number] consumed is made of number characters and
    ends in a digit, and the same is consumed before any continuation that
    cannot prolong a number. *)
Lemma lex_number_spec s x r :
  lex_number s = Some (x, r) ->
  exists p,
    s = p ++ r
    /\ p <> []
    /\ Forall (fun c => numchar c = true) p
    /\ (exists c, last p = Some c /\ is_digit c = true)
    /\ forall t, t = r \/ stop t -> lex_number (p ++ t) = Some (x, t).
Proof.
  unfold lex_number.
  destruct (lex_int s) as [[i r1]|] eqn:Hi; [|done].
  destruct (lex_int_spec _ _ _ Hi) as (-> & Hin & Hil & Hie).
  assert (Hine : i <> []) by (destruct Hil as (c & Hl & _); by destruct i).
  destruct (lex_frac r1) as [[f r2]|] eqn:Hf.
  - destruct (lex_frac_spec _ _ _ Hf) as (-> & Hfn & Hfl & (f' & ->) & Hfe).
    destruct (lex_exp r2) as [[e r3]|] eqn:He.
    + destruct (lex_exp_spec _ _ _ He) as (-> & Hen & Hel & (c & e' & -> & Hc) & Hee).
      intros [= <- <-]. exists (i ++ ("."%char :: f') ++ c :: e').
      split; [by rewrite <- !app_assoc|].
      split; [by destruct i|].
      split; [by rewrite !Forall_app|].
      split; [destruct Hel as (y & Hy & ?); exists y; by rewrite !last_app, Hy|].
      intros t Ht. rewrite <- !app_assoc.
      rewrite Hie by (right; done).
      rewrite Hfe by (right; cbn; by destruct Hc as [-> | ->]).
      rewrite Hee; [done|]. destruct Ht as [->|Ht]; [by left | right; by apply stop_undigit].
    + intros [= <- <-]. exists (i ++ "."%char :: f').
      split; [by rewrite <- !app_assoc|].
      split; [by destruct i|].
      split; [by rewrite !Forall_app|].
      split; [destruct Hfl as (y & Hy & ?); exists y; by rewrite !last_app, Hy|].
      intros t Ht. rewrite <- !app_assoc.
      rewrite Hie by (right; done).
      destruct Ht as [->|(Hu & Hsf & Hse)].
      * rewrite Hfe by (by left). by rewrite He.
      * rewrite Hfe by (by right). by rewrite Hse.
  - destruct (lex_exp r1) as [[e r3]|] eqn:He.
    + destruct (lex_exp_spec _ _ _ He) as (-> & Hen & Hel & (c & e' & -> & Hc) & Hee).
      intros [= <- <-]. exists (i ++ c :: e').
      split; [by rewrite <- !app_assoc|].
      split; [by destruct i|].
      split; [by rewrite !Forall_app|].
      split; [destruct Hel as (y & Hy & ?); exists y; by rewrite !last_app, Hy|].
      intros t Ht. rewrite <- !app_assoc.
      rewrite Hie by (right; cbn; by destruct Hc as [-> | ->]).
      assert (Hfn : lex_frac ((c :: e') ++ t) = None)
        by (apply lex_frac_none; by destruct Hc as [-> | ->]).
      rewrite Hfn.
      rewrite Hee; [done|]. destruct Ht as [->|Ht]; [by left | right; by apply stop_undigit].
    + intros [= <- <-]. exists i.
      split; [done|]. split; [done|]. split; [done|]. split; [done|].
      intros t [->|(Hu & Hsf & Hse)].
      * by rewrite Hi, Hf, He.
      * rewrite Hie by (by right). by rewrite Hsf, Hse.
Qed.

End NumberFacts2.


(** ** JSON texts: strings and literals *)

Section ScalarFacts.

Import Grammar.

Lemma hex4_no_nl h1 h2 h3 h4 u :
  hex4 h1 h2 h3 h4 = Some u -> h1 <> nl /\ h2 <> nl /\ h3 <> nl /\ h4 <> nl.
Proof.
  intros H. repeat split; intros ->; unfold hex4 in H;
    repeat (match type of H with context [hex_val ?x] => destruct (hex_val x) eqn:? end);
    done.
Qed.

(** A string literal: what [scan_items] consumed has no line feed and ends
    in the closing quote, and the same is consumed before any
    continuation. *)
Lemma scan_items_spec s :
  forall acc its r,
    scan_items s acc = Some (its, r) ->
    exists p,
      s = p ++ r
      /\ Forall (fun c => c <> nl) p
      /\ last p = Some quote
      /\ forall t, scan_items (p ++ t) acc = Some (its, t).
Proof.
  remember (length s) as n eqn:Hn. revert s Hn.
  induction n as [n IH] using lt_wf_ind. intros s Hn acc its r.
  destruct s as [|c s1]; [done|]. cbn [scan_items].
  case_bool_decide as Hq.
  { intros [= <- <-]. subst c. exists [quote].
    split; [done|]. split; [by repeat constructor|]. split; [done|].
    intros t. cbn. by rewrite bool_decide_eq_true_2. }
  case_bool_decide as Hb.
  - subst c. destruct s1 as [|e s2]; [done|].
    case_bool_decide as Hu.
    + subst e. destruct s2 as [|h1 [|h2 [|h3 [|h4 s3]]]]; try done.
      destruct (hex4 h1 h2 h3 h4) as [u|] eqn:Hh; [|done].
      intros Hrec.
      destruct (IH (length s3) ltac:(subst n; cbn; lia) s3 eq_refl _ _ _ Hrec)
        as (p & -> & Hnl & Hlast & Hext).
      destruct (hex4_no_nl _ _ _ _ _ Hh) as (? & ? & ? & ?).
      exists (backslash :: "u"%char :: h1 :: h2 :: h3 :: h4 :: p).
      split; [done|]. split; [by repeat constructor|].
      split; [by destruct p|].
      intros t. cbn [app scan_items].
      rewrite (bool_decide_eq_false_2 (backslash = quote)) by done.
      rewrite !bool_decide_eq_true_2 by done. by rewrite Hh.
    + destruct (unescape e) as [ch|] eqn:He; [|done].
      intros Hrec.
      destruct (IH (length s2) ltac:(subst n; cbn; lia) s2 eq_refl _ _ _ Hrec)
        as (p & -> & Hnl & Hlast & Hext).
      exists (backslash :: e :: p).
      split; [done|].
      split; [constructor; [done|]; constructor; [by intros ->|done]|].
      split; [by destruct p|].
      intros t. cbn [app scan_items].
      rewrite (bool_decide_eq_false_2 (backslash = quote)) by done.
      rewrite (bool_decide_eq_true_2 (backslash = backslash)) by done.
      rewrite (bool_decide_eq_false_2 _ Hu). by rewrite He.
  - destruct (code c <? 32)%N eqn:Hc; [done|].
    intros Hrec.
    destruct (IH (length s1) ltac:(subst n; cbn; lia) s1 eq_refl _ _ _ Hrec)
      as (p & -> & Hnl & Hlast & Hext).
    exists (c :: p).
    split; [done|]. split; [constructor; [by intros ->|done]|].
    split; [by destruct p|].
    intros t. cbn [app scan_items].
    by rewrite (bool_decide_eq_false_2 _ Hq), (bool_decide_eq_false_2 _ Hb), Hc.
Qed.

Lemma startswith_split p s : startswith p s = true -> s = p ++ drop (length p) s.
Proof.
  revert s. induction p as [|a p IH]; intros s; [done|].
  destruct s as [|b s]; [done|]. cbn.
  intros [Hab Hp]%andb_prop. apply bool_decide_eq_true in Hab. subst. f_equal. by apply IH.
Qed.

Lemma startswith_app p t : startswith p (p ++ t) = true.
Proof. induction p as [|a p IH]; [done|]. cbn. by rewrite bool_decide_eq_true_2. Qed.

Lemma startswith_head a p b s : a <> b -> startswith (a :: p) (b :: s) = false.
Proof. intros H. cbn. by rewrite bool_decide_eq_false_2. Qed.

Lemma literal_spec w v s r :
  literal w v s = Some (v, r) ->
  s = py w ++ r /\ forall t, literal w v (py w ++ t) = Some (v, t).
Proof.
  unfold literal. destruct (startswith (py w) s) eqn:H; [|done].
  intros [= <-]. split; [by apply startswith_split|].
  intros t. by rewrite startswith_app, drop_app_length.
Qed.

End ScalarFacts.

Section ScalarFacts2.

Import Grammar.

Lemma firm_edges c p x :
  is_space c = false -> last (c :: p) = Some x -> is_space x = false -> firm (c :: p).
Proof. intros Hc Hl Hx. split; [by exists c | by exists x]. Qed.

Lemma literal_value w v0 s v r : literal w v0 s = Some (v, r) -> v = v0.
Proof. unfold literal. destruct (startswith _ _); [|done]. by intros [= <- _]. Qed.

Ltac literal_case H :=
  pose proof (literal_value _ _ _ _ _ H) as ->;
  apply literal_spec in H as [-> Hext];
  eexists; split; [reflexivity|];
  split; [vm_compute; reflexivity|];
  split; [split; eexists; split; reflexivity|];
  split; [do 2 eexists; split; [reflexivity | split; discriminate]|];
  intros t _; specialize (Hext t); unfold py in *; cbn in *; exact Hext.

(** A value that is no object and no array: what [parse_scalar] consumed
    is tame and firm, and the same is consumed before any continuation
    that cannot prolong a number. *)
Lemma parse_scalar_spec s v r :
  parse_scalar s = Some (v, r) ->
  exists p,
    s = p ++ r
    /\ tame p
    /\ firm p
    /\ (exists c p', p = c :: p' /\ c <> "{"%char /\ c <> "["%char)
    /\ forall t, t = r \/ stop t -> parse_scalar (p ++ t) = Some (v, t).
Proof.
  destruct s as [|c s1]; [done|]. unfold parse_scalar.
  case_bool_decide as Hq.
  { subst c. unfold scan_string.
    destruct (scan_items s1 []) as [[its r']|] eqn:Hs; [|done]. intros [= <- <-].
    destruct (scan_items_spec _ _ _ _ Hs) as (p & -> & Hnl & Hlast & Hext).
    exists (quote :: p). split; [done|].
    split; [by apply tame_one_line|].
    split; [apply (firm_edges _ _ quote); [done | by destruct p | done]|].
    split; [by eexists _, _|].
    intros t _. cbn [app]. rewrite bool_decide_eq_true_2 by done.
    unfold scan_string. by rewrite Hext. }
  destruct (startswith (py "null") (c :: s1)) eqn:H1.
  { intros H. literal_case H. }
  destruct (startswith (py "true") (c :: s1)) eqn:H2.
  { intros H. literal_case H. }
  destruct (startswith (py "false") (c :: s1)) eqn:H3.
  { intros H. literal_case H. }
  destruct (lex_number (c :: s1)) as [[x r']|] eqn:Hn.
  { intros [= <- <-].
    destruct (lex_number_spec _ _ _ Hn) as (p & Hs & Hne & Hall & (y & Hy & Hyd) & Hext).
    destruct p as [|c' p']; [done|]. cbn [app] in Hs. injection Hs as <- ->.
    assert (Hc : numchar c = true) by (by inversion Hall).
    destruct (numchar_plain c Hc) as (Hcs & _ & _ & _ & Hcb & Hck & _).
    exists (c :: p'). split; [done|].
    split; [by apply tame_numchars|].
    split.
    { apply (firm_edges _ _ y); [done | done |].
      by apply numchar_plain, digit_numchar. }
    split; [by eexists _, _|].
    intros t Ht. cbn [app]. rewrite (bool_decide_eq_false_2 _ Hq).
    unfold py. cbn [list_ascii_of_string].
    rewrite !startswith_head by (intros <-; done).
    change (c :: p' ++ t) with ((c :: p') ++ t). by rewrite Hext. }
  destruct (startswith (py "NaN") (c :: s1)) eqn:H4.
  { intros H. literal_case H. }
  destruct (startswith (py "Infinity") (c :: s1)) eqn:H5.
  { intros H. literal_case H. }
  destruct (startswith (py "-Infinity") (c :: s1)) eqn:H6; [|done].
  intros H. literal_case H.
Qed.

End ScalarFacts2.


(** ** JSON texts: what the parsers consume *)

Section ParserFacts.

Import Grammar.

Lemma skip_ws_found w c x :
  Forall (fun c => is_json_ws c = true) w -> is_json_ws c = false ->
  skip_ws (w ++ c :: x) = c :: x.
Proof. intros Hw Hc. rewrite skip_ws_app by done. cbn. by rewrite Hc. Qed.

Lemma skip_ws_cut s c x :
  skip_ws s = c :: x ->
  exists w, s = w ++ c :: x /\ Forall (fun c => is_json_ws c = true) w
            /\ is_json_ws c = false.
Proof.
  intros H. destruct (skip_ws_split s) as (w & Hs & Hw). rewrite H in Hs.
  exists w. split; [done|]. split; [done|]. by eapply skip_ws_head.
Qed.

Lemma firm_head_not_ws p x :
  firm p -> match p ++ x with [] => True | c :: _ => is_json_ws c = false end.
Proof.
  intros [(c & Hh & Hc) _]. destruct p as [|c' p]; [done|]. cbn in *. simplify_eq.
  destruct (is_json_ws c) eqn:E; [|done]. apply json_ws_space in E. congruence.
Qed.

Lemma skip_ws_firm w p x :
  Forall (fun c => is_json_ws c = true) w -> firm p -> skip_ws (w ++ p ++ x) = p ++ x.
Proof.
  intros Hw Hp. rewrite skip_ws_app by done. apply skip_ws_id. by apply firm_head_not_ws.
Qed.

Lemma tame_cons c p : c <> tick -> c <> nl -> tame p -> tame (c :: p).
Proof.
  intros Hc Hn Hp. change (c :: p) with ([c] ++ p). apply tame_app; [|done].
  by apply tame_one_line.
Qed.

Lemma tame_ws_then w p :
  Forall (fun c => is_json_ws c = true) w -> tame p -> tame (w ++ p).
Proof. intros Hw Hp. apply tame_app; [by apply tame_ws | done]. Qed.

Lemma boundary_ws_then w c x :
  Forall (fun c => is_json_ws c = true) w -> delim c = true -> boundary (w ++ c :: x).
Proof. apply skip_ws_boundary. Qed.

Ltac list_norm := repeat (progress (cbn [app]; rewrite <- ?app_assoc)).

Section Step.

Variable n : nat.
Hypothesis IHV : value_ok n.
Hypothesis IHE : elems_ok n.
Hypothesis IHM : members_ok n.

Lemma value_step : value_ok (S n).
Proof.
  intros s v r. destruct s as [|c s1]; [done|]. cbn [parse_value].
  case_bool_decide as Hobj.
  { subst c. destruct (skip_ws s1) as [|c2 s2] eqn:Hws; [done|].
    destruct (skip_ws_cut _ _ _ Hws) as (w & -> & Hw & Hc2).
    case_bool_decide as Hclose.
    - subst c2. intros [= <- <-]. exists ("{"%char :: w ++ ["}"%char]).
      split; [by list_norm|].
      split; [apply tame_cons; [done|done|]; by apply tame_ws_then|].
      split; [apply (firm_edges _ _ "}"%char); [done | by rewrite last_cons, last_snoc | done]|].
      intros m t Hm _. destruct m as [|m]; [cbn in Hm; lia|].
      cbn [app parse_value]. rewrite bool_decide_eq_true_2 by done.
      list_norm. rewrite skip_ws_found by done.
      by rewrite bool_decide_eq_true_2.
    - case_bool_decide as Hkey; [|done]. subst c2.
      destruct (parse_members n s2 []) as [[ps r']|] eqn:Hm; [|done]. intros [= <- <-].
      destruct (IHM _ _ _ _ Hm) as (q & -> & Hq & Hlast & Hext).
      exists ("{"%char :: w ++ quote :: q).
      split; [by list_norm|].
      split; [apply tame_cons; [done|done|]; by apply tame_ws_then|].
      split.
      { apply (firm_edges _ _ "}"%char); [done | | done].
        rewrite last_cons, last_app, last_cons, Hlast. done. }
      intros m t Hlen _. destruct m as [|m]; [cbn in Hlen; lia|].
      cbn [app parse_value]. rewrite bool_decide_eq_true_2 by done.
      list_norm. rewrite skip_ws_found by done.
      rewrite bool_decide_eq_false_2 by done. rewrite bool_decide_eq_true_2 by done.
      rewrite Hext; [done|]. cbn in Hlen. rewrite length_app in Hlen. cbn in Hlen. lia. }
  case_bool_decide as Harr.
  { subst c. destruct (skip_ws s1) as [|c2 s2] eqn:Hws; [done|].
    destruct (skip_ws_cut _ _ _ Hws) as (w & -> & Hw & Hc2).
    case_bool_decide as Hclose.
    - subst c2. intros [= <- <-]. exists ("["%char :: w ++ ["]"%char]).
      split; [by list_norm|].
      split; [apply tame_cons; [done|done|]; by apply tame_ws_then|].
      split; [apply (firm_edges _ _ "]"%char); [done | by rewrite last_cons, last_snoc | done]|].
      intros m t Hm _. destruct m as [|m]; [cbn in Hm; lia|].
      cbn [app parse_value]. rewrite (bool_decide_eq_false_2 ("["%char = "{"%char)) by done.
      rewrite bool_decide_eq_true_2 by done.
      list_norm. rewrite skip_ws_found by done.
      by rewrite bool_decide_eq_true_2.
    - destruct (parse_elems n (c2 :: s2) []) as [[vs r']|] eqn:He; [|done].
      intros [= <- <-].
      destruct (IHE _ _ _ _ He) as (q & Hq0 & Hq & Hlast & Hext).
      destruct q as [|c2' q']; [done|]. cbn [app] in Hq0. injection Hq0 as <- ->.
      exists ("["%char :: w ++ c2 :: q').
      split; [by list_norm|].
      split; [apply tame_cons; [done|done|]; by apply tame_ws_then|].
      split.
      { apply (firm_edges _ _ "]"%char); [done | | done].
        rewrite last_cons, last_app, Hlast. done. }
      intros m t Hlen _. destruct m as [|m]; [cbn in Hlen; lia|].
      cbn [app parse_value]. rewrite (bool_decide_eq_false_2 ("["%char = "{"%char)) by done.
      rewrite bool_decide_eq_true_2 by done.
      list_norm. rewrite skip_ws_found by done.
      rewrite (bool_decide_eq_false_2 _ Hclose).
      change (c2 :: q' ++ t) with ((c2 :: q') ++ t).
      rewrite Hext; [done|]. cbn in Hlen. rewrite length_app in Hlen. cbn in *. lia. }
  intros Hs.
  destruct (parse_scalar_spec _ _ _ Hs) as (p & Hp & Htame & Hfirm & (c' & p' & -> & ? & ?) & Hext).
  exists (c' :: p'). split; [done|]. split; [done|]. split; [done|].
  intros m t Hlen Ht. destruct m as [|m]; [cbn in Hlen; lia|].
  cbn [app parse_value]. rewrite !bool_decide_eq_false_2 by done.
  apply (Hext t). destruct Ht as [->|Ht]; [by left | right; by apply boundary_stop].
Qed.

Lemma elems_step : elems_ok (S n).
Proof.
  intros s acc vs r. cbn [parse_elems].
  destruct (parse_value n s) as [[v r0]|] eqn:Hv; [|done].
  destruct (IHV _ _ _ Hv) as (p1 & -> & Hp1 & Hfirm & Hext1).
  assert (Hlen1 : (1 <= length p1)%nat).
  { destruct Hfirm as [(c & Hh & _) _]. destruct p1; [done | cbn; lia]. }
  destruct (skip_ws r0) as [|c r1] eqn:Hws; [done|].
  destruct (skip_ws_cut _ _ _ Hws) as (w & -> & Hw & Hc).
  case_bool_decide as Hclose.
  - subst c. intros [= <- <-]. exists (p1 ++ w ++ ["]"%char]).
    split; [by list_norm|].
    split; [apply tame_app; [done|]; by apply tame_ws_then|].
    split; [by rewrite !last_app|].
    intros m t Hlen. destruct m as [|m]; [lia|]. cbn [parse_elems].
    list_norm. rewrite Hext1; [| rewrite !length_app in Hlen; lia
                               | right; by apply boundary_ws_then].
    rewrite skip_ws_found by done. by rewrite bool_decide_eq_true_2.
  - case_bool_decide as Hcomma; [|done]. subst c.
    intros Hrest.
    destruct (IHE _ _ _ _ Hrest) as (q & Hq0 & Hq & Hlast & Hext).
    destruct (skip_ws_split r1) as (w' & Hr1 & Hw'). rewrite Hq0 in Hr1.
    assert (Hqt : forall t, skip_ws (w' ++ q ++ t) = q ++ t).
    { intros t. rewrite skip_ws_app by done. apply skip_ws_id.
      destruct q as [|x q']; [done|]. cbn in *. by eapply skip_ws_head. }
    subst r1. exists (p1 ++ w ++ ","%char :: w' ++ q).
    split; [by list_norm|].
    split.
    { apply tame_app; [done|]. apply tame_ws_then; [done|].
      apply tame_cons; [done|done|]. by apply tame_ws_then. }
    split; [by rewrite !last_app, last_cons, last_app, Hlast|].
    intros m t Hlen. destruct m as [|m]; [lia|]. cbn [parse_elems].
    rewrite !length_app in Hlen. cbn [length] in Hlen. rewrite length_app in Hlen.
    list_norm. rewrite Hext1; [| lia | right; by apply boundary_ws_then].
    rewrite skip_ws_found by done.
    rewrite (bool_decide_eq_false_2 (","%char = "]"%char)) by done.
    rewrite bool_decide_eq_true_2 by done.
    rewrite Hqt. apply Hext. lia.
Qed.

Lemma members_step : members_ok (S n).
Proof.
  intros s acc ps r. cbn [parse_members]. unfold scan_string.
  destruct (scan_items s []) as [[its r0]|] eqn:Hk; [|done].
  destruct (scan_items_spec _ _ _ _ Hk) as (pk & -> & Hnl & Hklast & Hkext).
  destruct (skip_ws r0) as [|c r1] eqn:Hws1; [done|].
  destruct (skip_ws_cut _ _ _ Hws1) as (w1 & -> & Hw1 & Hc).
  case_bool_decide as Hcolon; [|done]. subst c.
  destruct (skip_ws_split r1) as (w2 & Hr1 & Hw2).
  destruct (parse_value n (skip_ws r1)) as [[v r2]|] eqn:Hv; [|done].
  destruct (IHV _ _ _ Hv) as (pv & Hpv & Hpvt & Hfirm & Hextv).
  rewrite Hpv in Hr1. subst r1. clear Hpv Hws1.
  assert (Hlenv : (1 <= length pv)%nat).
  { destruct Hfirm as [(c & Hh & _) _]. destruct pv; [done | cbn; lia]. }
  destruct (skip_ws r2) as [|c2 r3] eqn:Hws3; [done|].
  destruct (skip_ws_cut _ _ _ Hws3) as (w3 & -> & Hw3 & Hc2).
  assert (Hkey : tame (quote :: pk)) by (by apply tame_one_line).
  case_bool_decide as Hclose.
  - subst c2. intros [= <- <-].
    exists (pk ++ w1 ++ ":"%char :: w2 ++ pv ++ w3 ++ ["}"%char]).
    split; [by list_norm|].
    split.
    { change (quote :: pk ++ ?x) with ((quote :: pk) ++ x).
      apply tame_app; [done|]. apply tame_ws_then; [done|].
      apply tame_cons; [done|done|]. apply tame_ws_then; [done|].
      apply tame_app; [done|]. by apply tame_ws_then. }
    split; [by rewrite !last_app, last_cons, !last_app|].
    intros m t Hlen. destruct m as [|m]; [lia|]. cbn [parse_members].
    rewrite !length_app in Hlen. cbn [length] in Hlen. rewrite !length_app in Hlen.
    list_norm. unfold scan_string. rewrite Hkext.
    rewrite skip_ws_found by done. rewrite bool_decide_eq_true_2 by done.
    rewrite skip_ws_firm by done.
    rewrite Hextv; [| lia | right; by apply boundary_ws_then].
    rewrite skip_ws_found by done. by rewrite bool_decide_eq_true_2.
  - case_bool_decide as Hcomma; [|done]. subst c2.
    destruct (skip_ws r3) as [|c3 r4] eqn:Hws4; [done|].
    destruct (skip_ws_cut _ _ _ Hws4) as (w4 & -> & Hw4 & Hc3).
    case_bool_decide as Hq; [|done]. subst c3.
    intros Hrest.
    destruct (IHM _ _ _ _ Hrest) as (q & -> & Hq & Hlast & Hext).
    exists (pk ++ w1 ++ ":"%char :: w2 ++ pv ++ w3 ++ ","%char :: w4 ++ quote :: q).
    split; [by list_norm|].
    split.
    { change (quote :: pk ++ ?x) with ((quote :: pk) ++ x).
      apply tame_app; [done|]. apply tame_ws_then; [done|].
      apply tame_cons; [done|done|]. apply tame_ws_then; [done|].
      apply tame_app; [done|]. apply tame_ws_then; [done|].
      apply tame_cons; [done|done|]. by apply tame_ws_then. }
    split; [by rewrite !last_app, last_cons, !last_app, last_cons, last_app, last_cons, Hlast|].
    intros m t Hlen. destruct m as [|m]; [lia|]. cbn [parse_members].
    rewrite !length_app in Hlen. cbn [length] in Hlen. rewrite !length_app in Hlen.
    cbn [length] in Hlen. rewrite !length_app in Hlen. cbn [length] in Hlen.
    list_norm. unfold scan_string. rewrite Hkext.
    rewrite skip_ws_found by done. rewrite bool_decide_eq_true_2 by done.
    rewrite skip_ws_firm by done.
    rewrite Hextv; [| lia | right; by apply boundary_ws_then].
    rewrite skip_ws_found by done.
    rewrite (bool_decide_eq_false_2 (","%char = "}"%char)) by done.
    rewrite bool_decide_eq_true_2 by done.
    rewrite skip_ws_found by done. rewrite bool_decide_eq_true_2 by done.
    apply Hext. lia.
Qed.

End Step.

Lemma parsers_ok n : value_ok n /\ elems_ok n /\ members_ok n.
Proof.
  induction n as [|n (IHV & IHE & IHM)].
  - by repeat split; intros ? *.
  - split; [by apply value_step | split; [by apply elems_step | by apply members_step]].
Qed.

End ParserFacts.


(** ** JSON documents, trimmed and fenced *)

Section DocumentFacts.

Import Grammar.

(** Trimming *)

Lemma lstrip_spaces w s : Forall (fun c => is_space c = true) w -> lstrip (w ++ s) = lstrip s.
Proof. induction 1 as [|c w Hc _ IH]; [done|]. cbn. by rewrite Hc. Qed.

Lemma lstrip_id c s : is_space c = false -> lstrip (c :: s) = c :: s.
Proof. intros H. cbn. by rewrite H. Qed.

Lemma strip_core w p r :
  Forall (fun c => is_space c = true) w -> Forall (fun c => is_space c = true) r ->
  firm p -> strip (w ++ p ++ r) = p.
Proof.
  intros Hw Hr [(c & Hh & Hc) (x & Hl & Hx)]. unfold strip, rstrip.
  rewrite lstrip_spaces by done.
  destruct p as [|c' p']; [done|]. cbn in Hh. simplify_eq.
  change ((c :: p') ++ r) with (c :: p' ++ r). rewrite lstrip_id by done.
  change (c :: p' ++ r) with ((c :: p') ++ r). rewrite rev_app_distr.
  rewrite lstrip_spaces by (by apply Forall_rev).
  destruct (rev (c :: p')) as [|y q] eqn:Hrev.
  { apply (f_equal (@length _)) in Hrev. rewrite length_rev in Hrev. done. }
  assert (y = x).
  { rewrite <- (rev_involutive (c :: p')), Hrev in Hl. cbn in Hl.
    rewrite last_snoc in Hl. by simplify_eq. }
  subst y. rewrite lstrip_id by done. by rewrite <- Hrev, rev_involutive.
Qed.

Lemma strip_firm p : firm p -> strip p = p.
Proof.
  intros Hp. rewrite <- (strip_core [] p [] ltac:(done) ltac:(done) Hp) at 2.
  by rewrite app_nil_r.
Qed.

(** Lines *)

Lemma split_nl_cons s : exists l ls, split_nl s = l :: ls.
Proof.
  induction s as [|c s (l & ls & IH)]; [by eexists _, _|]. cbn.
  case_bool_decide; [by eexists _, _|]. rewrite IH. by eexists _, _.
Qed.

Lemma split_nl_app a b : split_nl (a ++ nl :: b) = split_nl a ++ split_nl b.
Proof.
  induction a as [|c a IH]; cbn.
  - by rewrite bool_decide_eq_true_2.
  - case_bool_decide; [by rewrite IH|]. rewrite IH.
    destruct (split_nl_cons a) as (l & ls & ->). done.
Qed.

Lemma split_nl_line a : Forall (fun c => c <> nl) a -> split_nl a = [a].
Proof.
  induction 1 as [|c a Hc _ IH]; [done|]. cbn.
  by rewrite (bool_decide_eq_false_2 _ Hc), IH.
Qed.

Lemma join_nl_cons c l ls : join_nl ((c :: l) :: ls) = c :: join_nl (l :: ls).
Proof. by destruct ls. Qed.

Lemma join_split s : join_nl (split_nl s) = s.
Proof.
  induction s as [|c s IH]; [done|]. cbn [split_nl].
  destruct (split_nl_cons s) as (l & ls & Hs). rewrite Hs in *.
  case_bool_decide as Hc.
  - subst c. change (join_nl ([] :: l :: ls)) with ([] ++ nl :: join_nl (l :: ls)).
    cbn [app]. f_equal. exact IH.
  - rewrite join_nl_cons. f_equal. exact IH.
Qed.

Lemma inner_between {A} (x y : A) (l : list A) : inner ([x] ++ l ++ [y]) = l.
Proof. unfold inner. cbn. by rewrite removelast_last. Qed.

Lemma startswith_fence_head l : startswith fence l = true -> head l = Some tick.
Proof.
  destruct l as [|c l]; [done|]. unfold fence, py. cbn.
  intros [H _]%andb_prop. apply bool_decide_eq_true in H. by subst.
Qed.

Lemma tame_from_lines b s :
  tame_from b s = true ->
  exists l ls,
    split_nl s = l :: ls
    /\ (b = true -> head l <> Some tick)
    /\ Forall (fun l => head l <> Some tick) ls.
Proof.
  revert b. induction s as [|c s IH]; intros b; cbn [tame_from split_nl].
  - intros _. exists [], []. by repeat split.
  - intros [Hc Hs]%andb_prop. destruct (IH _ Hs) as (l & ls & Hsplit & Hl & Hls).
    rewrite Hsplit. case_bool_decide as Hnl.
    + exists [], (l :: ls). split; [done|]. split; [done|]. constructor; [by apply Hl | done].
    + exists (c :: l), ls. split; [done|]. split; [|done].
      intros ->. cbn in *. apply negb_true_iff, bool_decide_eq_false in Hc.
      by intros [= ->].
Qed.

Lemma tame_lines s :
  tame s -> List.filter (fun l => negb (startswith fence l)) (split_nl s) = split_nl s.
Proof.
  intros (l & ls & -> & Hl & Hls)%tame_from_lines.
  assert (Hall : Forall (fun l => head l <> Some tick) (l :: ls))
    by (constructor; [by apply Hl | done]).
  clear Hl Hls. induction Hall as [|x xs Hx _ IH]; [done|]. cbn.
  destruct (startswith fence x) eqn:E; [by apply startswith_fence_head in E|].
  cbn. by rewrite IH.
Qed.

Lemma tame_head p : tame p -> startswith fence p = false.
Proof.
  intros H. destruct (startswith fence p) eqn:E; [|done].
  apply startswith_fence_head in E. destruct p as [|c p]; [done|]. cbn in *. simplify_eq.
  done.
Qed.

(** JSON documents *)

Lemma ws_spaces w :
  Forall (fun c => is_json_ws c = true) w -> Forall (fun c => is_space c = true) w.
Proof. intros H. eapply Forall_impl; [done|]. apply json_ws_space. Qed.

(** A text that [json.loads] accepts is a value between two runs of JSON
    whitespace; the value alone is accepted with the same result. *)
Lemma json_loads_core d v :
  json_loads d = Some v ->
  exists w p r,
    d = w ++ p ++ r
    /\ Forall (fun c => is_json_ws c = true) w
    /\ Forall (fun c => is_json_ws c = true) r
    /\ tame p /\ firm p
    /\ json_loads p = Some v.
Proof.
  unfold json_loads.
  destruct (parse_value (fuel_for d) (skip_ws d)) as [[v' r]|] eqn:Hp; [|done].
  destruct (skip_ws r) eqn:Hr; [|done]. intros [= ->].
  destruct (proj1 (parsers_ok _) _ _ _ Hp) as (p & Hd & Htame & Hfirm & Hext).
  destruct (skip_ws_split d) as (w & Hw & Hws). rewrite Hd in Hw.
  exists w, p, r. split; [done|]. split; [done|]. split; [by apply skip_ws_all|].
  split; [done|]. split; [done|].
  assert (Hsk : skip_ws p = p).
  { apply skip_ws_id. pose proof (firm_head_not_ws p [] Hfirm) as H.
    by rewrite app_nil_r in H. }
  pose proof (Hext (fuel_for p) [] ltac:(unfold fuel_for; lia) ltac:(by right)) as H.
  rewrite app_nil_r in H. by rewrite Hsk, H.
Qed.

(** Fuel is no limit: a complete parse found with any fuel is the one
    [json_loads] returns. *)
Lemma json_loads_any_fuel n s v r :
  parse_value n (skip_ws s) = Some (v, r) -> skip_ws r = [] -> json_loads s = Some v.
Proof.
  intros Hp Hr. destruct (proj1 (parsers_ok _) _ _ _ Hp) as (p & Hs & _ & _ & Hext).
  unfold json_loads. rewrite Hs, (Hext (fuel_for s) r); [by rewrite Hr | | by left].
  destruct (skip_ws_split s) as (w & Hw & _). rewrite Hs in Hw.
  apply (f_equal (@length _)) in Hw. rewrite !length_app in Hw. unfold fuel_for. lia.
Qed.

Lemma json_loads_tame d v : json_loads d = Some v -> tame d.
Proof.
  intros (w & p & r & -> & Hw & Hr & Hp & _)%json_loads_core.
  apply tame_app; [by apply tame_ws|]. apply tame_app; [done | by apply tame_ws].
Qed.

Lemma json_loads_strip d v : json_loads d = Some v -> json_loads (strip d) = Some v.
Proof.
  intros (w & p & r & -> & Hw & Hr & Hp & Hf & Hv)%json_loads_core.
  by rewrite strip_core by (done || by apply ws_spaces).
Qed.

Lemma json_loads_strip_head d v :
  json_loads d = Some v -> startswith fence (strip d) = false.
Proof.
  intros (w & p & r & -> & Hw & Hr & Hp & Hf & Hv)%json_loads_core.
  rewrite strip_core by (done || by apply ws_spaces). by apply tame_head.
Qed.

(** Fenced documents *)

Lemma fenced_firm lang d : firm (fenced lang d).
Proof.
  split; [exists tick; split; reflexivity|]. exists tick. split; [|reflexivity].
  unfold fenced. repeat (rewrite last_app || rewrite last_cons).
  change (last fence) with (Some tick). reflexivity.
Qed.

Lemma fenced_lines lang d :
  Forall (fun c => c <> nl) lang ->
  split_nl (fenced lang d) = [fence ++ lang] ++ split_nl d ++ [fence].
Proof.
  intros Hl. unfold fenced. rewrite app_assoc, split_nl_app, split_nl_app.
  rewrite (split_nl_line (fence ++ lang)), (split_nl_line fence); [done | |].
  - unfold fence, py. cbn. by repeat constructor.
  - apply Forall_app. split; [|done]. unfold fence, py. cbn. by repeat constructor.
Qed.

Lemma analyzer_clean_fenced lang d :
  Forall (fun c => c <> nl) lang -> LLMAnalyzer.clean (fenced lang d) = d.
Proof.
  intros Hl. unfold LLMAnalyzer.clean. rewrite strip_firm by apply fenced_firm.
  assert (Hs : startswith fence (fenced lang d) = true) by apply startswith_app.
  rewrite Hs, fenced_lines by done. by rewrite inner_between, join_split.
Qed.

Lemma validator_clean_fenced lang d :
  Forall (fun c => c <> nl) lang -> tame d -> LLMValidator.clean (fenced lang d) = d.
Proof.
  intros Hl Hd. unfold LLMValidator.clean. rewrite strip_firm by apply fenced_firm.
  assert (Hs : startswith fence (fenced lang d) = true) by apply startswith_app.
  rewrite Hs, fenced_lines by done.
  rewrite !List.filter_app. cbn [List.filter].
  assert (H1 : startswith fence (fence ++ lang) = true) by apply startswith_app.
  assert (H2 : startswith fence fence = true) by done.
  rewrite H1, H2. cbn [negb app]. rewrite app_nil_r, tame_lines by done. apply join_split.
Qed.

End DocumentFacts.

(** C8.  For a JSON document [d] (a text [json.loads] accepts) and an
    opening fence line with any language tag, parsing the document between
    the opening fence line and a closing fence line gives the same result
    as parsing the document itself, under the analysis schema and under
    the validation schema. *)
Theorem fenced_document_parses_alike (d lang : str) (v : json) (article_id : pyid) :
  json_loads d = Some v ->
  Forall (fun c => c <> nl) lang ->
  LLMAnalyzer._parse_response (Grammar.fenced lang d) article_id
  = LLMAnalyzer._parse_response d article_id
  /\ LLMValidator._parse_validation (JStr (Grammar.fenced lang d)) article_id
     = LLMValidator._parse_validation (JStr d) article_id.
Proof.
  intros Hd Hlang.
  pose proof (json_loads_strip d v Hd) as Hstrip.
  pose proof (json_loads_strip_head d v Hd) as Hhead.
  split.
  - unfold LLMAnalyzer._parse_response, LLMAnalyzer.parse_response_body.
    rewrite analyzer_clean_fenced by done.
    unfold LLMAnalyzer.clean. rewrite Hhead. unfold loads. by rewrite Hd, Hstrip.
  - unfold LLMValidator._parse_validation, LLMValidator.parse_validation_text.
    rewrite validator_clean_fenced by (done || by eapply json_loads_tame).
    unfold LLMValidator.clean. rewrite Hhead. by rewrite Hd, Hstrip.
Qed.

Lemma fenced_document_parses_alike_witness :
  LLMAnalyzer._parse_response (Grammar.fenced (py "json") Samples.reply) (IdInt 1)
  = LLMAnalyzer._parse_response Samples.reply (IdInt 1)
  /\ LLMValidator._parse_validation (JStr (Grammar.fenced (py "json") Samples.reply)) (IdInt 1)
     = LLMValidator._parse_validation (JStr Samples.reply) (IdInt 1).
Proof.
  apply (fenced_document_parses_alike Samples.reply (py "json")
           (JObj [(py "gist", JStr (py "Parliament opened its budget session."));
                  (py "sentiment", JStr (py "Positive "));
                  (py "tone", JStr (py "formal"))]) (IdInt 1)).
  - vm_compute. reflexivity.
  - unfold py. cbn. repeat constructor; discriminate.
Defined.

(* ------------------------------------------------------------------ *)
(** * Further properties *)

(** ** Trimming, once more *)

Section StripFacts.

Import Grammar.

Lemma lstrip_head s :
  match lstrip s with [] => True | c :: _ => is_space c = false end.
Proof.
  induction s as [|c s IH]; [done|]. cbn. destruct (is_space c) eqn:Hc; [done|]. done.
Qed.

Lemma lstrip_split s :
  exists w, s = w ++ lstrip s /\ Forall (fun c => is_space c = true) w.
Proof.
  induction s as [|c s (w & Hs & Hw)]; [by exists []|]. cbn.
  destruct (is_space c) eqn:Hc.
  - exists (c :: w). split; [cbn; by f_equal | by constructor].
  - by exists [].
Qed.

Lemma strip_split s :
  exists w r, s = w ++ strip s ++ r
    /\ Forall (fun c => is_space c = true) w /\ Forall (fun c => is_space c = true) r.
Proof.
  destruct (lstrip_split s) as (w & Hs & Hw).
  destruct (lstrip_split (rev (lstrip s))) as (r & Hr & Hrw).
  exists w, (rev r). split; [|split; [done | by apply Forall_rev]].
  unfold strip, rstrip. rewrite <- rev_app_distr, <- Hr, rev_involutive. done.
Qed.

Lemma strip_shape s : strip s = [] \/ firm (strip s).
Proof.
  destruct (strip s) as [|c p] eqn:Hp; [by left|]. right.
  unfold strip, rstrip in Hp.
  pose proof (lstrip_head (rev (lstrip s))) as Hlast.
  destruct (lstrip_split (rev (lstrip s))) as (r & Hr & _).
  pose proof (lstrip_head s) as Hhead.
  assert (Hu : lstrip (rev (lstrip s)) = rev (c :: p)).
  { by rewrite <- Hp, rev_involutive. }
  rewrite Hu in Hr, Hlast.
  apply (f_equal (@rev _)) in Hr. rewrite rev_involutive, rev_app_distr, rev_involutive in Hr.
  split.
  - exists c. split; [done|]. rewrite Hr in Hhead. exact Hhead.
  - destruct (rev (c :: p)) as [|x q] eqn:Hq.
    { apply (f_equal (@length _)) in Hq. rewrite length_rev in Hq. done. }
    exists x. split; [|done].
    rewrite <- (rev_involutive (c :: p)), Hq. cbn. by rewrite last_snoc.
Qed.

Lemma strip_idem s : strip (strip s) = strip s.
Proof.
  destruct (strip_shape s) as [-> | Hf]; [done | by apply strip_firm].
Qed.

Lemma strip_length s : (length (strip s) <= length s)%nat.
Proof.
  destruct (strip_split s) as (w & r & Hs & _).
  rewrite Hs at 2. rewrite !length_app. lia.
Qed.

End StripFacts.

(** ** The analysis stage, whatever the model answers *)

Section AnalyzerOutcomes.

Import LLMAnalyzer.

Variable model : nat -> analysis_prompt -> generated.
Variable model_name : str.

Lemma parse_response_body_ok text r :
  parse_response_body text = Ok r ->
  exists d g s t,
    json_loads (clean text) = Some (JObj d)
    /\ dict_get d (py "gist") = Some (JStr g)
    /\ dict_get d (py "sentiment") = Some (JStr s)
    /\ dict_get d (py "tone") = Some (JStr t)
    /\ r = {| p_gist := strip g;
              p_sentiment := Parsing.normalized valid_sentiments (py "neutral") s;
              p_tone := Parsing.normalized valid_tones (py "informative") t |}.
Proof.
  unfold parse_response_body, loads.
  destruct (json_loads (clean text)) as [v|]; [|done]. cbn [bind].
  destruct v as [| b | x | s | l | d]; try done.
  - cbn [check_required required_fields py_in bind getitem].
    repeat (case_match; try done).
  - cbn [check_required required_fields py_in bind getitem].
    repeat (case_match; try done).
  - cbn [check_required required_fields py_in bind getitem].
    destruct (dict_get d (py "gist")) as [vg|] eqn:Hg;
      [rewrite bool_decide_eq_true_2 by (by eexists)
      | rewrite bool_decide_eq_false_2 by (by intros [? ?]); done].
    destruct (dict_get d (py "sentiment")) as [vs|] eqn:Hs;
      [rewrite bool_decide_eq_true_2 by (by eexists)
      | rewrite bool_decide_eq_false_2 by (by intros [? ?]); done].
    destruct (dict_get d (py "tone")) as [vt|] eqn:Ht;
      [rewrite bool_decide_eq_true_2 by (by eexists)
      | rewrite bool_decide_eq_false_2 by (by intros [? ?]); done].
    cbn [bind].
    destruct vs as [| ? | ? | s | ? | ?]; try done. cbn [py_lower bind].
    destruct vt as [| ? | ? | t | ? | ?]; try done. cbn [py_lower bind].
    destruct vg as [| ? | ? | g | ? | ?]; try done. cbn [py_strip bind].
    intros [= <-]. by exists d, g, s, t.
Qed.

Lemma normalized_in vocabulary fallback s :
  fallback ∈ vocabulary -> Parsing.normalized vocabulary fallback s ∈ vocabulary.
Proof. intros Hf. unfold Parsing.normalized. by case_bool_decide. Qed.

Lemma neutral_valid : py "neutral" ∈ valid_sentiments.
Proof. apply list_elem_of_In. cbn. tauto. Qed.

Lemma informative_valid : py "informative" ∈ valid_tones.
Proof. apply list_elem_of_In. cbn. tauto. Qed.

Lemma parse_response_ok text aid r :
  _parse_response text aid = Ok r ->
  p_sentiment r ∈ valid_sentiments /\ p_tone r ∈ valid_tones
  /\ strip (p_gist r) = p_gist r.
Proof.
  unfold _parse_response.
  destruct (parse_response_body text) as [r'|e] eqn:Hb; [|by case_match].
  intros [= <-]. apply parse_response_body_ok in Hb as (d & g & s & t & _ & _ & _ & _ & ->).
  cbn. split; [apply normalized_in, neutral_valid|].
  split; [apply normalized_in, informative_valid | apply strip_idem].
Qed.

Lemma analysis_success_vocabulary aid ttl g r :
  Retry.analysis_success model_name aid ttl g = Some r -> Shape.in_vocabulary r.
Proof.
  unfold Retry.analysis_success. destruct g as [e|t]; [done|].
  case_bool_decide; [done|].
  destruct (_parse_response t aid) as [a|] eqn:Hp; [|done].
  intros [= <-]. apply parse_response_ok in Hp as (Hs & Ht & _).
  by eexists _, _, _.
Qed.

Lemma failed_vocabulary a e : Shape.in_vocabulary (failed a e).
Proof.
  eexists _, _, _. repeat split; [apply neutral_valid | apply informative_valid].
Qed.

Lemma analysis_failure_pause aid attempt g e d :
  Retry.analysis_failure aid attempt g = Some (e, d) -> d = 1 \/ d = 2 ^ attempt.
Proof.
  unfold Retry.analysis_failure. repeat case_match; intros; simplify_eq; tauto.
Qed.

(** What a run of the loop leaves in the world, and what it returns. *)
Lemma attempts_trace aid ttl p rc todo :
  forall attempt w,
    0 <= attempt -> attempt + Z.of_nat (S todo) = rc ->
    exists k pause,
      (k <= todo)%nat
      /\ (attempts model model_name aid ttl p rc (S todo) attempt w).2
         = {| calls := calls w + S k;
              log := log w ++ Retry.schedule (Generate p) pause k |}
      /\ (forall i, (i < k)%nat -> pause i = 1 \/ pause i = 2 ^ (attempt + Z.of_nat i))
      /\ match (attempts model model_name aid ttl p rc (S todo) attempt w).1 with
         | Ok None => False
         | Ok (Some r) =>
             Retry.analysis_success model_name aid ttl (model (calls w + k)%nat p) = Some r
         | Raise e => k = todo /\ exists cause, e = failed_after aid rc cause
         end.
Proof.
  induction todo as [|t IH]; intros attempt w Ha Hrc;
    rewrite attempts_step by done; cbn zeta;
    destruct (Retry.analysis_success _ _ _ _) as [r|] eqn:Hs.
  - exists O, (fun _ => 1). cbn. rewrite Nat.add_0_r.
    split; [lia|]. split; [unfold record, Retry.schedule; cbn; do 2 f_equal; lia|].
    split; [lia | done].
  - destruct (Retry.analysis_failure _ _ _) as [[e d]|] eqn:Hf.
    + destruct (Z.ltb_spec attempt (rc - 1)); [lia|].
      exists O, (fun _ => 1). cbn.
      split; [lia|]. split; [unfold record, Retry.schedule; cbn; do 2 f_equal; lia|].
      split; [lia|]. split; [done | by eexists].
    + apply (analysis_success_or_failure model_name aid ttl) in Hf as [? ?]. congruence.
  - exists O, (fun _ => 1). cbn. rewrite Nat.add_0_r.
    split; [lia|]. split; [unfold record, Retry.schedule; cbn; do 2 f_equal; lia|].
    split; [lia | done].
  - destruct (Retry.analysis_failure _ _ _) as [[e d]|] eqn:Hf.
    + destruct (Z.ltb_spec attempt (rc - 1)); [|lia].
      destruct (IH (attempt + 1) (record (Sleep d) (record (Generate p) w))
                  ltac:(lia) ltac:(lia)) as (k & pause & Hk & Hw & Hp & Hout).
      exists (S k), (fun i => match i with O => d | S j => pause j end).
      split; [lia|]. split; [|split].
      * rewrite Hw, schedule_S. cbn. f_equal; [lia|]. by rewrite <- !app_assoc.
      * intros [|i] Hi.
        -- rewrite Z.add_0_r. by eapply analysis_failure_pause.
        -- replace (attempt + Z.of_nat (S i)) with (attempt + 1 + Z.of_nat i) by lia.
           apply Hp. lia.
      * cbn [calls record] in Hout.
        replace (calls w + S k)%nat with (S (calls w) + k)%nat by lia.
        destruct (attempts _ _ _ _ _ _ _ _ _).1 as [[r|]|e']; [done | done |].
        destruct Hout as [-> Hc]. done.
    + apply (analysis_success_or_failure model_name aid ttl) in Hf as [? ?]. congruence.
Qed.

Lemma analyze_article_cases a rc w :
  (Shape.too_short a
   /\ exists msg, analyze_article model model_name a rc w = (Raise (ValueError msg), w))
  \/ (~ Shape.too_short a
      /\ exists t, art_full_text a = Some t
         /\ analyze_article model model_name a rc w
            = attempts model model_name (id_or a (IdStr (py "unknown")))
                (get (art_title a) (py "No title"))
                (_build_analysis_prompt (get (art_title a) (py "No title")) t)
                rc (Z.to_nat rc) 0 w).
Proof.
  destruct (art_full_text a) as [t|] eqn:Ht.
  - destruct (Nat.ltb_spec (length (strip t)) 30) as [Hlt|Hge].
    + left. split; [right; eauto|]. apply analyze_article_guarded. right. eauto.
    + right. split.
      * intros [Hn | (t' & Ht' & Hlen)]; [congruence|]. simplify_eq. lia.
      * exists t. split; [done|]. by apply analyze_article_admitted.
  - left. split; [by left|]. apply analyze_article_guarded. by left.
Qed.

End AnalyzerOutcomes.

Section AnalyzerBatches.

Import LLMAnalyzer.

Variable model : nat -> analysis_prompt -> generated.
Variable model_name : str.







(** One call, seen from the world: nothing happened, or requests and
    pauses alternate, ending with a request. *)
Lemma analyze_article_world a rc w :
  (analyze_article model model_name a rc w).2 = w
  \/ exists t k pause,
       art_full_text a = Some t /\ Z.of_nat k < rc
       /\ (analyze_article model model_name a rc w).2
          = {| calls := calls w + S k;
               log := log w ++ Retry.schedule
                        (Generate (_build_analysis_prompt (get (art_title a) (py "No title")) t))
                        pause k |}
       /\ forall i, (i < k)%nat -> pause i = 1 \/ pause i = 2 ^ Z.of_nat i.
Proof.
  destruct (analyze_article_cases model model_name a rc w)
    as [[_ [msg ->]] | [_ (t & Ht & ->)]]; [by left|].
  destruct (Z.to_nat rc) as [|todo] eqn:Hrc; [by left|]. right.
  destruct (attempts_trace model model_name (id_or a (IdStr (py "unknown")))
              (get (art_title a) (py "No title"))
              (_build_analysis_prompt (get (art_title a) (py "No title")) t)
              rc todo 0 w ltac:(lia) ltac:(lia)) as (k & pause & Hk & Hw & Hp & _).
  exists t, k, pause. split; [done|]. split; [lia|]. split; [done|].
  intros i Hi. specialize (Hp i Hi). by rewrite Z.add_0_l in Hp.
Qed.

Lemma analyze_article_calls a w :
  (calls w <= calls (analyze_article model model_name a 3 w).2 <= calls w + 3)%nat.
Proof.
  destruct (analyze_article_world a 3 w) as [-> | (t & k & pause & _ & Hk & -> & _)];
    cbn; lia.
Qed.

Lemma time_sleep_calls d w : calls (time_sleep d w).2 = calls w.
Proof. unfold time_sleep. by destruct (d <? 0). Qed.

Lemma batch_loop_calls delay n todo :
  forall idx results w,
    (calls w <= calls (batch_loop model model_name delay n idx todo results w).2
     <= calls w + 3 * length todo)%nat.
Proof.
  induction todo as [|a rest IH]; intros idx results w; [cbn; lia|].
  cbn [batch_loop length].
  pose proof (analyze_article_calls a w) as Ha.
  destruct (analyze_article model model_name a 3 w) as [[result|e] w1]; cbn [snd] in Ha.
  - destruct (idx <? n - 1).
    + pose proof (time_sleep_calls delay w1) as Hs.
      destruct (time_sleep delay w1) as [[[]|e] w2]; cbn [snd] in Hs.
      * specialize (IH (idx + 1) (results ++ [result]) w2). lia.
      * specialize (IH (idx + 1) ((results ++ [result]) ++ [Some (failed a e)]) w2). lia.
    + specialize (IH (idx + 1) (results ++ [result]) w1). lia.
  - specialize (IH (idx + 1) (results ++ [Some (failed a e)]) w1). lia.
Qed.

Lemma analyze_article_answer a w r w' :
  analyze_article model model_name a 3 w = (Ok (Some r), w') -> Shape.in_vocabulary r.
Proof.
  destruct (analyze_article_cases model model_name a 3 w)
    as [[_ [msg ->]] | [_ (t & Ht & ->)]]; [done|].
  change (Z.to_nat 3) with 3%nat. intros Hcall.
  destruct (attempts_trace model model_name (id_or a (IdStr (py "unknown")))
              (get (art_title a) (py "No title"))
              (_build_analysis_prompt (get (art_title a) (py "No title")) t)
              3 2 0 w ltac:(lia) ltac:(lia)) as (k & pause & _ & _ & _ & Hout).
  rewrite Hcall in Hout. cbn in Hout. by eapply analysis_success_vocabulary.
Qed.

Lemma batch_loop_vocabulary delay n todo :
  forall idx results w,
    Forall (fun o => exists r, o = Some r /\ Shape.in_vocabulary r) results ->
    Forall (fun o => exists r, o = Some r /\ Shape.in_vocabulary r)
      (batch_loop model model_name delay n idx todo results w).1.
Proof.
  induction todo as [|a rest IH]; intros idx results w Hres; [done|].
  cbn [batch_loop].
  assert (Hfail : forall e,
    Forall (fun o => exists r, o = Some r /\ Shape.in_vocabulary r) [Some (failed a e)]).
  { intros e. repeat constructor. eexists. split; [done | apply failed_vocabulary]. }
  pose proof (analyze_article_default model model_name a w) as Hdef.
  destruct (analyze_article model model_name a 3 w) as [[[r|]|e] w1] eqn:Hcall; [| done |].
  - assert (Forall (fun o => exists r, o = Some r /\ Shape.in_vocabulary r)
              (results ++ [Some r])).
    { apply Forall_app. split; [done|]. repeat constructor. eexists. split; [done|].
      by eapply analyze_article_answer. }
    destruct (idx <? n - 1); [|by apply IH].
    destruct (time_sleep delay w1) as [[[]|e] w2]; apply IH; [done|].
    apply Forall_app. split; [done | apply Hfail].
  - apply IH. apply Forall_app. split; [done | apply Hfail].
Qed.

End AnalyzerBatches.

(** ** The validation stage, whatever the endpoint answers *)

Section ValidatorOutcomes.

Import LLMValidator.

Variable endpoint : nat -> validation_prompt -> posted.
Variable model : str.

Lemma validation_failure_pause aid ttl attempt r e d :
  Retry.validation_failure model aid ttl attempt r = Some (e, d) ->
  d = 1 \/ d = 2 \/ d = 2 ^ attempt.
Proof.
  unfold Retry.validation_failure. repeat case_match; intros; simplify_eq; tauto.
Qed.

Lemma final_error_typed rc e : exists msg, final_error rc e = LLMValidatorError msg.
Proof. unfold final_error. repeat case_match; by eexists. Qed.

Lemma read_response_model r aid ttl v :
  read_response model r aid ttl = Ok v ->
  validator_model v = Some model /\ is_Some (raw_validation v).
Proof.
  unfold read_response, bind. repeat case_match; intros; simplify_eq; cbn; eauto.
Qed.

Lemma vattempts_trace aid ttl p rc todo :
  forall attempt w,
    0 <= attempt -> attempt + Z.of_nat (S todo) = rc ->
    exists k pause,
      (k <= todo)%nat
      /\ (attempts endpoint model aid ttl p rc (S todo) attempt w).2
         = {| calls := calls w + S k;
              log := log w ++ Retry.schedule (Post p) pause k |}
      /\ (forall i, (i < k)%nat ->
            pause i = 1 \/ pause i = 2 \/ pause i = 2 ^ (attempt + Z.of_nat i))
      /\ match (attempts endpoint model aid ttl p rc (S todo) attempt w).1 with
         | Ok None => False
         | Ok (Some v) =>
             Retry.validation_success model aid ttl (endpoint (calls w + k)%nat p) = Some v
         | Raise e => k = todo /\ exists cause, e = final_error rc cause
         end.
Proof.
  induction todo as [|t IH]; intros attempt w Ha Hrc;
    rewrite vattempts_step by done; cbn zeta;
    destruct (Retry.validation_success _ _ _ _) as [r|] eqn:Hs.
  - exists O, (fun _ => 1). cbn. rewrite Nat.add_0_r.
    split; [lia|]. split; [unfold record, Retry.schedule; cbn; do 2 f_equal; lia|].
    split; [lia | done].
  - destruct (Retry.validation_failure _ _ _ _ _) as [[e d]|] eqn:Hf.
    + destruct (Z.ltb_spec attempt (rc - 1)); [lia|].
      exists O, (fun _ => 1). cbn.
      split; [lia|]. split; [unfold record, Retry.schedule; cbn; do 2 f_equal; lia|].
      split; [lia|]. split; [done | by eexists].
    + apply validation_success_or_failure in Hf as [? ?]. congruence.
  - exists O, (fun _ => 1). cbn. rewrite Nat.add_0_r.
    split; [lia|]. split; [unfold record, Retry.schedule; cbn; do 2 f_equal; lia|].
    split; [lia | done].
  - destruct (Retry.validation_failure _ _ _ _ _) as [[e d]|] eqn:Hf.
    + destruct (Z.ltb_spec attempt (rc - 1)); [|lia].
      destruct (IH (attempt + 1) (record (Sleep d) (record (Post p) w))
                  ltac:(lia) ltac:(lia)) as (k & pause & Hk & Hw & Hp & Hout).
      exists (S k), (fun i => match i with O => d | S j => pause j end).
      split; [lia|]. split; [|split].
      * rewrite Hw, schedule_S. cbn. f_equal; [lia|]. by rewrite <- !app_assoc.
      * intros [|i] Hi.
        -- rewrite Z.add_0_r. by eapply validation_failure_pause.
        -- replace (attempt + Z.of_nat (S i)) with (attempt + 1 + Z.of_nat i) by lia.
           apply Hp. lia.
      * cbn [calls record] in Hout.
        replace (calls w + S k)%nat with (S (calls w) + k)%nat by lia.
        destruct (attempts _ _ _ _ _ _ _ _ _).1 as [[r|]|e']; [done | done |].
        destruct Hout as [-> Hc]. done.
    + apply validation_success_or_failure in Hf as [? ?]. congruence.
Qed.

Lemma validate_analysis_cases a an rc w :
  (Shape.incomplete a an
   /\ exists msg, validate_analysis endpoint model a an rc w = (Raise (ValueError msg), w))
  \/ (~ Shape.incomplete a an
      /\ validate_analysis endpoint model a an rc w
         = attempts endpoint model
             (id_or a (get (LLMAnalyzer.article_id an) (IdStr (py "unknown"))))
             (get (art_title a) (py "No title")) (_build_validation_prompt a an)
             rc (Z.to_nat rc) 0 w).
Proof.
  unfold Shape.incomplete.
  destruct (art_full_text a) as [t|] eqn:Ht.
  - destruct (LLMAnalyzer.gist an) as [g|] eqn:Hg.
    + destruct (LLMAnalyzer.sentiment an) as [s|] eqn:Hs.
      * right. split; [by intros [?|[?|?]]|]. by eapply validate_analysis_admitted.
      * left. split; [tauto|].
        unfold validate_analysis, article_empty, LLMAnalyzer.analysis_empty.
        rewrite Ht, Hg, Hs. cbn. rewrite !orb_true_r.
        destruct (art_id a), (art_title a); cbn; by eexists.
    + left. split; [tauto|].
      unfold validate_analysis, article_empty, LLMAnalyzer.analysis_empty.
      rewrite Ht, Hg. cbn. rewrite !orb_true_r.
      destruct (art_id a), (art_title a); cbn; by eexists.
  - left. split; [tauto|]. unfold validate_analysis. rewrite Ht. cbn. rewrite orb_true_r.
    by eexists.
Qed.

Lemma validate_analysis_world a an rc w :
  (validate_analysis endpoint model a an rc w).2 = w
  \/ exists k pause,
       Z.of_nat k < rc
       /\ (validate_analysis endpoint model a an rc w).2
          = {| calls := calls w + S k;
               log := log w ++ Retry.schedule (Post (_build_validation_prompt a an)) pause k |}
       /\ forall i, (i < k)%nat ->
            pause i = 1 \/ pause i = 2 \/ pause i = 2 ^ Z.of_nat i.
Proof.
  destruct (validate_analysis_cases a an rc w) as [[_ [msg ->]] | [_ ->]]; [by left|].
  destruct (Z.to_nat rc) as [|todo] eqn:Hrc; [by left|]. right.
  destruct (vattempts_trace
              (id_or a (get (LLMAnalyzer.article_id an) (IdStr (py "unknown"))))
              (get (art_title a) (py "No title")) (_build_validation_prompt a an)
              rc todo 0 w ltac:(lia) ltac:(lia)) as (k & pause & Hk & Hw & Hp & _).
  exists k, pause. split; [lia|]. split; [done|].
  intros i Hi. specialize (Hp i Hi). by rewrite Z.add_0_l in Hp.
Qed.

Lemma validate_analysis_calls a an w :
  (calls w <= calls (validate_analysis endpoint model a an 3 w).2 <= calls w + 3)%nat.
Proof.
  destruct (validate_analysis_world a an 3 w) as [-> | (k & pause & Hk & -> & _)];
    cbn; lia.
Qed.

Lemma vbatch_loop_calls delay n todo :
  forall idx results w,
    (calls w <= calls (batch_loop endpoint model delay n idx todo results w).2
     <= calls w + 3 * length todo)%nat.
Proof.
  induction todo as [|[a an] rest IH]; intros idx results w; [cbn; lia|].
  cbn [batch_loop length].
  pose proof (validate_analysis_calls a an w) as Ha.
  destruct (validate_analysis endpoint model a an 3 w) as [[result|e] w1]; cbn [snd] in Ha.
  - destruct (idx <? n - 1).
    + pose proof (time_sleep_calls delay w1) as Hs.
      destruct (time_sleep delay w1) as [[[]|e] w2]; cbn [snd] in Hs.
      * specialize (IH (idx + 1) (results ++ [result]) w2). lia.
      * specialize (IH (idx + 1) ((results ++ [result]) ++ [Some (failed a e)]) w2). lia.
    + specialize (IH (idx + 1) (results ++ [result]) w1). lia.
  - specialize (IH (idx + 1) (results ++ [Some (failed a e)]) w1). lia.
Qed.

End ValidatorOutcomes.


(** X2.  Every entry of the list [analyze_batch] returns is a record with a
    gist, a sentiment among positive, negative and neutral, and a tone among
    the eight tones: for every list of articles, every behaviour of the
    model and every delay.  The record of a failed article is one of them. *)
Theorem analyze_batch_in_vocabulary
    (model : nat -> analysis_prompt -> generated) (model_name : str)
    (articles : list article) (delay : Z) (w : world) :
  Forall (fun o => exists r, o = Some r /\ Shape.in_vocabulary r)
    (LLMAnalyzer.analyze_batch model model_name articles delay w).1.
Proof. unfold LLMAnalyzer.analyze_batch. by apply batch_loop_vocabulary. Qed.


(** X4.  What [analyze_article] does to the world, for every article,
    budget and model: nothing, or [k + 1] requests with the same prompt
    separated by [k] pauses, where [k] is less than the budget.  There is
    no pause before the first request and none after the last, and the
    pause after request [i] is one second or [2^i] seconds. *)
Theorem analyze_article_trace
    (model : nat -> analysis_prompt -> generated) (model_name : str)
    (a : article) (retry_count : Z) (w : world) :
  (LLMAnalyzer.analyze_article model model_name a retry_count w).2 = w
  \/ exists t k pause,
       art_full_text a = Some t /\ Z.of_nat k < retry_count
       /\ (LLMAnalyzer.analyze_article model model_name a retry_count w).2
          = {| calls := calls w + S k;
               log := log w ++ Retry.schedule
                        (Generate (LLMAnalyzer._build_analysis_prompt
                                     (get (art_title a) (py "No title")) t))
                        pause k |}
       /\ forall i, (i < k)%nat -> pause i = 1 \/ pause i = 2 ^ Z.of_nat i.
Proof. apply analyze_article_world. Qed.

(** X5.  [analyze_batch] sends at most three requests per article, for
    every list of articles, every behaviour of the model and every delay. *)
Theorem analyze_batch_request_bound
    (model : nat -> analysis_prompt -> generated) (model_name : str)
    (articles : list article) (delay : Z) (w : world) :
  (calls w <= calls (LLMAnalyzer.analyze_batch model model_name articles delay w).2
   <= calls w + 3 * length articles)%nat.
Proof. unfold LLMAnalyzer.analyze_batch. apply batch_loop_calls. Qed.

(** X6.  The outcomes of [validate_analysis], for every article, analysis,
    budget and endpoint.  A [ValueError] means that the article has no
    full_text or the analysis has no gist or no sentiment, and nothing was
    sent; a missing tone is not refused.  The only other exception is
    [LLMValidatorError], raised after at least one request.  A record is
    returned after at least one request, names the validator model and
    carries no error.  The call ends without a value only when the budget
    is not positive. *)
Theorem validate_analysis_outcomes
    (endpoint : nat -> validation_prompt -> posted) (model : str)
    (a : article) (an : LLMAnalyzer.analysis) (retry_count : Z) (w : world) :
  match LLMValidator.validate_analysis endpoint model a an retry_count w with
  | (Raise (ValueError _), w') => Shape.incomplete a an /\ w' = w
  | (Raise (LLMValidatorError _), w') =>
      ~ Shape.incomplete a an /\ 0 < retry_count /\ (calls w < calls w')%nat
  | (Raise _, _) => False
  | (Ok (Some v), w') =>
      ~ Shape.incomplete a an /\ 0 < retry_count /\ (calls w < calls w')%nat
      /\ LLMValidator.validator_model v = Some model /\ LLMValidator.error v = None
  | (Ok None, w') => ~ Shape.incomplete a an /\ retry_count <= 0 /\ w' = w
  end.
Proof.
  destruct (validate_analysis_cases endpoint model a an retry_count w)
    as [[Hinc [msg ->]] | [Hcomp ->]]; [done|].
  destruct (Z.to_nat retry_count) as [|todo] eqn:Hrc; [cbn; split; [done|]; split; [lia|done]|].
  destruct (vattempts_trace endpoint model
              (id_or a (get (LLMAnalyzer.article_id an) (IdStr (py "unknown"))))
              (get (art_title a) (py "No title")) (LLMValidator._build_validation_prompt a an)
              retry_count todo 0 w ltac:(lia) ltac:(lia)) as (k & pause & Hk & Hw & _ & Hout).
  destruct (LLMValidator.attempts _ _ _ _ _ _ _ _ _) as [[[v|]|e] w']; cbn [fst snd] in *;
    subst w'; cbn [calls].
  - split; [done|]. split; [lia|]. split; [lia|].
    unfold Retry.validation_success in Hout. repeat case_match; simplify_eq.
    split; [by eapply read_response_model | by eapply read_response_fields].
  - done.
  - destruct Hout as [_ [cause ->]].
    destruct (final_error_typed retry_count cause) as [msg ->]. split; [done|]. split; lia.
Qed.

(** X7.  What [validate_analysis] does to the world, for every article,
    analysis, budget and endpoint: nothing, or [k + 1] posts of the same
    prompt separated by [k] pauses, where [k] is less than the budget.  The
    pause after post [i] is one second, two seconds or [2^i] seconds, and
    no pause follows the last post. *)
Theorem validate_analysis_trace
    (endpoint : nat -> validation_prompt -> posted) (model : str)
    (a : article) (an : LLMAnalyzer.analysis) (retry_count : Z) (w : world) :
  (LLMValidator.validate_analysis endpoint model a an retry_count w).2 = w
  \/ exists k pause,
       Z.of_nat k < retry_count
       /\ (LLMValidator.validate_analysis endpoint model a an retry_count w).2
          = {| calls := calls w + S k;
               log := log w ++ Retry.schedule
                        (Post (LLMValidator._build_validation_prompt a an)) pause k |}
       /\ forall i, (i < k)%nat ->
            pause i = 1 \/ pause i = 2 \/ pause i = 2 ^ Z.of_nat i.
Proof. apply validate_analysis_world. Qed.

(** X8.  [validate_batch] posts at most three requests per article, for
    every pair of lists, every behaviour of the endpoint and every delay. *)
Theorem validate_batch_request_bound
    (endpoint : nat -> validation_prompt -> posted) (model : str)
    (articles : list article) (analyses : list LLMAnalyzer.analysis)
    (delay : Z) (w : world) :
  (calls w
   <= calls (LLMValidator.validate_batch endpoint model articles analyses delay w).2
   <= calls w + 3 * length articles)%nat.
Proof.
  unfold LLMValidator.validate_batch.
  destruct (Nat.eqb_spec (length articles) (length analyses)) as [Heq|Hne]; cbn [negb].
  - pose proof (vbatch_loop_calls endpoint model delay (Z.of_nat (length articles))
                  (zip articles analyses) 0 [] w) as H.
    destruct (LLMValidator.batch_loop _ _ _ _ _ _ _ _) as [results w']. cbn in *.
    rewrite length_zip_with in H. lia.
  - cbn. lia.
Qed.

(** ** The fetcher *)

Section FetcherFacts.

Import NewsFetcher.

Lemma startswith_prefix p a x : startswith p a = true -> startswith p (a ++ x) = true.
Proof.
  revert a. induction p as [|c p IH]; intros [|b a]; cbn; try done.
  intros [? ?]%andb_true_iff. apply andb_true_iff. split; [done | by apply IH].
Qed.

Lemma contains_app_l p a x : contains p a = true -> contains p (a ++ x) = true.
Proof.
  induction a as [|c a IH].
  - cbn. rewrite orb_false_r. intros Hp.
    destruct p; [by destruct x | done].
  - cbn [contains app]. intros [H|H]%orb_true_iff; apply orb_true_iff.
    + left. by apply (startswith_prefix p (c :: a) x).
    + right. by apply IH.
Qed.

Lemma contains_app_r p w a : contains p a = true -> contains p (w ++ a) = true.
Proof.
  intros Ha. induction w as [|c w IH]; [done|].
  cbn [contains app]. apply orb_true_iff. by right.
Qed.

Lemma contains_strip p s : contains p (strip s) = true -> contains p s = true.
Proof.
  intros H. destruct (strip_split s) as (w & r & Hs & _). rewrite Hs.
  by apply contains_app_r, contains_app_l.
Qed.

Lemma before_prefix sep s : exists r, s = before sep s ++ r.
Proof.
  induction s as [|c s [r IH]]; cbn.
  - destruct (startswith sep []); by exists [].
  - destruct (startswith sep (c :: s)); [by eexists|].
    exists r. cbn. by f_equal.
Qed.

Lemma contains_before sep s : sep <> [] -> contains sep (before sep s) = false.
Proof.
  intros Hsep. induction s as [|c s IH].
  - cbn. destruct sep; [done|]. done.
  - cbn [before]. destruct (startswith sep (c :: s)) eqn:Hst.
    + destruct sep; [done|]. done.
    + cbn [contains]. rewrite IH, orb_false_r.
      destruct (startswith sep (c :: before sep s)) eqn:Hb; [|done].
      destruct (before_prefix sep s) as [r Hr].
      apply (startswith_prefix _ _ r) in Hb. cbn [app] in Hb. rewrite <- Hr in Hb.
      congruence.
Qed.

Lemma or_else_truthy v d : truthy d = true -> truthy (or_else v d) = true.
Proof. intros Hd. unfold or_else. by destruct (truthy v) eqn:Hv. Qed.

Variable strftime_iso : str -> option str.
Variable now : Z -> str.

(** What a returned article was made of. *)
Lemma normalize_article_inv article index n :
  _normalize_article strftime_iso now article index = Ok (Some n) ->
  (exists t, n_title n = strip t) /\ n_title n <> []
  /\ (exists d, n_description n = strip d) /\ (exists c, n_content n = strip c)
  /\ (n_description n <> [] \/ n_content n <> [])
  /\ n_id n = index + 1 /\ n_fetched_at n = now index
  /\ truthy (n_source n) = true /\ truthy (n_author n) = true
  /\ (50 <= length (n_full_text n))%nat
  /\ let joined := strip (n_description n ++ " "%char :: n_content n) in
     let cut :=
       if endswith (py "[+") joined
       then strip (take (length joined - 2) joined) else joined in
     n_full_text n
     = if contains (py " chars]") cut then strip (before (py " chars]") cut) else cut.
Proof.
  unfold _normalize_article.
  destruct (py_get article (py "title") (JStr [])) as [t|] eqn:Ht; [|done]. cbn [bind].
  destruct (py_strip t) as [title|] eqn:Htitle; [|done]. cbn [bind].
  destruct (py_get article (py "description") JNull) as [d|] eqn:Hd; [|done]. cbn [bind].
  destruct (py_strip (or_else d (JStr []))) as [description|] eqn:Hdesc; [|done]. cbn [bind].
  destruct (py_get article (py "content") JNull) as [c|] eqn:Hc; [|done]. cbn [bind].
  destruct (py_strip (or_else c (JStr []))) as [content|] eqn:Hcont; [|done]. cbn [bind].
  destruct (bool_decide (title = []) || _) eqn:Hguard; [done|].
  apply orb_false_iff in Hguard as [Htne Hdc].
  apply bool_decide_eq_false in Htne.
  destruct (_ <? 50)%nat eqn:Hlen; [done|]. apply Nat.ltb_ge in Hlen.
  destruct (py_get article (py "publishedAt") (JStr [])) as [pa|]; [|done]. cbn [bind].
  destruct (py_get article (py "source") (JObj [])) as [src|]; [|done]. cbn [bind].
  destruct (py_get src (py "name") JNull) as [name|]; [|done]. cbn [bind].
  destruct (py_get article (py "author") JNull) as [author|]; [|done]. cbn [bind].
  destruct (py_get article (py "url") (JStr [])) as [url|]; [|done]. cbn [bind].
  intros [= <-]. cbn [n_id n_title n_description n_content n_full_text n_source n_author
                      n_fetched_at].
  destruct t as [| | | t' | |]; try done. cbn in Htitle. simplify_eq.
  destruct (or_else d (JStr [])) as [| | | d' | |]; try done. cbn in Hdesc. simplify_eq.
  destruct (or_else c (JStr [])) as [| | | c' | |]; try done. cbn in Hcont. simplify_eq.
  split; [by eexists|]. split; [done|]. split; [by eexists|]. split; [by eexists|].
  split.
  { apply andb_false_iff in Hdc as [H|H]; apply bool_decide_eq_false in H; tauto. }
  split; [done|]. split; [done|].
  split; [by apply or_else_truthy|]. split; [by apply or_else_truthy|].
  split; [exact Hlen | done].
Qed.

Lemma normalize_article_trimmed article index n :
  _normalize_article strftime_iso now article index = Ok (Some n) ->
  strip (n_title n) = n_title n /\ strip (n_full_text n) = n_full_text n
  /\ contains (py " chars]") (n_full_text n) = false.
Proof.
  intros (( t & Ht) & _ & (d & Hd) & (c & Hc) & _ & _ & _ & _ & _ & _ & Hft)%normalize_article_inv.
  cbn zeta in Hft. split; [rewrite Ht; apply strip_idem|].
  set (joined := strip (n_description n ++ " "%char :: n_content n)) in *.
  set (cut := if endswith (py "[+") joined
              then strip (take (length joined - 2) joined) else joined) in *.
  assert (Hcut : strip cut = cut).
  { unfold cut, joined. destruct (endswith _ _); apply strip_idem. }
  rewrite Hft. destruct (contains (py " chars]") cut) eqn:Hin.
  - split; [apply strip_idem|].
    destruct (contains (py " chars]") (strip (before (py " chars]") cut))) eqn:Hs; [|done].
    apply contains_strip in Hs. by rewrite contains_before in Hs.
  - done.
Qed.

(** The loop keeps what it had and adds, in order, the articles that
    normalize. *)
Lemma normalize_all_spec items :
  forall idx acc,
    exists new,
      normalize_all strftime_iso now idx items acc = acc ++ new
      /\ map n_id new `sublist_of` map (fun i => idx + Z.of_nat i + 1) (seq 0 (length items))
      /\ forall n, n ∈ new <->
           exists i a, items !! i = Some a
             /\ _normalize_article strftime_iso now a (idx + Z.of_nat i) = Ok (Some n).
Proof.
  induction items as [|a rest IH]; intros idx acc.
  - exists []. cbn. rewrite app_nil_r. split; [done|]. split; [done|].
    intros n. split; [by intros ?%elem_of_nil | by intros (i & b & ? & _)].
  - cbn [normalize_all length seq map].
    assert (Hshift : map (fun i => idx + Z.of_nat i + 1) (seq 1 (length rest))
                     = map (fun i => idx + 1 + Z.of_nat i + 1) (seq 0 (length rest))).
    { rewrite <- seq_shift, map_map. apply map_ext. intros i. lia. }
    rewrite Hshift.
    assert (Hpos : forall (n : normalized) (new : list normalized),
      (forall m, m ∈ new <->
         exists i b, rest !! i = Some b
           /\ _normalize_article strftime_iso now b (idx + 1 + Z.of_nat i) = Ok (Some m)) ->
      (n ∈ new \/ _normalize_article strftime_iso now a idx = Ok (Some n)) <->
      exists i b, (a :: rest) !! i = Some b
        /\ _normalize_article strftime_iso now b (idx + Z.of_nat i) = Ok (Some n)).
    { intros n new Hnew. split.
      - intros [(i & b & Hi & Hb)%Hnew | Ha].
        + exists (S i), b. split; [done|].
          by replace (idx + Z.of_nat (S i)) with (idx + 1 + Z.of_nat i) by lia.
        + exists O, a. split; [done|]. by rewrite Z.add_0_r.
      - intros ([|i] & b & Hi & Hb).
        + cbn in Hi. simplify_eq. right. by rewrite Z.add_0_r in Hb.
        + left. apply Hnew. exists i, b. split; [done|].
          by replace (idx + 1 + Z.of_nat i) with (idx + Z.of_nat (S i)) by lia. }
    destruct (_normalize_article strftime_iso now a idx) as [[n|]|e] eqn:Ha.
    + destruct (IH (idx + 1) (acc ++ [n])) as (new & -> & Hids & Hin).
      exists (n :: new). split; [by rewrite <- app_assoc|]. split.
      * cbn [map]. apply normalize_article_inv in Ha as (_ & _ & _ & _ & _ & Hid & _).
        rewrite Hid, Z.add_0_r. by apply sublist_skip.
      * intros m. rewrite elem_of_cons, <- (Hpos m new Hin).
        split; [intros [->|?]; by eauto | intros [?|[= ->]]; by eauto].
    + destruct (IH (idx + 1) acc) as (new & -> & Hids & Hin).
      exists new. split; [done|]. split; [by apply sublist_cons|].
      intros m. rewrite <- (Hpos m new Hin). split; [by left | by intros [?|?]].
    + destruct (IH (idx + 1) acc) as (new & -> & Hids & Hin).
      exists new. split; [done|]. split; [by apply sublist_cons|].
      intros m. rewrite <- (Hpos m new Hin). split; [by left | by intros [?|?]].
Qed.

Lemma seq_sublist a b : (a <= b)%nat -> seq 0 a `sublist_of` seq 0 b.
Proof.
  intros Hab. replace b with (a + (b - a))%nat by lia. rewrite seq_app.
  by apply sublist_inserts_r.
Qed.

Lemma sublist_map {A B} (f : A -> B) l k : l `sublist_of` k -> map f l `sublist_of` map f k.
Proof. induction 1; cbn; by constructor. Qed.

Lemma slice_to_length articles n items :
  slice_to articles n = Ok items -> (length items <= Z.to_nat n)%nat.
Proof.
  unfold slice_to. destruct articles as [| | | s | l |]; try done; intros [= <-].
  - rewrite length_map, length_take. lia.
  - rewrite length_take. lia.
Qed.

End FetcherFacts.

(** ** Combining and counting *)

Section ResultsFacts.

Import Results.

Lemma combine_loop_spec todo :
  forall acc out,
    combine_loop todo acc = Ok out ->
    exists rs, out = acc ++ rs
      /\ Forall2 (fun t r => combine_one t.1.1 t.1.2 t.2 = Ok r) todo rs.
Proof.
  induction todo as [|[[a an] v] rest IH]; intros acc out.
  - intros [= <-]. exists []. by rewrite app_nil_r.
  - cbn [combine_loop]. destruct (combine_one a an v) as [r|] eqn:Hr; [|done]. cbn [bind].
    intros (rs & -> & Hrs)%IH. exists (r :: rs). split; [by rewrite <- app_assoc|].
    by constructor.
Qed.

Lemma combine_one_fetched n an v :
  combine_one (NewsFetcher.as_dict n) (Some an) (Some v)
  = Ok {| article :=
            {| id := JNum (PyInt (NewsFetcher.n_id n));
               title := JStr (NewsFetcher.n_title n);
               source := NewsFetcher.n_source n;
               author := NewsFetcher.n_author n;
               url := NewsFetcher.n_url n;
               published_at := NewsFetcher.n_published_at n;
               content := JStr (NewsFetcher.n_full_text n) |};
          analysis :=
            {| Pipeline.gist := get (LLMAnalyzer.gist an) (py "N/A");
               Pipeline.sentiment := get (LLMAnalyzer.sentiment an) (py "neutral");
               Pipeline.tone := get (LLMAnalyzer.tone an) (py "informative");
               Pipeline.model := get (LLMAnalyzer.model_used an) (py "unknown") |};
          validation :=
            {| Pipeline.is_valid := LLMValidator.is_valid v;
               Pipeline.result := LLMValidator.validation_result v;
               Pipeline.reasoning := LLMValidator.reasoning v;
               Pipeline.corrections := LLMValidator.corrections v;
               Pipeline.validator_model :=
                 get (LLMValidator.validator_model v) (py "unknown") |} |}.
Proof. reflexivity. Qed.

Lemma combine_loop_fetched ns :
  forall ans vs acc,
    length ans = length ns -> length vs = length ns ->
    Forall Shape.in_vocabulary ans ->
    exists out,
      combine_loop (zip (zip (map NewsFetcher.as_dict ns) (map Some ans)) (map Some vs)) acc
      = Ok (acc ++ out)
      /\ length out = length ns
      /\ Forall (fun r => Pipeline.sentiment (analysis r) ∈ LLMAnalyzer.valid_sentiments) out.
Proof.
  induction ns as [|n ns IH]; intros [|an ans] [|v vs] acc Ha Hv Hvoc; try done.
  - exists []. by rewrite app_nil_r.
  - cbn [map zip_with combine_loop]. rewrite combine_one_fetched. cbn [bind].
    apply Forall_cons in Hvoc as [Han Hvoc].
    set (r := {| article := _; analysis := _; validation := _ |}).
    destruct (IH ans vs (acc ++ [r])) as (out & -> & Hlen & Hout);
      [by injection Ha | by injection Hv | done |].
    exists (r :: out). split; [by rewrite <- app_assoc|]. split; [cbn; by f_equal|].
    constructor; [|done]. destruct Han as (g & s & t & _ & Hs & _ & Hin & _).
    cbn. by rewrite Hs.
Qed.

Lemma all_some {A} (P : A -> Prop) (l : list (option A)) :
  Forall (fun o => exists r, o = Some r /\ P r) l ->
  exists rs, l = map Some rs /\ Forall P rs.
Proof.
  induction 1 as [|o l (r & -> & Hr) _ (rs & -> & Hrs)]; [by exists []|].
  exists (r :: rs). split; [done | by constructor].
Qed.

Lemma all_some_lookup {A} (l : list (option A)) :
  (forall k, (k < length l)%nat -> exists r, l !! k = Some (Some r)) ->
  exists rs, l = map Some rs.
Proof.
  intros H. destruct (all_some (fun _ => True) l) as (rs & -> & _); [|by exists rs].
  apply Forall_lookup. intros k o Hk.
  destruct (H k) as [r Hr]; [by eapply lookup_lt_Some|].
  exists r. split; [congruence | done].
Qed.

Import Pipeline Counting.

Lemma tally_sentiments results :
  Forall (fun r => sentiment (analysis r) ∈ LLMAnalyzer.valid_sentiments) results ->
  (tally (has_sentiment (py "positive")) results
   + tally (has_sentiment (py "negative")) results
   + tally (has_sentiment (py "neutral")) results = length results)%nat.
Proof.
  unfold tally. induction 1 as [|r rest Hr _ IH]; [done|].
  assert (Hone : ((if has_sentiment (py "positive") r then 1 else 0)
                  + (if has_sentiment (py "negative") r then 1 else 0)
                  + (if has_sentiment (py "neutral") r then 1 else 0) = 1)%nat).
  { unfold has_sentiment. apply list_elem_of_In in Hr. cbn in Hr.
    destruct Hr as [<-|[<-|[<-|[]]]]; vm_compute; reflexivity. }
  cbn [List.filter length].
  destruct (has_sentiment (py "positive") r), (has_sentiment (py "negative") r),
    (has_sentiment (py "neutral") r); cbn [length] in *; lia.
Qed.

End ResultsFacts.



(** The sample story ends with the marker the service puts on a truncated
    content, "[+1234 chars]": the cut at " chars]" leaves "[+1234" at the
    end of the full_text. *)
Example truncation_marker_leaves_a_remnant :
  NewsFetcher.n_full_text
  <$> (match NewsFetcher._normalize_article Feed.no_date Feed.clock Feed.story 0 with
       | Ok n => n
       | Raise _ => None
       end)
  = Some (py "Parliament opened its budget session on Monday with a long debate. Members discussed the finance bill for hours. [+1234").
Proof. vm_compute. reflexivity. Qed.

(** X10.  An article that [_normalize_article] returns passes both guards
    of [analyze_article]: for every model and budget the call goes into the
    retry loop, with the article's id, and with a prompt that carries the
    trimmed title and the cleaned full_text. *)
Theorem fetched_article_is_admitted
    (strftime_iso : str -> option str) (now : Z -> str)
    (raw : json) (index : Z) (n : NewsFetcher.normalized)
    (model : nat -> analysis_prompt -> generated) (model_name : str)
    (retry_count : Z) (w : world) :
  NewsFetcher._normalize_article strftime_iso now raw index = Ok (Some n) ->
  LLMAnalyzer.analyze_article model model_name (NewsFetcher.as_article n) retry_count w
  = LLMAnalyzer.attempts model model_name (IdInt (index + 1)) (NewsFetcher.n_title n)
      {| ap_title := NewsFetcher.n_title n; ap_text := NewsFetcher.n_full_text n |}
      retry_count (Z.to_nat retry_count) 0 w.
Proof.
  intros Hn.
  pose proof (normalize_article_trimmed _ _ _ _ _ Hn) as (_ & Hf & _).
  apply normalize_article_inv in Hn as (_ & _ & _ & _ & _ & Hid & _ & _ & _ & Hlen & _).
  rewrite (analyze_article_admitted model model_name (NewsFetcher.as_article n)
             retry_count w (NewsFetcher.n_full_text n)); [| done | rewrite Hf; lia].
  unfold id_or. cbn. by rewrite Hid.
Qed.

Lemma fetched_article_is_admitted_witness :
  exists n,
    NewsFetcher._normalize_article Feed.no_date Feed.clock Feed.story 0 = Ok (Some n)
    /\ LLMAnalyzer.analyze_article Samples.blocked Samples.gemini
         (NewsFetcher.as_article n) 3 start
       = LLMAnalyzer.attempts Samples.blocked Samples.gemini (IdInt (0 + 1))
           (NewsFetcher.n_title n)
           {| ap_title := NewsFetcher.n_title n; ap_text := NewsFetcher.n_full_text n |}
           3 (Z.to_nat 3) 0 start.
Proof.
  eexists. split; [vm_compute; reflexivity|].
  apply (fetched_article_is_admitted Feed.no_date Feed.clock Feed.story 0).
  vm_compute. reflexivity.
Defined.


(** X12.  When the arguments are valid and the service answers with
    status ok and a list of raw articles, [fetch_articles] returns exactly
    the articles among the first max_articles that normalize, each
    normalized at its own position; a raw article that is refused or that
    raises is passed over without renumbering the others, so the ids are a
    subsequence of 1, 2, ..., max_articles. *)
Theorem fetch_articles_selects
    (client : NewsFetcher.request -> NewsFetcher.answer)
    (strftime_iso : str -> option str) (now : Z -> str) (str_of : json -> str)
    (query language : str) (max_articles : Z) (sort_by : str)
    (response : json) (raw : list json) :
  strip query <> [] -> 1 <= max_articles <= 100 ->
  client {| NewsFetcher.q := query; NewsFetcher.language := language;
            NewsFetcher.sort_by := sort_by; NewsFetcher.page_size := max_articles |}
  = NewsFetcher.Responds response ->
  py_get response (py "status") JNull = Ok (JStr (py "ok")) ->
  py_get response (py "articles") (JArr []) = Ok (JArr raw) ->
  exists articles,
    (NewsFetcher.fetch_articles client strftime_iso now str_of
       query language max_articles sort_by).1 = NewsFetcher.Returns articles
    /\ map NewsFetcher.n_id articles
       `sublist_of` map (fun i => Z.of_nat i + 1) (seq 0 (Z.to_nat max_articles))
    /\ forall n, n ∈ articles <->
         exists i a, Z.of_nat i < max_articles /\ raw !! i = Some a
           /\ NewsFetcher._normalize_article strftime_iso now a (Z.of_nat i) = Ok (Some n).
Proof.
  intros Hq Hmax Hclient Hstatus Hraw.
  unfold NewsFetcher.fetch_articles.
  destruct query as [|c q]; [done|]. rewrite bool_decide_eq_false_2 by done. cbn [orb].
  destruct (strip (c :: q)) as [|c' q'] eqn:Hs; [done|]. cbn [length Nat.eqb].
  destruct (Z.ltb_spec max_articles 1); [lia|].
  destruct (Z.ltb_spec 100 max_articles); [lia|]. cbn [orb fst].
  rewrite Z.min_l by lia. rewrite Hclient.
  unfold NewsFetcher.read_answer. rewrite Hstatus. cbn [is_str].
  rewrite bool_decide_eq_true_2 by done. cbn [negb]. rewrite Hraw.
  destruct raw as [|a0 raw'].
  { cbn. exists []. split; [done|]. split; [apply sublist_nil_l|].
    intros n. split; [by intros ?%elem_of_nil | by intros (i & a & _ & ? & _)]. }
  cbn [truthy negb NewsFetcher.slice_to].
  destruct (normalize_all_spec strftime_iso now (take (Z.to_nat max_articles) (a0 :: raw')) 0 [])
    as (new & -> & Hids & Hin).
  exists new. split; [done|]. split.
  - etransitivity; [exact Hids|]. apply sublist_map, seq_sublist.
    rewrite length_take. lia.
  - intros n. rewrite Hin. split; intros (i & a & Hia).
    + destruct Hia as [[Hi Hlt]%lookup_take_Some Ha]. exists i, a.
      split; [lia|]. split; [done|]. by rewrite Z.add_0_l in Ha.
    + destruct Hia as (Hlt & Hi & Ha). exists i, a. split.
      * apply lookup_take_Some. split; [done | lia].
      * by rewrite Z.add_0_l.
Qed.

Lemma fetch_articles_selects_witness :
  exists articles,
    (NewsFetcher.fetch_articles Feed.service Feed.no_date Feed.clock Feed.plain
       (py "India politics") (py "en") 12 (py "publishedAt")).1
    = NewsFetcher.Returns articles
    /\ map NewsFetcher.n_id articles
       `sublist_of` map (fun i => Z.of_nat i + 1) (seq 0 (Z.to_nat 12))
    /\ forall n, n ∈ articles <->
         exists i a, Z.of_nat i < 12 /\ [Feed.story; Feed.brief; Feed.story] !! i = Some a
           /\ NewsFetcher._normalize_article Feed.no_date Feed.clock a (Z.of_nat i)
              = Ok (Some n).
Proof.
  apply (fetch_articles_selects Feed.service Feed.no_date Feed.clock Feed.plain
           (py "India politics") (py "en") 12 (py "publishedAt")
           (JObj [(py "status", JStr (py "ok"));
                  (py "totalResults", JNum (PyInt 3));
                  (py "articles", JArr [Feed.story; Feed.brief; Feed.story])])).
  - vm_compute. discriminate.
  - lia.
  - reflexivity.
  - vm_compute. reflexivity.
  - vm_compute. reflexivity.
Defined.

(** The second of three raw articles is too short: the list has the ids
    1 and 3. *)
Example skipped_article_leaves_a_gap :
  match (NewsFetcher.fetch_articles Feed.service Feed.no_date Feed.clock Feed.plain
           (py "India politics") (py "en") 12 (py "publishedAt")).1 with
  | NewsFetcher.Returns articles => map NewsFetcher.n_id articles = [1; 3]
  | NewsFetcher.Raises _ => False
  end.
Proof. vm_compute. reflexivity. Qed.

(** X13.  When the service answers with a status other than ok, the
    [NewsAPIError] that [fetch_articles] raises for it inside its [try]
    block is caught by the block's own last clause: what the caller sees is
    [NewsAPIError] with "Unexpected error: API returned status: " and the
    status. *)
Theorem fetch_articles_status_error
    (client : NewsFetcher.request -> NewsFetcher.answer)
    (strftime_iso : str -> option str) (now : Z -> str) (str_of : json -> str)
    (query language : str) (max_articles : Z) (sort_by : str)
    (response status : json) :
  strip query <> [] -> 1 <= max_articles <= 100 ->
  client {| NewsFetcher.q := query; NewsFetcher.language := language;
            NewsFetcher.sort_by := sort_by; NewsFetcher.page_size := max_articles |}
  = NewsFetcher.Responds response ->
  py_get response (py "status") JNull = Ok status ->
  status <> JStr (py "ok") ->
  (NewsFetcher.fetch_articles client strftime_iso now str_of
     query language max_articles sort_by).1
  = NewsFetcher.Raises
      (NewsFetcher.NewsAPIError
         (py "Unexpected error: " ++ py "API returned status: " ++ str_of status)).
Proof.
  intros Hq Hmax Hclient Hstatus Hne.
  unfold NewsFetcher.fetch_articles.
  destruct query as [|c q]; [done|]. rewrite bool_decide_eq_false_2 by done. cbn [orb].
  destruct (strip (c :: q)) as [|c' q'] eqn:Hs; [done|]. cbn [length Nat.eqb].
  destruct (Z.ltb_spec max_articles 1); [lia|].
  destruct (Z.ltb_spec 100 max_articles); [lia|]. cbn [orb fst].
  rewrite Z.min_l by lia. rewrite Hclient.
  unfold NewsFetcher.read_answer. rewrite Hstatus.
  assert (Hno : is_str (py "ok") status = false).
  { destruct status as [| | | s | |]; try done. cbn.
    apply bool_decide_eq_false_2. congruence. }
  rewrite Hno. done.
Qed.

Lemma fetch_articles_status_error_witness :
  (NewsFetcher.fetch_articles Feed.refusing Feed.no_date Feed.clock Feed.plain
     (py "India politics") (py "en") 12 (py "publishedAt")).1
  = NewsFetcher.Raises
      (NewsFetcher.NewsAPIError
         (py "Unexpected error: " ++ py "API returned status: "
          ++ Feed.plain (JStr (py "error")))).
Proof.
  apply (fetch_articles_status_error Feed.refusing Feed.no_date Feed.clock Feed.plain
           (py "India politics") (py "en") 12 (py "publishedAt")
           (JObj [(py "status", JStr (py "error"));
                  (py "code", JStr (py "apiKeyInvalid"))])).
  - vm_compute. discriminate.
  - lia.
  - reflexivity.
  - vm_compute. reflexivity.
  - discriminate.
Defined.

(** X14.  [_combine_results] checks no lengths: it stops with the shortest
    of its three lists.  When it returns, the result has as many entries as
    the shortest list, and entry [k] is built from the article, the
    analysis and the validation at position [k]. *)
Theorem combine_results_aligned
    (articles : list json) (analyses : list (option LLMAnalyzer.analysis))
    (validations : list (option LLMValidator.validation))
    (out : list Results.combined_result) :
  Results._combine_results articles analyses validations = Ok out ->
  length out = Nat.min (length articles) (Nat.min (length analyses) (length validations))
  /\ forall k r, out !! k = Some r ->
       exists a an v,
         articles !! k = Some a /\ analyses !! k = Some an /\ validations !! k = Some v
         /\ Results.combine_one a an v = Ok r.
Proof.
  unfold Results._combine_results.
  intros (rs & -> & Hrs)%combine_loop_spec. cbn [app]. split.
  - rewrite <- (Forall2_length _ _ _ Hrs), !length_zip_with. lia.
  - intros k r Hk.
    destruct (Forall2_lookup_r _ _ _ _ _ Hrs Hk) as ([[a an] v] & Ht & Hone).
    apply lookup_zip_with_Some in Ht as (x & v' & [= <- <-] & Hx & Hv).
    apply lookup_zip_with_Some in Hx as (a' & an' & [= <- <-] & Ha & Han).
    by exists a, an, v.
Qed.

Lemma combine_results_aligned_witness :
  exists out,
    Results._combine_results
      [NewsFetcher.as_dict Feed.fetched; NewsFetcher.as_dict Feed.fetched]
      [Some Samples.verdict]
      [Some (LLMValidator.failed Samples.news (Timeout (py "read timed out"))); None]
    = Ok out
    /\ length out = Nat.min 2 (Nat.min 1 2)
    /\ forall k r, out !! k = Some r ->
         exists a an v,
           [NewsFetcher.as_dict Feed.fetched; NewsFetcher.as_dict Feed.fetched] !! k = Some a
           /\ [Some Samples.verdict] !! k = Some an
           /\ [Some (LLMValidator.failed Samples.news (Timeout (py "read timed out"))); None]
              !! k = Some v
           /\ Results.combine_one a an v = Ok r.
Proof.
  eexists. split; [vm_compute; reflexivity|].
  apply (combine_results_aligned
           [NewsFetcher.as_dict Feed.fetched; NewsFetcher.as_dict Feed.fetched]
           [Some Samples.verdict]
           [Some (LLMValidator.failed Samples.news (Timeout (py "read timed out"))); None]).
  vm_compute. reflexivity.
Defined.

(** X15.  The four steps of [run] that follow the fetch, for every list of
    fetched articles and every behaviour of the two models:
    [analyze_batch] with delay 1 returns a record for every article,
    [validate_batch] with delay 2 accepts that list and returns a record
    for every article, [_combine_results] raises nothing and keeps every
    article, and [_calculate_statistics] counts every article once among
    the sentiments positive, negative and neutral and once among valid and
    invalid. *)
Theorem pipeline_statistics_are_complete {D : Type}
    (model : nat -> analysis_prompt -> generated) (model_name : str)
    (endpoint : nat -> validation_prompt -> posted) (validator_model : str)
    (fetched : list NewsFetcher.normalized) (d : D) (w : world) :
  let articles := map NewsFetcher.as_article fetched in
  let '(analyses, w1) := LLMAnalyzer.analyze_batch model model_name articles 1 w in
  exists records,
    analyses = map Some records
    /\ let '(validated, w2) :=
         LLMValidator.validate_batch endpoint validator_model articles records 2 w1 in
       exists validations out st positive negative neutral valid invalid,
         validated = Ok validations
         /\ Results._combine_results (map NewsFetcher.as_dict fetched) analyses validations
            = Ok out
         /\ length out = length fetched
         /\ Pipeline._calculate_statistics (map Results.for_statistics out) d = Ok st
         /\ Pipeline.total_articles st = length fetched
         /\ Pipeline.sentiment_distribution st !! py "positive" = Some positive
         /\ Pipeline.sentiment_distribution st !! py "negative" = Some negative
         /\ Pipeline.sentiment_distribution st !! py "neutral" = Some neutral
         /\ (positive + negative + neutral = length fetched)%nat
         /\ Pipeline.validation_stats st !! py "valid" = Some valid
         /\ Pipeline.validation_stats st !! py "invalid" = Some invalid
         /\ (valid + invalid = length fetched)%nat.
Proof.
  cbn zeta. set (articles := map NewsFetcher.as_article fetched).
  (* the analyses *)
  pose proof (batch_loop_vocabulary model model_name 1 (Z.of_nat (length articles))
                articles 0 [] w ltac:(constructor)) as Hvoc.
  destruct (batch_loop_entries model model_name 1 (Z.of_nat (length articles)) articles
              ltac:(lia) 0 [] w) as (out1 & Hout1 & Hent1).
  apply analysis_entries_aligned in Hent1 as [Hlen1 _].
  unfold LLMAnalyzer.analyze_batch.
  destruct (LLMAnalyzer.batch_loop _ _ _ _ _ _ _ _) as [analyses w1]. cbn [fst app] in *.
  subst out1. apply all_some in Hvoc as (records & -> & Hrec).
  exists records. split; [done|].
  rewrite length_map in Hlen1.
  (* the validations *)
  unfold LLMValidator.validate_batch.
  rewrite (proj2 (Nat.eqb_eq _ _)) by done. cbn [negb].
  destruct (vbatch_loop_entries endpoint validator_model 2 (Z.of_nat (length articles))
              (zip articles records) ltac:(lia) 0 [] w1) as (out2 & Hout2 & Hent2).
  apply validation_entries_aligned in Hent2 as [Hlen2 Hsome].
  destruct (LLMValidator.batch_loop _ _ _ _ _ _ _ _) as [validated w2]. cbn [fst app] in *.
  subst out2.
  destruct (all_some_lookup validated) as [vs ->].
  { intros k Hk. rewrite Hlen2 in Hk.
    destruct (lookup_lt_is_Some_2 _ _ Hk) as [[a an] Hka].
    destruct (Hsome k a an Hka) as (r & Hr & _). by exists r. }
  rewrite length_map, length_zip_with in Hlen2.
  assert (Hfetched : length articles = length fetched) by (unfold articles; by rewrite length_map).
  (* the combined results *)
  destruct (combine_loop_fetched fetched records vs []) as (out & Hout & Hlen & Hsent);
    [lia | lia | done |].
  cbn [app] in Hout.
  (* the statistics *)
  destruct (count_all_lookup (map Results.for_statistics out)
              (<[py "neutral" := 0%nat]> (<[py "negative" := 0%nat]>
                 (<[py "positive" := 0%nat]> (∅ : gmap str nat))))
              ∅ (<[py "invalid" := 0%nat]> (<[py "valid" := 0%nat]> (∅ : gmap str nat)))
              0%nat 0%nat)
    as (sc & tc & vc & Hcount & Hs & _ & Hv & Hi & _); [done | done |].
  eexists (map Some vs), out, _, _, _, _, _, _.
  split; [done|]. split; [exact Hout|]. split; [done|].
  unfold Pipeline._calculate_statistics. rewrite Hcount. cbn [bind].
  split; [done|].
  cbn [Pipeline.total_articles Pipeline.sentiment_distribution Pipeline.validation_stats
       fst snd].
  split; [by rewrite length_map|].
  rewrite !Hs, Hv, Hi.
  split; [done|]. split; [done|]. split; [done|]. split.
  - cbn. rewrite <- Hlen, <- (length_map Results.for_statistics out).
    pose proof (tally_sentiments (map Results.for_statistics out)) as Ht.
    rewrite <- Ht; [lia|]. apply Forall_map. exact Hsent.
  - split; [done|]. split; [done|]. cbn.
    rewrite <- Hlen, <- (length_map Results.for_statistics out). apply tally_split.
Qed.

Section ValidatorBatches.

Import LLMValidator.

Variable endpoint : nat -> validation_prompt -> posted.
Variable model : str.

Lemma validate_analysis_answer a an w v w' :
  validate_analysis endpoint model a an 3 w = (Ok (Some v), w') -> Shape.settled model v.
Proof.
  destruct (validate_analysis_cases endpoint model a an 3 w) as [[_ [msg ->]] | [_ ->]];
    [done|].
  change (Z.to_nat 3) with 3%nat. intros Hcall.
  destruct (vattempts_trace endpoint model
              (id_or a (get (LLMAnalyzer.article_id an) (IdStr (py "unknown"))))
              (get (art_title a) (py "No title")) (_build_validation_prompt a an)
              3 2 0 w ltac:(lia) ltac:(lia)) as (k & pause & _ & _ & _ & Hout).
  rewrite Hcall in Hout. cbn in Hout. left.
  unfold Retry.validation_success in Hout. repeat case_match; simplify_eq.
  split; [by eapply read_response_fields | by eapply read_response_model].
Qed.

Lemma failed_settled a e : Shape.settled model (failed a e).
Proof. right. split; [eexists; split; reflexivity|]. done. Qed.

Lemma vbatch_loop_settled delay n todo :
  forall idx results w,
    Forall (fun o => exists v, o = Some v /\ Shape.settled model v) results ->
    Forall (fun o => exists v, o = Some v /\ Shape.settled model v)
      (batch_loop endpoint model delay n idx todo results w).1.
Proof.
  induction todo as [|[a an] rest IH]; intros idx results w Hres; [done|].
  cbn [batch_loop].
  assert (Hfail : forall e,
    Forall (fun o => exists v, o = Some v /\ Shape.settled model v) [Some (failed a e)]).
  { intros e. repeat constructor. eexists. split; [done | apply failed_settled]. }
  pose proof (validate_analysis_default endpoint model a an w) as Hdef.
  destruct (validate_analysis endpoint model a an 3 w) as [[[r|]|e] w1] eqn:Hcall;
    [| done |].
  - assert (Forall (fun o => exists v, o = Some v /\ Shape.settled model v)
              (results ++ [Some r])).
    { apply Forall_app. split; [done|]. repeat constructor. eexists. split; [done|].
      by eapply validate_analysis_answer. }
    destruct (idx <? n - 1); [|by apply IH].
    destruct (time_sleep delay w1) as [[[]|e] w2]; apply IH; [done|].
    apply Forall_app. split; [done | apply Hfail].
  - apply IH. apply Forall_app. split; [done | apply Hfail].
Qed.

End ValidatorBatches.

Section FenceFacts.

Import Grammar.

Lemma last_app_cons {A} (a : list A) c d : last (a ++ c :: d) = last (c :: d).
Proof.
  rewrite last_app. destruct (last (c :: d)) eqn:E; [done|]. by apply last_None in E.
Qed.

Lemma opened_firm lang d : firm d -> firm (Shape.opened lang d).
Proof.
  intros [_ (x & Hl & Hx)]. split; [exists tick; split; reflexivity|].
  exists x. split; [|done]. unfold Shape.opened.
  destruct d as [|c d]; [done|].
  change (fence ++ lang ++ nl :: c :: d) with (fence ++ lang ++ [nl] ++ c :: d).
  by rewrite !app_assoc, last_app_cons.
Qed.

Lemma opened_lines lang d :
  Forall (fun c => c <> nl) lang ->
  split_nl (Shape.opened lang d) = (fence ++ lang) :: split_nl d.
Proof.
  intros Hl. unfold Shape.opened. rewrite app_assoc, split_nl_app.
  rewrite (split_nl_line (fence ++ lang)); [done|].
  apply Forall_app. split; [|done]. unfold fence, py. cbn. by repeat constructor.
Qed.

End FenceFacts.

Section ChatFacts.

Import LLMValidator.



End ChatFacts.

Section SummingFacts.

Import Pipeline Summing.

Lemma total_insert_fresh (k : str) (n : nat) (m : gmap str nat) :
  m !! k = None -> total (<[k := n]> m) = (n + total m)%nat.
Proof.
  intros Hk. unfold total. rewrite map_fold_insert_L; [done | | done].
  intros. lia.
Qed.

Lemma total_bump (k : str) (m : gmap str nat) :
  total (<[k := (default 0%nat (m !! k) + 1)%nat]> m) = (total m + 1)%nat.
Proof.
  destruct (m !! k) as [n|] eqn:Hk.
  - change (default 0%nat (Some n)) with n.
    assert (H1 : total (<[k := (n + 1)%nat]> m) = ((n + 1) + total (delete k m))%nat).
    { rewrite <- insert_delete_eq. apply total_insert_fresh, lookup_delete_eq. }
    assert (H2 : total m = (n + total (delete k m))%nat).
    { rewrite <- (insert_delete_id m k n Hk) at 1.
      apply total_insert_fresh, lookup_delete_eq. }
    lia.
  - change (default 0%nat None) with 0%nat. rewrite total_insert_fresh by done. lia.
Qed.

Lemma count_all_total results :
  forall sc tc vc sc' tc' vc',
    count_all results (sc, tc, vc) = Ok (sc', tc', vc') ->
    total tc' = (total tc + length results)%nat.
Proof.
  induction results as [|r rest IH]; intros sc tc vc sc' tc' vc'.
  - intros [= <- <- <-]. cbn. lia.
  - cbn [count_all]. unfold count_one.
    destruct (if bool_decide _ then _ else _) as [sc1|]; [|done]. cbn [bind].
    destruct (if truthy _ then _ else _) as [vc1|]; [|done]. cbn [bind].
    intros H%IH. rewrite H, total_bump. cbn [length]. lia.
Qed.

End SummingFacts.

(** X16.  [validate_batch] fails open.  Every entry of the list it returns
    is either the record of a call that answered, which names the validator
    model and carries no error, or the record written for a call that
    raised, and that record is marked valid: [is_valid] is true, the result
    is the warning label, the reasoning repeats the error and no validator
    model is named.  This holds for every behaviour of the endpoint and
    every delay. *)
Theorem validate_batch_fails_open
    (endpoint : nat -> validation_prompt -> posted) (model : str)
    (articles : list article) (analyses : list LLMAnalyzer.analysis)
    (delay : Z) (w : world) :
  match (LLMValidator.validate_batch endpoint model articles analyses delay w).1 with
  | Ok results => Forall (fun o => exists v, o = Some v /\ Shape.settled model v) results
  | Raise _ => length articles <> length analyses
  end.
Proof.
  unfold LLMValidator.validate_batch.
  destruct (Nat.eqb_spec (length articles) (length analyses)) as [Heq|Hne]; cbn [negb];
    [|done].
  pose proof (vbatch_loop_settled endpoint model delay (Z.of_nat (length articles))
                (zip articles analyses) 0 [] w ltac:(constructor)) as H.
  by destruct (LLMValidator.batch_loop _ _ _ _ _ _ _ _) as [results w'].
Qed.

(** X17.  A reply that opens with a fence line and has no closing fence
    line is cleaned differently by the two stages.  The validation stage
    drops the fence line and keeps the document.  The analysis stage drops
    the first and the last line whatever the last line is, so the document
    loses its last line. *)
Theorem unclosed_fence (lang d : str) :
  Forall (fun c => c <> nl) lang -> Grammar.tame d -> Grammar.firm d ->
  LLMValidator.clean (Shape.opened lang d) = d
  /\ LLMAnalyzer.clean (Shape.opened lang d) = join_nl (removelast (split_nl d)).
Proof.
  intros Hl Ht Hf.
  assert (Hs : startswith fence (Shape.opened lang d) = true) by apply startswith_app.
  assert (H1 : startswith fence (fence ++ lang) = true) by apply startswith_app.
  split.
  - unfold LLMValidator.clean. rewrite strip_firm by (by apply opened_firm).
    rewrite Hs, opened_lines by done. cbn [List.filter]. rewrite H1. cbn [negb].
    rewrite tame_lines by done. apply join_split.
  - unfold LLMAnalyzer.clean. rewrite strip_firm by (by apply opened_firm).
    by rewrite Hs, opened_lines.
Qed.

Lemma unclosed_fence_witness :
  LLMValidator.clean (Shape.opened (py "json") Samples.reply) = Samples.reply
  /\ LLMAnalyzer.clean (Shape.opened (py "json") Samples.reply)
     = join_nl (removelast (split_nl Samples.reply)).
Proof.
  apply (unclosed_fence (py "json") Samples.reply).
  - unfold py. cbn. repeat constructor; discriminate.
  - vm_compute. reflexivity.
  - split; eexists; split; vm_compute; reflexivity.
Defined.

(** The reply of the sample, one line long, sent without its closing
    fence: the analysis stage is left with nothing and reports invalid
    JSON, the validation stage reads the object. *)
Example unclosed_fence_reply :
  LLMAnalyzer._parse_response (Shape.opened (py "json") Samples.reply) (IdInt 1)
  = Raise (LLMAnalyzerError (py "Invalid JSON response: " ++ decode_error_text))
  /\ LLMValidator._parse_validation (JStr (Shape.opened (py "json") Samples.reply)) (IdInt 1)
     = LLMValidator._parse_validation (JStr Samples.reply) (IdInt 1).
Proof. split; vm_compute; reflexivity. Qed.



(** X19.  When the cleaned reply is a JSON object that lacks one of the
    keys gist, sentiment and tone, [_parse_response] raises
    [LLMAnalyzerError] naming the first missing key in that order, whatever
    else the object holds. *)
Theorem missing_field_is_named
    (text : str) (article_id : pyid) (d : list (str * json)) (field : str) :
  json_loads (LLMAnalyzer.clean text) = Some (JObj d) ->
  List.find (fun k => negb (bool_decide (is_Some (dict_get d k)))) LLMAnalyzer.required_fields
  = Some field ->
  LLMAnalyzer._parse_response text article_id
  = Raise (LLMAnalyzerError
             (py "Failed to parse response: " ++ py "Missing required field: " ++ field)).
Proof.
  intros Hjson Hfind.
  unfold LLMAnalyzer._parse_response, LLMAnalyzer.parse_response_body, loads.
  rewrite Hjson. cbn [bind LLMAnalyzer.check_required LLMAnalyzer.required_fields py_in].
  cbn [List.find LLMAnalyzer.required_fields] in Hfind.
  destruct (bool_decide (is_Some (dict_get d (py "gist")))); cbn [negb] in Hfind;
    [|by simplify_eq].
  destruct (bool_decide (is_Some (dict_get d (py "sentiment")))); cbn [negb] in Hfind;
    [|by simplify_eq].
  destruct (bool_decide (is_Some (dict_get d (py "tone")))); cbn [negb] in Hfind;
    [done | by simplify_eq].
Qed.

Lemma missing_field_is_named_witness :
  LLMAnalyzer._parse_response
    (Samples.object [(py "gist", py "Budget session opens"); (py "tone", py "urgent")])
    (IdInt 1)
  = Raise (LLMAnalyzerError
             (py "Failed to parse response: " ++ py "Missing required field: "
              ++ py "sentiment")).
Proof.
  apply (missing_field_is_named _ (IdInt 1)
           [(py "gist", JStr (py "Budget session opens")); (py "tone", JStr (py "urgent"))]).
  - vm_compute. reflexivity.
  - vm_compute. reflexivity.
Defined.

(** X20.  The counts of the tone distribution that
    [_calculate_statistics] returns add up to the number of results: every
    result is counted under exactly one tone, whatever its tone is. *)
Theorem tone_counts_add_up {D : Type} (results : list Pipeline.combined) (d : D) :
  exists st,
    Pipeline._calculate_statistics results d = Ok st
    /\ Summing.total (Pipeline.tone_distribution st) = Pipeline.total_articles st.
Proof.
  unfold Pipeline._calculate_statistics.
  destruct (count_all_lookup results
              (<[py "neutral" := 0%nat]> (<[py "negative" := 0%nat]>
                 (<[py "positive" := 0%nat]> (∅ : gmap str nat))))
              ∅ (<[py "invalid" := 0%nat]> (<[py "valid" := 0%nat]> (∅ : gmap str nat)))
              0%nat 0%nat)
    as (sc & tc & vc & Hcount & _); [done | done |].
  rewrite Hcount. cbn [bind]. eexists. split; [done|]. cbn.
  by rewrite (count_all_total _ _ _ _ _ _ _ Hcount).
Qed.
